(** * Epson ROM capsule tools: makerom (packer) and dumprom (unpacker)

    A shallow embedding of [makerom.cpp] and [dumprom.cpp].  Buffers
    ([std::vector<uint8_t>], the ROM image, the directory) are lists of
    bytes; [uint8_t] counters are integers reduced modulo 256 where the
    source truncates them; [exit], [assert] and reads outside a buffer are
    results of type [outcome]. *)

From Stdlib Require Import ZArith List Lia Bool String Ascii.
From Stdlib Require Import Strings.Byte.
Import ListNotations.
Open Scope Z_scope.

(** ** Bytes and buffers *)

Definition Z_of_byte (b : byte) : Z := Z.of_N (Byte.to_N b).

(** Conversion of an integer to [uint8_t]: the value modulo 256. *)
Definition byte_of_Z (z : Z) : byte :=
  match Byte.of_N (Z.to_N (z mod 256)) with
  | Some b => b
  | None => x00
  end.

Definition u8 (z : Z) : Z := z mod 256.
Definition u16 (z : Z) : Z := z mod 65536.

Definition zlen {A : Type} (l : list A) : Z := Z.of_nat (List.length l).

(** [&buf[off]] read for [n] bytes. *)
Definition sub (buf : list byte) (off n : Z) : list byte :=
  firstn (Z.to_nat n) (skipn (Z.to_nat off) buf).

(** [memcpy(&dst[off], src, length src)]. *)
Definition memcpy (dst : list byte) (off : Z) (src : list byte) : list byte :=
  firstn (Z.to_nat off) dst ++ src ++ skipn (Z.to_nat off + List.length src) dst.

(** [memset(&dst[off], val, n)]. *)
Definition memset (dst : list byte) (off : Z) (val : byte) (n : Z) : list byte :=
  memcpy dst off (repeat val (Z.to_nat n)).

Definition store (buf : list byte) (off : Z) (b : byte) : list byte :=
  memcpy buf off [b].

Definition load (buf : list byte) (off : Z) : byte :=
  nth (Z.to_nat off) buf x00.

(** [std::vector<uint8_t>::resize(n)]: new elements are value-initialised,
    that is, zero. *)
Definition resize (buf : list byte) (n : Z) : list byte :=
  if n <=? zlen buf then firstn (Z.to_nat n) buf
  else buf ++ repeat x00 (Z.to_nat (n - zlen buf)).

(** Bounds-checked reads, for buffers whose size the code does not control. *)
Definition load_opt (buf : list byte) (off : Z) : option byte :=
  if 0 <=? off then nth_error buf (Z.to_nat off) else None.

Definition sub_opt (buf : list byte) (off n : Z) : option (list byte) :=
  if (0 <=? off) && (0 <=? n) && (off + n <=? zlen buf)
  then Some (sub buf off n) else None.

(** ** Results of a run *)

Inductive outcome (A : Type) : Type :=
| Ok (a : A)
| Fatal (msg : string) (param : option string)  (* fatal(): message, exit(-1) *)
| UsageExit                                     (* usage(); exit(-1) *)
| AssertFail (expr : string)                    (* a failed assert() *)
| Undefined                                     (* read outside the buffer *)
| Diverges.                                     (* the loop does not end *)

Arguments Ok {A} a.
Arguments Fatal {A} msg param.
Arguments UsageExit {A}.
Arguments AssertFail {A} expr.
Arguments Undefined {A}.
Arguments Diverges {A}.

Definition bind {A B : Type} (m : outcome A) (k : A -> outcome B) : outcome B :=
  match m with
  | Ok a => k a
  | Fatal msg p => Fatal msg p
  | UsageExit => UsageExit
  | AssertFail e => AssertFail e
  | Undefined => Undefined
  | Diverges => Diverges
  end.

Notation "x <- m ;; k" := (bind m (fun x => k))
  (at level 61, m at next level, right associativity).

Definition of_option {A : Type} (o : option A) : outcome A :=
  match o with
  | Some a => Ok a
  | None => Undefined
  end.

(** ** The host: files that can be read, paths that can be written *)

(** [read_file p]: the bytes of [p] when it opens for reading.
    [can_write p]: [p] opens for writing.  [write_ok p data]: the stream
    open on [p] is still good once [data] is written to it; only [makerom]
    tests this. *)
Record host : Type := mkHost {
  read_file : string -> option (list byte);
  can_write : string -> bool;
  write_ok : string -> list byte -> bool
}.

(** ** On-ROM layout (both programs declare the same packed structs) *)

Definition MAGIC : byte := xe5.
Definition MAGIC_M : byte := x37.
Definition CAPACITY_256kbit : byte := x20.
Definition MAX_DIR_ENTRIES : Z := 0x20.
Definition DIR_ENTRY_INVALID : byte := xe5.
Definition DIR_ENTRY_VALID : byte := x00.

Definition sizeof_DirEntry : Z := 32.
Definition sizeof_RomHeader : Z := 32.

Module Hdr.
Definition id : Z := 0.
Definition capacity : Z := 2.
Definition checksum : Z := 3.
Definition system_name : Z := 5.
Definition rom_name : Z := 8.
Definition sizeof_rom_name : Z := 14.
Definition dir_entries : Z := 22.
Definition v : Z := 23.
Definition version : Z := 24.
Definition month : Z := 26.
Definition day : Z := 28.
Definition year : Z := 30.
End Hdr.

Module Ent.
Definition validity : Z := 0.
Definition file_name : Z := 1.
Definition file_type : Z := 9.
Definition logical_extent : Z := 12.
Definition zero : Z := 13.
Definition record_count : Z := 15.
Definition allocation_map : Z := 16.
End Ent.

(** The 16 KiB half exchange, as both programs write it:
    [temp = rom; memcpy(&rom[0], &temp[0x4000], 0x4000);
     memcpy(&rom[0x4000], &temp[0], 0x4000)]. *)
Definition swap_halves (rom : list byte) : list byte :=
  let temp := rom in
  let rom1 := memcpy rom 0 (sub temp 0x4000 0x4000) in
  memcpy rom1 0x4000 (sub temp 0 0x4000).

(** ** makerom *)

Module Makerom.

(** [std::string::find_last_of(c)]; [None] is [npos]. *)
Fixpoint find_last_of (c : ascii) (s : string) : option nat :=
  match s with
  | EmptyString => None
  | String a r =>
      match find_last_of c r with
      | Some p => Some (S p)
      | None => if Ascii.eqb a c then Some O else None
      end
  end.

Definition bad_name (full : string) : outcome (list byte * list byte) :=
  Fatal "Input files must be 8.3" (Some full).

Definition split_file_name (full : string) : outcome (list byte * list byte) :=
  match find_last_of "."%char full with
  | None => bad_name full
  | Some pos =>
      let sname := substring 0 pos full in
      let sext := substring (S pos) (String.length full - S pos) full in
      if (String.length sname <? 1)%nat || (8 <? String.length sname)%nat
         || (String.length sext <? 1)%nat || (3 <? String.length sext)%nat
      then bad_name full
      else
        let name := memset (repeat x00 8) 0 x20 8 in
        let type := memset (repeat x00 3) 0 x20 3 in
        let name := memcpy name 0 (list_byte_of_string sname) in
        let type := memcpy type 0 (list_byte_of_string sext) in
        Ok (name, type)
  end.

Record pack_state : Type := mkPack {
  directory : list byte;
  file_area : list byte;
  currentDirectory : Z;   (* uint8_t *)
  nextAllocation : Z      (* uint8_t *)
}.

(** The bytes [memcpy] takes from [outName] for [rom_name]: at most
    [sizeof(hdr->rom_name)] of them. *)
Definition rom_name_bytes (outName : string) : list byte :=
  list_byte_of_string
    (substring 0 (if (Z.to_nat Hdr.sizeof_rom_name <? String.length outName)%nat
                  then Z.to_nat Hdr.sizeof_rom_name
                  else String.length outName) outName).

(** Initialise ROM header; invalidate all dir entries. *)
Definition init_directory_with (romName : list byte) : list byte :=
  let d := repeat DIR_ENTRY_INVALID (Z.to_nat (sizeof_DirEntry * MAX_DIR_ENTRIES)) in
  let d := store d (Hdr.id + 0) MAGIC in
  let d := store d (Hdr.id + 1) MAGIC_M in
  let d := store d Hdr.capacity CAPACITY_256kbit in
  let d := memcpy d Hdr.system_name (list_byte_of_string "H80") in
  let d := memset d Hdr.rom_name x20 Hdr.sizeof_rom_name in
  let d := memcpy d Hdr.rom_name romName in
  let d := store d Hdr.dir_entries x04 in
  let d := store d Hdr.v "V"%byte in
  let d := store d (Hdr.version + 0) "1"%byte in
  let d := store d (Hdr.version + 1) "0"%byte in
  let d := memcpy d Hdr.month (list_byte_of_string "11") in
  let d := memcpy d Hdr.day (list_byte_of_string "16") in
  let d := memcpy d Hdr.year (list_byte_of_string "20") in
  fold_left (fun d i => store d (Z.of_nat i * sizeof_DirEntry + Ent.validity) DIR_ENTRY_INVALID)
            (seq 1 (Z.to_nat MAX_DIR_ENTRIES - 1)) d.

Definition init_directory (outName : string) : list byte :=
  init_directory_with (rom_name_bytes outName).

Definition init_state (outName : string) : pack_state :=
  mkPack (init_directory outName) [] 0 1.

(** [if(++currentDirectory > MAX_DIR_ENTRIES-1) fatal(...)]. *)
Definition bump_directory (cd : Z) : outcome Z :=
  let cd' := u8 (cd + 1) in
  if cd' >? MAX_DIR_ENTRIES - 1 then Fatal "Out of directory space." None
  else Ok cd'.

(** Reserve a directory entry: clear it, set name, type and extent. *)
Definition reserve_entry (dir : list byte) (cd : Z) (name type : list byte)
    (extent : Z) : list byte :=
  let base := cd * sizeof_DirEntry in
  let dir := memset dir base x00 sizeof_DirEntry in
  let dir := memcpy dir (base + Ent.file_name) (sub name 0 8) in
  let dir := memcpy dir (base + Ent.file_type) (sub type 0 3) in
  store dir (base + Ent.logical_extent) (byte_of_Z extent).

(** The loop over the 1K chunks of one file; [n] chunks remain. *)
Fixpoint chunk_loop (n : nat) (name type buffer : list byte) (st : pack_state)
    (allocationIndex nextLogicalExtent file_area_offset buffer_offset : Z)
    : outcome pack_state :=
  match n with
  | O => Ok st
  | S n' =>
      ext <- (if allocationIndex >=? 16 then
                cd <- bump_directory (currentDirectory st) ;;
                Ok (mkPack (reserve_entry (directory st) cd name type nextLogicalExtent)
                           (file_area st) cd (nextAllocation st),
                    0, nextLogicalExtent + 1)
              else Ok (st, allocationIndex, nextLogicalExtent)) ;;
      let '(st, allocationIndex, nextLogicalExtent) := ext in
      let base := currentDirectory st * sizeof_DirEntry in
      let dir := directory st in
      let dir := store dir (base + Ent.record_count)
                   (byte_of_Z (Z_of_byte (load dir (base + Ent.record_count)) + 1024 / 128)) in
      let dir := store dir (base + Ent.allocation_map + allocationIndex)
                   (byte_of_Z (nextAllocation st)) in
      let fa := memcpy (file_area st) file_area_offset (sub buffer buffer_offset 1024) in
      chunk_loop n' name type buffer
        (mkPack dir fa (currentDirectory st) (u8 (nextAllocation st + 1)))
        (allocationIndex + 1) nextLogicalExtent
        (file_area_offset + 1024) (buffer_offset + 1024)
  end.

(** Number of 1K chunks of a buffer of [len] bytes. *)
Definition chunks_of (len : Z) : Z := (len + 1023) / 1024.

(** Pad file to 1KB boundary.  The source calls
    [memset(&buffer[size - diff], (int)diff, 0)]: value [diff], count [0]. *)
Definition pad_buffer (buffer : list byte) : list byte :=
  let chunks := chunks_of (zlen buffer) in
  if zlen buffer <? chunks * 1024 then
    let diff := chunks * 1024 - zlen buffer in
    let buffer := resize buffer (zlen buffer + diff) in
    memset buffer (zlen buffer - diff) (byte_of_Z diff) 0
  else buffer.

(** One iteration of the loop over the input files. *)
Definition process_file (h : host) (path : string) (st : pack_state)
    : outcome pack_state :=
  cd <- bump_directory (currentDirectory st) ;;
  match read_file h path with
  | None => Fatal "failed to open input file." (Some path)
  | Some contents =>
      nt <- split_file_name path ;;
      let '(name, type) := nt in
      let chunks := chunks_of (zlen contents) in
      let buffer := pad_buffer contents in
      let file_area_offset := zlen (file_area st) in
      let fa := resize (file_area st) (zlen (file_area st) + chunks * 1024) in
      let dir := reserve_entry (directory st) cd name type 0 in
      chunk_loop (Z.to_nat chunks) name type buffer
        (mkPack dir fa cd (nextAllocation st)) 0 1 file_area_offset 0
  end.

Fixpoint place_files (h : host) (files : list string) (st : pack_state)
    : outcome pack_state :=
  match files with
  | [] => Ok st
  | path :: rest => st' <- process_file h path st ;; place_files h rest st'
  end.

(** Update the header to reflect the files that have been stored. *)
Definition finalise_header (st : pack_state) : list byte :=
  let dir := directory st in
  let dir := store dir Hdr.dir_entries
               (byte_of_Z (((currentDirectory st + 3) / 4) * 4)) in
  let checksum := u16 (zlen (file_area st)) in
  let dir := store dir (Hdr.checksum + 0) (byte_of_Z (Z.land checksum 0xff)) in
  store dir (Hdr.checksum + 1) (byte_of_Z (Z.land (Z.shiftr checksum 8) 0xff)).

Definition romSize : Z := 0x8000.

(** The ROM before the address conversion. *)
Definition serialise (dir fa : list byte) : outcome (list byte) :=
  let dir_entries := Z_of_byte (load dir Hdr.dir_entries) in
  if dir_entries * sizeof_DirEntry + zlen fa >? romSize
  then Fatal "Out of ROM space." None
  else
    let rom := repeat xff (Z.to_nat romSize) in
    let rom := memcpy rom 0 (sub dir 0 (dir_entries * sizeof_DirEntry)) in
    Ok (memcpy rom (dir_entries * sizeof_DirEntry) fa).

(** 27256 ROMs require to convert physical to logical addresses. *)
Definition address_swap (dir rom : list byte) : list byte :=
  if Byte.eqb (load dir Hdr.capacity) CAPACITY_256kbit then swap_halves rom
  else rom.

(** The packed state after the loop over [argv[2..]]. *)
Definition pack (h : host) (outName : string) (files : list string)
    : outcome pack_state :=
  place_files h files (init_state outName).

(** The image before the address conversion. *)
Definition build_rom (h : host) (outName : string) (files : list string)
    : outcome (list byte) :=
  st <- pack h outName files ;;
  serialise (finalise_header st) (file_area st).

(** [main]: the result is the byte string written to [argv[1]].  The output
    exists when it opens for reading; the image is written in one [write],
    and the stream is tested after it. *)
Definition main (h : host) (argv : list string) : outcome (list byte) :=
  if zlen argv <? 2 then UsageExit
  else
    let outName := nth 1 argv EmptyString in
    match read_file h outName with
    | Some _ => Fatal "Output file already exists." (Some outName)
    | None =>
        st <- pack h outName (skipn 2 argv) ;;
        let dir := finalise_header st in
        rom <- serialise dir (file_area st) ;;
        let rom := address_swap dir rom in
        if can_write h outName then
          if write_ok h outName rom then Ok rom
          else Fatal "Failed to write to ouput file." (Some outName)
        else Fatal "Failed to open output file for writing." (Some outName)
    end.

End Makerom.

(** ** dumprom *)

Module Dumprom.

(** [assert(cond)]: nothing when the program is built with [NDEBUG]. *)
Definition assert {A : Type} (ndebug cond : bool) (expr : string)
    (k : outcome A) : outcome A :=
  if ndebug then k else if cond then k else AssertFail expr.

(** Pointers into the image are offsets from [romBase]; the header is at
    offset 0. *)
Definition hdr_dir_entries (rom : list byte) : outcome Z :=
  b <- of_option (load_opt rom Hdr.dir_entries) ;; Ok (Z_of_byte b).

Definition file_area_offset (ndebug : bool) (rom : list byte) : outcome Z :=
  de <- hdr_dir_entries rom ;;
  assert ndebug (de mod 4 =? 0) "hdr->dir_entries%4 == 0"
    (assert ndebug ((de >=? 0) && (de <=? 0x20))
       "hdr->dir_entries >= 0 && hdr->dir_entries <=0x20"
       (Ok (0 + de * sizeof_DirEntry))).

Definition dir_entry_offset (ndebug : bool) (rom : list byte) (dir_entry : Z)
    : outcome Z :=
  assert ndebug (dir_entry >=? 1) "dir_entry >= 1"
    (de <- hdr_dir_entries rom ;;
     assert ndebug (dir_entry <=? de) "dir_entry <= hdr->dir_entries"
       (Ok (0 + dir_entry * sizeof_DirEntry))).

Definition block_address (ndebug : bool) (fileBase blockNo : Z) : outcome Z :=
  assert ndebug (blockNo >=? 1) "blockNo >=1"
    (Ok (fileBase + (blockNo - 1) * 1024)).

(** [std::string::find_first_of(' ')] and [substr(0, pos)]. *)
Fixpoint trim (s : list byte) : list byte :=
  match s with
  | [] => []
  | b :: r => if Byte.eqb b x20 then [] else b :: trim r
  end.

(** A [std::string] passed to [open] is read up to its first NUL. *)
Fixpoint c_str (s : list byte) : list byte :=
  match s with
  | [] => []
  | b :: r => if Byte.eqb b x00 then [] else b :: c_str r
  end.

(** The files written so far, and the file [outFile] is open on. *)
Record ofstream : Type := mkOut {
  written : list (string * list byte);
  handle : option string
}.

Fixpoint fs_get (name : string) (fs : list (string * list byte))
    : option (list byte) :=
  match fs with
  | [] => None
  | (n, d) :: r => if String.eqb n name then Some d else fs_get name r
  end.

Fixpoint fs_put (name : string) (data : list byte)
    (fs : list (string * list byte)) : list (string * list byte) :=
  match fs with
  | [] => [(name, data)]
  | (n, d) :: r =>
      if String.eqb n name then (n, data) :: r else (n, d) :: fs_put name data r
  end.

Definition close (out : ofstream) : ofstream := mkOut (written out) None.

(** [outFile.open(name, out | binary)]: creates or truncates. *)
Definition open (h : host) (name : list byte) (out : ofstream)
    : outcome ofstream :=
  let path := string_of_list_byte (c_str name) in
  if can_write h path then Ok (mkOut (fs_put path [] (written out)) (Some path))
  else Fatal "Could not open output file." None.

(** [outFile.write(data, n)]: nothing is written when no file is open. *)
Definition write (data : list byte) (out : ofstream) : ofstream :=
  match handle out with
  | None => out
  | Some path =>
      match fs_get path (written out) with
      | Some old => mkOut (fs_put path (old ++ data) (written out)) (Some path)
      | None => mkOut (fs_put path data (written out)) (Some path)
      end
  end.

Definition rd (rom : list byte) (off : Z) : outcome byte :=
  of_option (load_opt rom off).

(** Write each block in the allocation map: [for(i = 0; i < 16; ++i)],
    [n] iterations remain.  The source tests no block number against the
    size of the image ([romSize] is never used): a block outside the image
    is a read outside the buffer, which C++ leaves undefined, and which
    ends the run here with [Undefined]. *)
Fixpoint write_blocks (n : nat) (ndebug : bool) (rom : list byte)
    (fileBase dir i : Z) (out : ofstream) : outcome ofstream :=
  match n with
  | O => Ok out
  | S n' =>
      b <- rd rom (dir + Ent.allocation_map + i) ;;
      out' <- (if negb (Byte.eqb b x00) then
                 addr <- block_address ndebug fileBase (Z_of_byte b) ;;
                 data <- of_option (sub_opt rom addr 1024) ;;
                 Ok (write data out)
               else Ok out) ;;
      write_blocks n' ndebug rom fileBase dir (i + 1) out'
  end.

(** The body of the [while] loop for one directory number.  The source also
    assigns [extentNo], which it never reads. *)
Definition visit_entry (ndebug : bool) (h : host) (rom : list byte)
    (fileBase dirNo : Z) (out : ofstream) : outcome ofstream :=
  dir <- dir_entry_offset ndebug rom dirNo ;;
  validity <- rd rom (dir + Ent.validity) ;;
  if Byte.eqb validity x00 then
    logical_extent <- rd rom (dir + Ent.logical_extent) ;;
    if Byte.eqb logical_extent x00 then
      let out := close out in
      fileName <- of_option (sub_opt rom (dir + Ent.file_name) 8) ;;
      extension <- of_option (sub_opt rom (dir + Ent.file_type) 3) ;;
      let fileName := trim fileName in
      let extension := trim extension in
      out <- open h (fileName ++ list_byte_of_string "." ++ extension) out ;;
      write_blocks 16 ndebug rom fileBase dir 0 out
    else
      write_blocks 16 ndebug rom fileBase dir 0 out
  else Ok out.

(** [while(dirNo <= header->dir_entries) { ...; ++dirNo; }] with [dirNo] a
    [uint8_t].  Each evaluation of the guard takes one unit of fuel. *)
Fixpoint dir_loop (fuel : nat) (ndebug : bool) (h : host) (rom : list byte)
    (fileBase dirNo : Z) (out : ofstream) : outcome ofstream :=
  match fuel with
  | O => Diverges
  | S fuel' =>
      de <- hdr_dir_entries rom ;;
      if dirNo <=? de then
        out' <- visit_entry ndebug h rom fileBase dirNo out ;;
        dir_loop fuel' ndebug h rom fileBase (u8 (dirNo + 1)) out'
      else Ok out
  end.

(** [dirNo] takes at most 256 values; with [dir_entries = 255] the guard
    never fails and the fuel runs out. *)
Definition loop_fuel : nat := 256.

(** The result is the set of files written, in order of creation. *)
Definition dump_files (ndebug : bool) (h : host) (rom : list byte)
    : outcome (list (string * list byte)) :=
  id0 <- rd rom (Hdr.id + 0) ;;
  bad <- (if negb (Byte.eqb id0 xe5) then
            id1 <- rd rom (Hdr.id + 1) ;; Ok (negb (Byte.eqb id1 x37))
          else Ok false) ;;
  if (bad : bool) then Fatal "Not a valid rom file." None
  else
    fileBase <- file_area_offset ndebug rom ;;
    out <- dir_loop loop_fuel ndebug h rom fileBase 1 (mkOut [] None) ;;
    Ok (written (close out)).

Definition main (ndebug : bool) (h : host) (argv : list string)
    : outcome (list (string * list byte)) :=
  if negb (zlen argv =? 2) then UsageExit
  else
    match read_file h (nth 1 argv EmptyString) with
    | None => Fatal "failed to open input file." None
    | Some buffer =>
        let buffer :=
          if zlen buffer =? 0x8000 then swap_halves buffer else buffer in
        dump_files ndebug h buffer
    end.

End Dumprom.

(** * Vocabulary of the properties and concrete inputs *)

(** [frame d d']: same size, same bytes in slot 0. *)
Definition frame (d d' : list byte) : Prop :=
  zlen d' = zlen d /\ forall i, 0 <= i < 32 -> load d' i = load d i.

Definition OutOfDirectorySpace {A : Type} : outcome A :=
  Fatal "Out of directory space." None.

(** Slots opened by the chunk loop when [n] chunks remain and the current
    slot already holds [ai] block numbers. *)
Definition extra_slots (ai : Z) (n : nat) : Z :=
  match n with
  | O => 0
  | S _ => (ai + Z.of_nat n - 1) / 16
  end.

(** Directory slots one input file takes. *)
Definition slots_of (len : Z) : Z :=
  Z.max 1 ((Makerom.chunks_of len + 15) / 16).

Definition slots_for (h : host) (path : string) : Z :=
  match read_file h path with
  | Some contents => slots_of (zlen contents)
  | None => 1
  end.

(** The file opens and its name splits as 8.3. *)
Definition input_ok (h : host) (path : string) : bool :=
  match read_file h path with
  | Some _ =>
      match Makerom.split_file_name path with
      | Ok _ => true
      | _ => false
      end
  | None => false
  end.

Fixpoint slots_needed (h : host) (files : list string) : Z :=
  match files with
  | [] => 0
  | path :: rest => slots_for h path + slots_needed h rest
  end.

(** What the file area holds once all the files are placed. *)
Fixpoint padded_inputs (h : host) (files : list string) : list byte :=
  match files with
  | [] => []
  | path :: rest =>
      match read_file h path with
      | Some contents => Makerom.pad_buffer contents ++ padded_inputs h rest
      | None => padded_inputs h rest
      end
  end.

(** The value [finalise_header] stores in [dir_entries]. *)
Definition round_up_4 (n : Z) : Z := ((n + 3) / 4) * 4.

Definition writable (read : string -> option (list byte)) : host :=
  mkHost read (fun _ => true) (fun _ _ => true).

(** A directory with no file in it. *)
Definition no_files : host := writable (fun _ => None).

(** Four files of one byte each. *)
Definition four_files : host :=
  writable (fun p =>
    if String.eqb p "A.BIN" then Some [xaa]
    else if String.eqb p "B.BIN" then Some [xbb]
    else if String.eqb p "C.BIN" then Some [xcc]
    else if String.eqb p "D.BIN" then Some [xdd]
    else None).

(** One file whose first 32 bytes read as a valid directory entry:
    validity 0x00, name "HIDDEN  ", type "BIN", extent 0, record count 8,
    allocation map [1; 0 ...]. *)
Definition entry_like : list byte :=
  [x00] ++ list_byte_of_string "HIDDEN  BIN" ++ [x00; x00; x00; x08; x01].

Definition entry_like_file : host :=
  writable (fun p => if String.eqb p "A.BIN" then Some entry_like else None).

(** 32 files of one byte each. *)
Definition small_files : host :=
  writable (fun p => if String.eqb p "out.rom" then None else Some [x01]).

(** One file of two bytes, and the state once it is placed. *)
Definition two_bytes : host :=
  writable (fun p => if String.eqb p "A.BIN" then Some [xaa; xbb] else None).

Definition after_two_bytes : Makerom.pack_state :=
  match Makerom.process_file two_bytes "A.BIN" (Makerom.init_state "out.rom") with
  | Ok st => st
  | _ => Makerom.init_state "out.rom"
  end.

Definition thirty_two_names : list string := repeat "F.BIN"%string 32.

(** The host on which [out.rom] holds [image]. *)
Definition rom_host (image : list byte) : host :=
  writable (fun p => if String.eqb p "out.rom" then Some image else None).

(** [makerom out.rom files...] followed by [dumprom out.rom]. *)
Definition roundtrip (h : host) (files : list string)
    : outcome (list (string * list byte)) :=
  image <- Makerom.main h ("makerom" :: "out.rom" :: files)%string ;;
  Dumprom.main false (rom_host image) ["dumprom"; "out.rom"]%string.

(** An image whose first byte after the exchange is 0x00 and whose second
    is 0x37; [dir_entries] is 0. *)
Definition foreign_image : list byte :=
  swap_halves ([x00; x37] ++ repeat x00 (Z.to_nat 0x8000 - 2)).

(** A header with both identification bytes and [dir_entries = 5],
    followed by five unused slots. *)
Definition odd_directory : list byte :=
  [xe5; x37] ++ repeat x20 20 ++ [x05] ++ repeat x20 9 ++ repeat xe5 (5 * 32).

(** One file of 0x8000 bytes: it leaves no room for the directory. *)
Definition one_big_file : host :=
  writable (fun p =>
    if String.eqb p "BIG.BIN" then Some (repeat x01 (Z.to_nat 0x8000)) else None).

(** One empty file. *)
Definition one_empty_file : host :=
  writable (fun p => if String.eqb p "E.BIN" then Some [] else None).

(** What one step of the directory walk can end with: a normal end, the
    failure to open an output file, a failed [assert], or a read outside
    the image. *)
Definition entry_result {A : Type} (r : outcome A) : Prop :=
  match r with
  | Ok _ => True
  | Fatal msg param => msg = "Could not open output file."%string /\ param = None
  | UsageExit => False
  | AssertFail _ => True
  | Undefined => True
  | Diverges => False
  end.

(** Every file holds a whole number of 1024-byte blocks. *)
Definition whole_blocks (fs : list (string * list byte)) : Prop :=
  Forall (fun f => zlen (snd f) mod 1024 = 0) fs.

(** Neither a space nor a NUL in the string. *)
Definition plain (s : string) : bool :=
  forallb (fun b => negb (Byte.eqb b x20) && negb (Byte.eqb b x00))
          (list_byte_of_string s).

(** An image with the identification bytes and [dir_entries = 255]. *)
Definition endless_directory : list byte :=
  [xe5; x37] ++ repeat x20 20 ++ [xff] ++ repeat x20 9
  ++ repeat xe5 (Z.to_nat 0x2000).

(** A small image: header with [dir_entries = 4], slot 1 a valid entry
    "A.B" with block 1, slots 2 and 3 unused, and one block of 0xE5. *)
Definition small_rom : list byte :=
  [xe5; x37] ++ repeat x20 20 ++ [x04] ++ repeat x20 9
  ++ [x00] ++ list_byte_of_string "A       B  " ++ [x00; x00; x00; x08; x01]
  ++ repeat x00 15
  ++ repeat xe5 64
  ++ repeat xe5 1024.

(** The state once the empty file is placed. *)
Definition after_empty_file : Makerom.pack_state :=
  match Makerom.process_file one_empty_file "E.BIN" (Makerom.init_state "out.rom") with
  | Ok st => st
  | _ => Makerom.init_state "out.rom"
  end.

(** [same_outside lo hi d d']: same size, and the same bytes at every
    offset below [lo] or from [hi] on. *)
Definition same_outside (lo hi : Z) (d d' : list byte) : Prop :=
  zlen d' = zlen d
  /\ forall i, 0 <= i -> i < lo \/ hi <= i -> load d' i = load d i.

(** Byte [o] of the [j]-th directory entry of a file with name field [name],
    type field [type] and first block [a], once [k] of its chunks are
    placed: validity 0, name, type, extent [j], two zero bytes, 8 records
    per block held, then the block numbers and zeros. *)
Definition entry_byte (name type : list byte) (a k j o : Z) : byte :=
  if o =? 0 then x00
  else if o <=? 8 then nth (Z.to_nat (o - 1)) name x00
  else if o <=? 11 then nth (Z.to_nat (o - 9)) type x00
  else if o =? 12 then byte_of_Z j
  else if o <=? 14 then x00
  else if o =? 15 then byte_of_Z (8 * Z.min 16 (k - 16 * j))
  else if 16 * j + (o - 16) <? k then byte_of_Z (a + 16 * j + (o - 16))
  else x00.

(** The slots [s0 .. s0 + last] of [dir] hold the entries of a file of
    which [k] chunks are placed. *)
Definition entries_hold (dir name type : list byte) (s0 a k last : Z) : Prop :=
  forall j o, 0 <= j <= last -> 0 <= o < 32 ->
    load dir ((s0 + j) * 32 + o) = entry_byte name type a k j o.

(** The directory [dir] holds, from slot [s] on, the entries of [files],
    the first block of the first file being [a]. *)
Fixpoint dir_holds (h : host) (files : list string) (s a : Z)
    (dir : list byte) : Prop :=
  match files with
  | [] => True
  | path :: rest =>
      match read_file h path, Makerom.split_file_name path with
      | Some contents, Ok (name, type) =>
          entries_hold dir name type s a (Makerom.chunks_of (zlen contents))
            (slots_of (zlen contents) - 1)
          /\ dir_holds h rest (s + slots_of (zlen contents))
               (a + Makerom.chunks_of (zlen contents)) dir
      | _, _ => False
      end
  end.

(** [s; s + 1; ...], [n] numbers. *)
Fixpoint zrange (s : Z) (n : nat) : list Z :=
  match n with
  | O => []
  | S n' => s :: zrange (s + 1) n'
  end.

(** The body of the unpacker's loop at each directory number of a list. *)
Fixpoint visit_all (nd : bool) (h : host) (rom : list byte) (fileBase : Z)
    (slots : list Z) (out : Dumprom.ofstream) : outcome Dumprom.ofstream :=
  match slots with
  | [] => Ok out
  | d :: rest =>
      out' <- Dumprom.visit_entry nd h rom fileBase d out ;;
      visit_all nd h rom fileBase rest out'
  end.

(** The name [dumprom] opens for the directory entry made from [path]. *)
Definition stored_name (path : string) : string :=
  match Makerom.split_file_name path with
  | Ok (name, type) =>
      string_of_list_byte
        (Dumprom.c_str (Dumprom.trim name ++ list_byte_of_string "."
                        ++ Dumprom.trim type))
  | _ => EmptyString
  end.

(** What the packer stored for [path]: its bytes padded to whole chunks. *)
Definition stored_bytes (h : host) (path : string) : list byte :=
  match read_file h path with
  | Some contents => Makerom.pad_buffer contents
  | None => []
  end.

(** The files left by unpacking [files] on top of [fs]: each under its
    stored name, a later file replacing an earlier one of the same name. *)
Fixpoint unpacked (h : host) (files : list string)
    (fs : list (string * list byte)) : list (string * list byte) :=
  match files with
  | [] => fs
  | path :: rest =>
      unpacked h rest (Dumprom.fs_put (stored_name path) (stored_bytes h path) fs)
  end.

(** The name the unpacker opens for an entry with the given fields. *)
Definition entry_path (name type : list byte) : string :=
  string_of_list_byte
    (Dumprom.c_str (Dumprom.trim name ++ list_byte_of_string "."
                    ++ Dumprom.trim type)).

(** What the unpacker needs of the image for one file: the entries of the
    file in the slots [s ..  s + last], below the slot the header names
    last; the blocks of the file inside the image. *)
Record file_in_image (rom name type : list byte)
    (de fileBase s a c last : Z) : Prop := {
  fi_header : Dumprom.hdr_dir_entries rom = Ok de;
  fi_entries : entries_hold rom name type s a c last;
  fi_name : zlen name = 8;
  fi_type : zlen type = 3;
  fi_slots : 1 <= s /\ 0 <= last /\ s + last <= de /\ de <= 32;
  fi_size : zlen rom = 0x8000;
  fi_base : 0 <= fileBase;
  fi_blocks : 1 <= a /\ 0 <= c /\ fileBase + (a - 1 + c) * 1024 <= zlen rom;
  fi_extents : (forall j, 1 <= j <= last -> 16 * j < c) /\ c <= 16 * (last + 1)
}.

(** The last file cannot be opened. *)
Definition missing_second : list string := ["A.BIN"; "MISSING.BIN"]%string.

(** A name the unpacker can have opened on [h]: writable, at most 12
    characters, neither a space nor a NUL in it. *)
Definition opened_name (h : host) (s : string) : Prop :=
  can_write h s = true /\ (String.length s <= 12)%nat /\ plain s = true.

(** The names of the files written and the name of the open file are such
    names. *)
Definition names_opened (h : host) (out : Dumprom.ofstream) : Prop :=
  Forall (fun f => opened_name h (fst f)) (Dumprom.written out)
  /\ forall p, Dumprom.handle out = Some p -> opened_name h p.

(** The outcome is no failed [assert]. *)
Definition no_assert {A : Type} (r : outcome A) : Prop :=
  match r with
  | AssertFail _ => False
  | _ => True
  end.

(** The outcome is no read outside a buffer. *)
Definition defined {A : Type} (r : outcome A) : Prop :=
  match r with
  | Undefined => False
  | _ => True
  end.

(** Directory slot [d] can be visited without a read outside the image: its
    validity byte is inside the image and, when that byte is 0x00, so are
    the whole slot and every 1024-byte block its allocation map names. *)
Definition slot_inside (rom : list byte) (fileBase d : Z) : bool :=
  (d * 32 <? zlen rom)
  && (negb (Byte.eqb (load rom (d * 32)) x00)
      || ((d * 32 + 32 <=? zlen rom)
          && forallb
               (fun m =>
                  let b := load rom (d * 32 + 16 + m) in
                  Byte.eqb b x00 || (fileBase + Z_of_byte b * 1024 <=? zlen rom))
               (zrange 0 16))).

(** The header is inside the image, [dir_entries] is below 255, and the
    slots [1 .. dir_entries] can be visited. *)
Definition walk_inside (rom : list byte) : bool :=
  let de := Z_of_byte (load rom Hdr.dir_entries) in
  (Hdr.dir_entries <? zlen rom) && (de <? 255)
  && forallb (slot_inside rom (de * 32)) (zrange 1 (Z.to_nat de)).

(** * Properties *)

(** ** Bytes *)

Lemma Z_of_byte_range (b : byte) : 0 <= Z_of_byte b <= 255.
Proof.
  unfold Z_of_byte. pose proof (Byte.to_N_bounded b). lia.
Qed.

Lemma Z_of_byte_of_Z (z : Z) : Z_of_byte (byte_of_Z z) = z mod 256.
Proof.
  unfold Z_of_byte, byte_of_Z.
  pose proof (Z.mod_pos_bound z 256 ltac:(lia)) as Hm.
  destruct (Byte.of_N (Z.to_N (z mod 256))) as [b|] eqn:E.
  - apply Byte.to_of_N in E. rewrite E. lia.
  - apply Byte.of_N_None_iff in E. lia.
Qed.

Lemma byte_of_Z_of_byte (b : byte) : byte_of_Z (Z_of_byte b) = b.
Proof.
  unfold byte_of_Z, Z_of_byte.
  pose proof (Byte.to_N_bounded b).
  rewrite Z.mod_small by lia.
  rewrite N2Z.id, Byte.of_to_N. reflexivity.
Qed.

(** ** Buffers *)

Lemma zlen_nonneg {A : Type} (l : list A) : 0 <= zlen l.
Proof. unfold zlen. lia. Qed.

Lemma zlen_app {A : Type} (l1 l2 : list A) : zlen (l1 ++ l2) = zlen l1 + zlen l2.
Proof. unfold zlen. rewrite length_app. lia. Qed.

Lemma zlen_repeat {A : Type} (a : A) (n : nat) : zlen (repeat a n) = Z.of_nat n.
Proof. unfold zlen. rewrite repeat_length. reflexivity. Qed.

Lemma zlen_sub (buf : list byte) (off n : Z) :
  0 <= off -> 0 <= n -> off + n <= zlen buf -> zlen (sub buf off n) = n.
Proof.
  unfold zlen, sub. intros. rewrite length_firstn, length_skipn. lia.
Qed.

Lemma zlen_sub_le (buf : list byte) (off n : Z) :
  0 <= n -> zlen (sub buf off n) <= n.
Proof.
  unfold zlen, sub. intros. rewrite length_firstn. lia.
Qed.

Lemma zlen_memcpy (dst : list byte) (off : Z) (src : list byte) :
  0 <= off -> off + zlen src <= zlen dst -> zlen (memcpy dst off src) = zlen dst.
Proof.
  unfold zlen, memcpy. intros.
  rewrite !length_app, length_firstn, length_skipn. lia.
Qed.

Lemma zlen_store (buf : list byte) (off : Z) (b : byte) :
  0 <= off < zlen buf -> zlen (store buf off b) = zlen buf.
Proof.
  intros. unfold store. apply zlen_memcpy; unfold zlen in *; simpl; lia.
Qed.

Lemma zlen_memset (dst : list byte) (off : Z) (val : byte) (n : Z) :
  0 <= off -> 0 <= n -> off + n <= zlen dst -> zlen (memset dst off val n) = zlen dst.
Proof.
  intros. unfold memset. apply zlen_memcpy; rewrite ?zlen_repeat; lia.
Qed.

Lemma nth_firstn_lt {A : Type} (n i : nat) (l : list A) (d : A) :
  (i < n)%nat -> nth i (firstn n l) d = nth i l d.
Proof.
  intros H. rewrite nth_firstn.
  destruct (Nat.ltb_spec i n); [reflexivity | lia].
Qed.

Lemma load_memcpy_out (dst : list byte) (off : Z) (src : list byte) (i : Z) :
  0 <= off -> off + zlen src <= zlen dst -> 0 <= i ->
  i < off \/ off + zlen src <= i ->
  load (memcpy dst off src) i = load dst i.
Proof.
  unfold load, memcpy, zlen. intros Hoff Hfit Hi Hout.
  destruct Hout as [Hlt|Hge].
  - rewrite app_nth1 by (rewrite length_firstn; lia).
    apply nth_firstn_lt. lia.
  - rewrite app_nth2 by (rewrite length_firstn; lia).
    rewrite app_nth2 by (rewrite length_firstn; lia).
    rewrite nth_skipn, length_firstn. f_equal. lia.
Qed.

Lemma load_memcpy_in (dst : list byte) (off : Z) (src : list byte) (i : Z) :
  0 <= off -> off <= zlen dst -> off <= i < off + zlen src ->
  load (memcpy dst off src) i = load src (i - off).
Proof.
  unfold load, memcpy, zlen. intros Hoff Hfit Hi.
  rewrite app_nth2 by (rewrite length_firstn; lia).
  rewrite app_nth1 by (rewrite length_firstn; lia).
  f_equal. rewrite length_firstn. lia.
Qed.

Lemma load_store_same (buf : list byte) (off : Z) (b : byte) :
  0 <= off <= zlen buf -> load (store buf off b) off = b.
Proof.
  intros. unfold store. rewrite load_memcpy_in; unfold zlen in *; simpl; try lia.
  rewrite Z.sub_diag. reflexivity.
Qed.

Lemma load_store_other (buf : list byte) (off : Z) (b : byte) (i : Z) :
  0 <= off < zlen buf -> 0 <= i -> i <> off ->
  load (store buf off b) i = load buf i.
Proof.
  intros. unfold store. apply load_memcpy_out; unfold zlen in *; simpl; lia.
Qed.

Lemma load_memset_out (dst : list byte) (off : Z) (val : byte) (n i : Z) :
  0 <= off -> 0 <= n -> off + n <= zlen dst -> 0 <= i ->
  i < off \/ off + n <= i ->
  load (memset dst off val n) i = load dst i.
Proof.
  intros. unfold memset. apply load_memcpy_out; rewrite ?zlen_repeat; lia.
Qed.

Lemma load_sub (buf : list byte) (off n i : Z) :
  0 <= off -> 0 <= i < n -> load (sub buf off n) i = load buf (off + i).
Proof.
  unfold load, sub. intros.
  rewrite nth_firstn_lt by lia. rewrite nth_skipn. f_equal. lia.
Qed.

Lemma load_opt_in (buf : list byte) (off : Z) :
  0 <= off < zlen buf -> load_opt buf off = Some (load buf off).
Proof.
  intros H. unfold load_opt, load, zlen in *.
  destruct (Z.leb_spec 0 off); [|lia].
  apply nth_error_nth'. lia.
Qed.

Lemma memcpy_nil (dst : list byte) (off : Z) : memcpy dst off [] = dst.
Proof.
  unfold memcpy. simpl. rewrite Nat.add_0_r. apply firstn_skipn.
Qed.

Lemma sub_zero_length (buf : list byte) (off : Z) : sub buf off 0 = [].
Proof. reflexivity. Qed.

Lemma memcpy_app (pre rest src : list byte) (off : Z) :
  off = zlen pre ->
  memcpy (pre ++ rest) off src = pre ++ src ++ skipn (List.length src) rest.
Proof.
  intros ->. unfold memcpy, zlen. rewrite Nat2Z.id.
  rewrite firstn_app, firstn_all, Nat.sub_diag, firstn_0, app_nil_r.
  rewrite skipn_app.
  rewrite skipn_all2 by lia.
  replace (List.length pre + List.length src - List.length pre)%nat
    with (List.length src) by lia.
  reflexivity.
Qed.

(** ** The half exchange *)

Lemma swap_app (a b : list byte) (h : Z) :
  zlen a = h -> zlen b = h ->
  memcpy (memcpy (a ++ b) 0 (sub (a ++ b) h h)) h (sub (a ++ b) 0 h) = b ++ a.
Proof.
  intros Ha Hb.
  assert (Hn : List.length a = Z.to_nat h /\ List.length b = Z.to_nat h)
    by (unfold zlen in *; lia).
  destruct Hn as [Hna Hnb].
  assert (S1 : sub (a ++ b) h h = b).
  { unfold sub. rewrite skipn_app, <- Hna, skipn_all, Nat.sub_diag.
    simpl. rewrite Hna, <- Hnb. apply firstn_all. }
  assert (S2 : sub (a ++ b) 0 h = a).
  { unfold sub. simpl. rewrite firstn_app, <- Hna, firstn_all, Nat.sub_diag.
    simpl. apply app_nil_r. }
  rewrite S1, S2.
  assert (M1 : memcpy (a ++ b) 0 b = b ++ b).
  { unfold memcpy. simpl. rewrite skipn_app, Hnb, <- Hna, skipn_all, Nat.sub_diag.
    reflexivity. }
  rewrite M1, memcpy_app by lia.
  rewrite Hna, <- Hnb, skipn_all, app_nil_r. reflexivity.
Qed.

Lemma split_halves (rom : list byte) (h : Z) :
  0 <= h -> zlen rom = 2 * h ->
  exists a b, rom = a ++ b /\ zlen a = h /\ zlen b = h.
Proof.
  intros Hh Hl.
  exists (firstn (Z.to_nat h) rom), (skipn (Z.to_nat h) rom).
  split; [symmetry; apply firstn_skipn|].
  unfold zlen in *. rewrite length_firstn, length_skipn. lia.
Qed.

Lemma swap_halves_app (a b : list byte) :
  zlen a = 0x4000 -> zlen b = 0x4000 -> swap_halves (a ++ b) = b ++ a.
Proof.
  intros. unfold swap_halves. apply swap_app; assumption.
Qed.

Lemma swap_halves_involutive (rom : list byte) :
  zlen rom = 0x8000 -> swap_halves (swap_halves rom) = rom.
Proof.
  intros H.
  destruct (split_halves rom 0x4000) as (a & b & -> & Ha & Hb); [lia | lia |].
  rewrite swap_halves_app by assumption.
  apply swap_halves_app; assumption.
Qed.

Lemma zlen_swap_halves (rom : list byte) :
  zlen rom = 0x8000 -> zlen (swap_halves rom) = 0x8000.
Proof.
  intros H.
  destruct (split_halves rom 0x4000) as (a & b & -> & Ha & Hb); [lia | lia |].
  rewrite swap_halves_app by assumption.
  rewrite zlen_app. lia.
Qed.

(** Where the bytes go: each half lands on the other. *)
Lemma swap_halves_loads (rom : list byte) (i : Z) :
  zlen rom = 0x8000 -> 0 <= i < 0x4000 ->
  load (swap_halves rom) i = load rom (i + 0x4000)
  /\ load (swap_halves rom) (i + 0x4000) = load rom i.
Proof.
  intros Hl Hi.
  destruct (split_halves rom 0x4000) as (a & b & -> & Ha & Hb); [lia | lia |].
  rewrite swap_halves_app by assumption.
  unfold load, zlen in *. split.
  - rewrite app_nth1 by lia. rewrite app_nth2 by lia. f_equal. lia.
  - rewrite app_nth2 by lia. rewrite app_nth1 by lia. f_equal. lia.
Qed.

Lemma swap_halves_repeat (x : byte) :
  swap_halves (repeat x (Z.to_nat 0x8000)) = repeat x (Z.to_nat 0x8000).
Proof.
  replace (Z.to_nat 0x8000) with (Z.to_nat 0x4000 + Z.to_nat 0x4000)%nat by lia.
  rewrite repeat_app.
  apply swap_halves_app; apply zlen_repeat.
Qed.

(** ** The initial directory *)

Lemma length_list_byte_of_string (s : string) :
  List.length (list_byte_of_string s) = String.length s.
Proof.
  unfold list_byte_of_string. rewrite length_map.
  induction s as [|a s IH]; simpl; congruence.
Qed.

Lemma length_substring_le (n m : nat) (s : string) :
  (String.length (substring n m s) <= m)%nat.
Proof.
  revert n m. induction s as [|a s IH]; intros n m.
  - destruct n, m; simpl; lia.
  - destruct n as [|n].
    + destruct m as [|m]; simpl; [lia|]. specialize (IH O m). lia.
    + simpl. apply IH.
Qed.

Lemma zlen_rom_name_bytes (outName : string) :
  zlen (Makerom.rom_name_bytes outName) <= 14.
Proof.
  unfold Makerom.rom_name_bytes, zlen.
  rewrite length_list_byte_of_string.
  match goal with |- context [substring 0 ?m _] =>
    pose proof (length_substring_le 0 m outName) as Hs;
    assert (Hm : (m <= 14)%nat)
  end.
  { change (Z.to_nat Hdr.sizeof_rom_name) with 14%nat.
    destruct (Nat.ltb_spec 14 (String.length outName)); lia. }
  lia.
Qed.

(** The fixed header fields of the directory the packer starts from. *)
Lemma init_directory_with_header (romName : list byte) :
  zlen romName <= 14 ->
  let d := Makerom.init_directory_with romName in
  zlen d = 1024 /\ load d 0 = xe5 /\ load d 1 = x37 /\ load d 2 = x20.
Proof.
  intros H.
  do 15 (destruct romName as [|? romName]; [vm_compute; auto|]).
  exfalso. unfold zlen in H. simpl in H. lia.
Qed.

Lemma init_state_ok (outName : string) :
  let st := Makerom.init_state outName in
  zlen (Makerom.directory st) = 1024
  /\ load (Makerom.directory st) 0 = xe5
  /\ load (Makerom.directory st) 1 = x37
  /\ load (Makerom.directory st) 2 = x20
  /\ Makerom.currentDirectory st = 0
  /\ Makerom.file_area st = [].
Proof.
  destruct (init_directory_with_header _ (zlen_rom_name_bytes outName))
    as (L & I0 & I1 & I2).
  split; [exact L|]. split; [exact I0|]. split; [exact I1|].
  split; [exact I2|]. split; reflexivity.
Qed.

(** ** Directory writes leave the header slot alone *)

Lemma frame_refl (d : list byte) : frame d d.
Proof. split; auto. Qed.

Lemma frame_trans (d1 d2 d3 : list byte) :
  frame d1 d2 -> frame d2 d3 -> frame d1 d3.
Proof.
  intros [L1 H1] [L2 H2]. split; [congruence|].
  intros i Hi. rewrite H2, H1; auto.
Qed.

Lemma frame_memcpy (d : list byte) (off : Z) (src : list byte) :
  32 <= off -> off + zlen src <= zlen d -> frame d (memcpy d off src).
Proof.
  intros Ho Hf. split.
  - apply zlen_memcpy; lia.
  - intros i Hi. apply load_memcpy_out; lia.
Qed.

Lemma frame_store (d : list byte) (off : Z) (b : byte) :
  32 <= off < zlen d -> frame d (store d off b).
Proof.
  intros. unfold store. apply frame_memcpy; unfold zlen in *; simpl; lia.
Qed.

Lemma frame_memset (d : list byte) (off : Z) (val : byte) (n : Z) :
  32 <= off -> 0 <= n -> off + n <= zlen d -> frame d (memset d off val n).
Proof.
  intros. unfold memset. apply frame_memcpy; rewrite ?zlen_repeat; lia.
Qed.

Lemma frame_reserve_entry (dir : list byte) (cd : Z) (name type : list byte)
    (extent : Z) :
  zlen dir = 1024 -> 1 <= cd <= 31 ->
  frame dir (Makerom.reserve_entry dir cd name type extent).
Proof.
  intros Hl Hcd. unfold Makerom.reserve_entry.
  unfold sizeof_DirEntry, Ent.file_name, Ent.file_type, Ent.logical_extent.
  pose proof (zlen_sub_le name 0 8 ltac:(lia)) as Hn.
  pose proof (zlen_sub_le type 0 3 ltac:(lia)) as Ht.
  assert (F1 : frame dir (memset dir (cd * 32) x00 32))
    by (apply frame_memset; lia).
  eapply frame_trans; [exact F1|]. destruct F1 as [L1 _].
  match goal with |- frame ?d (store (memcpy (memcpy ?d _ ?a) _ ?b) _ _) =>
    assert (F2 : frame d (memcpy d (cd * 32 + 1) a))
      by (apply frame_memcpy; lia);
    destruct (F2) as [L2 _];
    assert (F3 : frame (memcpy d (cd * 32 + 1) a)
                   (memcpy (memcpy d (cd * 32 + 1) a) (cd * 32 + 9) b))
      by (apply frame_memcpy; lia);
    destruct (F3) as [L3 _]
  end.
  eapply frame_trans; [exact F2|].
  eapply frame_trans; [exact F3|].
  apply frame_store. lia.
Qed.

(** ** Directory slots used by the chunk loop *)

Lemma bump_directory_spec (cd : Z) :
  0 <= cd <= 31 ->
  Makerom.bump_directory cd =
    if cd + 1 <=? 31 then Ok (cd + 1) else OutOfDirectorySpace.
Proof.
  intros H. unfold Makerom.bump_directory, u8, MAX_DIR_ENTRIES.
  rewrite Z.mod_small by lia.
  destruct (Z.gtb_spec (cd + 1) (32 - 1)), (Z.leb_spec (cd + 1) 31);
    try lia; reflexivity.
Qed.

Lemma extra_slots_step_full (n : nat) :
  extra_slots 16 (S n) = 1 + extra_slots 1 n.
Proof.
  unfold extra_slots. destruct n as [|n].
  - reflexivity.
  - Z.div_mod_to_equations. lia.
Qed.

Lemma extra_slots_step (ai : Z) (n : nat) :
  0 <= ai < 16 -> extra_slots ai (S n) = extra_slots (ai + 1) n.
Proof.
  intros H. unfold extra_slots. destruct n as [|n].
  - Z.div_mod_to_equations. lia.
  - f_equal. lia.
Qed.

Lemma extra_slots_nonneg (ai : Z) (n : nat) : 0 <= ai -> 0 <= extra_slots ai n.
Proof.
  intros H. unfold extra_slots. destruct n; [lia|].
  Z.div_mod_to_equations. lia.
Qed.

Lemma chunk_loop_slots (n : nat) :
  forall name type buffer st ai nle fao bo,
    0 <= ai <= 16 -> 0 <= Makerom.currentDirectory st <= 31 ->
    let total := Makerom.currentDirectory st + extra_slots ai n in
    (total <= 31 ->
       exists st', Makerom.chunk_loop n name type buffer st ai nle fao bo = Ok st'
                   /\ Makerom.currentDirectory st' = total) /\
    (31 < total ->
       Makerom.chunk_loop n name type buffer st ai nle fao bo = OutOfDirectorySpace).
Proof.
  induction n as [|n IH]; intros name type buffer st ai nle fao bo Hai Hcd total.
  - subst total. simpl. split; intros.
    + exists st. split; [reflexivity | lia].
    + lia.
  - cbn [Makerom.chunk_loop].
    destruct (Z.geb_spec ai 16) as [Hfull|Hroom].
    + assert (ai = 16) by lia. subst ai. subst total.
      rewrite extra_slots_step_full.
      pose proof (extra_slots_nonneg 1 n ltac:(lia)) as Hnn.
      rewrite bump_directory_spec by assumption.
      destruct (Z.leb_spec (Makerom.currentDirectory st + 1) 31) as [Hle|Hgt].
      * cbn [bind].
        match goal with |- context [Makerom.chunk_loop n _ _ _ ?s ?a ?e ?f ?b] =>
          specialize (IH name type buffer s a e f b)
        end.
        cbn [Makerom.currentDirectory] in IH.
        specialize (IH ltac:(lia) ltac:(lia)).
        replace (0 + 1) with 1 in IH by lia.
        destruct IH as [IHok IHfail]. split; intros Ht.
        -- destruct IHok as (st' & E & C); [lia|].
           exists st'. split; [exact E | lia].
        -- apply IHfail. lia.
      * cbn [bind]. split; intros; [lia | reflexivity].
    + cbn [bind]. subst total. rewrite extra_slots_step by lia.
      match goal with |- context [Makerom.chunk_loop n _ _ _ ?s ?a ?e ?f ?b] =>
        specialize (IH name type buffer s a e f b)
      end.
      cbn [Makerom.currentDirectory] in IH.
      apply IH; lia.
Qed.

Lemma chunk_loop_frame (n : nat) :
  forall name type buffer st ai nle fao bo st',
    zlen (Makerom.directory st) = 1024 ->
    1 <= Makerom.currentDirectory st <= 31 -> 0 <= ai <= 16 ->
    Makerom.chunk_loop n name type buffer st ai nle fao bo = Ok st' ->
    frame (Makerom.directory st) (Makerom.directory st')
    /\ Makerom.currentDirectory st <= Makerom.currentDirectory st' <= 31.
Proof.
  induction n as [|n IH]; intros name type buffer st ai nle fao bo st' Hl Hcd Hai E.
  - simpl in E. injection E as <-. split; [apply frame_refl | lia].
  - cbn [Makerom.chunk_loop] in E.
    unfold sizeof_DirEntry, Ent.record_count, Ent.allocation_map in E.
    destruct (Z.geb_spec ai 16) as [Hfull|Hroom].
    + rewrite bump_directory_spec in E by lia.
      destruct (Z.leb_spec (Makerom.currentDirectory st + 1) 31) as [Hle|Hgt];
        cbn [bind] in E; [|discriminate].
      cbn [Makerom.directory Makerom.currentDirectory Makerom.file_area
             Makerom.nextAllocation] in E.
      pose proof (frame_reserve_entry (Makerom.directory st)
                    (Makerom.currentDirectory st + 1) name type nle Hl ltac:(lia))
        as F0.
      set (d0 := Makerom.reserve_entry _ _ _ _ _) in *.
      set (cd := Makerom.currentDirectory st + 1) in *.
      destruct (F0) as [L0 _].
      assert (F1 : frame d0 (store d0 (cd * 32 + 15)
                    (byte_of_Z (Z_of_byte (load d0 (cd * 32 + 15)) + 1024 / 128))))
        by (apply frame_store; lia).
      destruct (F1) as [L1 _].
      set (d1 := store d0 (cd * 32 + 15) _) in *.
      assert (F2 : frame d1 (store d1 (cd * 32 + 16 + 0)
                               (byte_of_Z (Makerom.nextAllocation st))))
        by (apply frame_store; lia).
      destruct (F2) as [L2 _].
      apply IH in E; cbn [Makerom.directory Makerom.currentDirectory];
        try lia.
      cbn [Makerom.directory Makerom.currentDirectory] in E.
      destruct E as [F3 C]. split; [|lia].
      eapply frame_trans; [exact F0|].
      eapply frame_trans; [exact F1|].
      eapply frame_trans; [exact F2|exact F3].
    + cbn [bind] in E.
      set (d0 := Makerom.directory st) in *.
      set (cd := Makerom.currentDirectory st) in *.
      assert (F1 : frame d0 (store d0 (cd * 32 + 15)
                    (byte_of_Z (Z_of_byte (load d0 (cd * 32 + 15)) + 1024 / 128))))
        by (apply frame_store; lia).
      destruct (F1) as [L1 _].
      set (d1 := store d0 (cd * 32 + 15) _) in *.
      assert (F2 : frame d1 (store d1 (cd * 32 + 16 + ai)
                               (byte_of_Z (Makerom.nextAllocation st))))
        by (apply frame_store; lia).
      destruct (F2) as [L2 _].
      apply IH in E; cbn [Makerom.directory Makerom.currentDirectory];
        try lia.
      cbn [Makerom.directory Makerom.currentDirectory] in E.
      destruct E as [F3 C]. split; [|lia].
      eapply frame_trans; [exact F1|].
      eapply frame_trans; [exact F2|exact F3].
Qed.

(** ** The file area after the chunk loop *)

Lemma chunk_loop_file_area (n : nat) :
  forall name type buffer st ai nle fao bo st' pre rest,
    Makerom.file_area st = pre ++ rest ->
    fao = zlen pre -> zlen rest = 1024 * Z.of_nat n ->
    0 <= bo -> bo + 1024 * Z.of_nat n = zlen buffer ->
    Makerom.chunk_loop n name type buffer st ai nle fao bo = Ok st' ->
    Makerom.file_area st' = pre ++ skipn (Z.to_nat bo) buffer.
Proof.
  induction n as [|n IH];
    intros name type buffer st ai nle fao bo st' pre rest Hfa Hfao Hrest Hbo Hbuf E.
  - simpl in E. injection E as <-. rewrite Hfa.
    assert (rest = []) as ->
      by (destruct rest; [reflexivity | unfold zlen in Hrest; simpl in Hrest; lia]).
    rewrite skipn_all2 by (unfold zlen in Hbuf; lia). reflexivity.
  - cbn [Makerom.chunk_loop] in E.
    assert (Hchunk : zlen (sub buffer bo 1024) = 1024) by (apply zlen_sub; lia).
    assert (Hnext : forall s a e,
              Makerom.file_area s = pre ++ rest ->
              Makerom.chunk_loop n name type buffer
                (Makerom.mkPack
                   (store (store (Makerom.directory s)
                      (Makerom.currentDirectory s * sizeof_DirEntry + Ent.record_count)
                      (byte_of_Z (Z_of_byte (load (Makerom.directory s)
                         (Makerom.currentDirectory s * sizeof_DirEntry + Ent.record_count))
                         + 1024 / 128)))
                      (Makerom.currentDirectory s * sizeof_DirEntry
                       + Ent.allocation_map + a)
                      (byte_of_Z (Makerom.nextAllocation s)))
                   (memcpy (Makerom.file_area s) fao (sub buffer bo 1024))
                   (Makerom.currentDirectory s)
                   (u8 (Makerom.nextAllocation s + 1)))
                (a + 1) e (fao + 1024) (bo + 1024) = Ok st' ->
              Makerom.file_area st' = pre ++ skipn (Z.to_nat bo) buffer).
    { intros s a e Hs E'.
      rewrite Hs, memcpy_app in E' by assumption.
      eapply (IH _ _ _ _ _ _ _ _ _ (pre ++ sub buffer bo 1024)) in E'.
      - rewrite E', <- app_assoc. f_equal.
        unfold sub. rewrite <- (firstn_skipn (Z.to_nat 1024) (skipn (Z.to_nat bo) buffer)) at 2.
        f_equal. rewrite skipn_skipn. f_equal. lia.
      - cbn [Makerom.file_area]. rewrite <- app_assoc. reflexivity.
      - rewrite zlen_app. lia.
      - unfold zlen in *. rewrite length_skipn. lia.
      - lia.
      - lia. }
    destruct (ai >=? 16).
    + destruct (Makerom.bump_directory (Makerom.currentDirectory st));
        cbn [bind] in E; try discriminate.
      eapply Hnext; [|exact E]. exact Hfa.
    + cbn [bind] in E. eapply Hnext; [|exact E]. exact Hfa.
Qed.

(** ** One input file *)

Lemma chunks_of_bounds (len : Z) :
  0 <= len ->
  len <= Makerom.chunks_of len * 1024 < len + 1024 /\ 0 <= Makerom.chunks_of len.
Proof.
  intros H. unfold Makerom.chunks_of. Z.div_mod_to_equations. lia.
Qed.

Lemma resize_grow (buf : list byte) (n : Z) :
  0 <= n -> resize buf (zlen buf + n) = buf ++ repeat x00 (Z.to_nat n).
Proof.
  intros Hn. unfold resize.
  destruct (Z.leb_spec (zlen buf + n) (zlen buf)) as [Hle|Hgt].
  - assert (n = 0) as -> by lia. rewrite Z.add_0_r.
    unfold zlen. rewrite Nat2Z.id, firstn_all. simpl. symmetry. apply app_nil_r.
  - do 2 f_equal. lia.
Qed.

Lemma pad_buffer_spec (contents : list byte) :
  Makerom.pad_buffer contents =
    contents ++ repeat x00
      (Z.to_nat (Makerom.chunks_of (zlen contents) * 1024 - zlen contents)).
Proof.
  unfold Makerom.pad_buffer.
  pose proof (chunks_of_bounds (zlen contents) (zlen_nonneg _)) as [Hb _].
  set (c := Makerom.chunks_of (zlen contents)) in *.
  destruct (Z.ltb_spec (zlen contents) (c * 1024)) as [Hlt|Hge].
  - rewrite resize_grow by lia.
    unfold memset. change (Z.to_nat 0) with O. simpl repeat. apply memcpy_nil.
  - replace (c * 1024 - zlen contents) with 0 by lia.
    simpl. symmetry. apply app_nil_r.
Qed.

Lemma zlen_pad_buffer (contents : list byte) :
  zlen (Makerom.pad_buffer contents) = Makerom.chunks_of (zlen contents) * 1024.
Proof.
  rewrite pad_buffer_spec, zlen_app, zlen_repeat.
  pose proof (chunks_of_bounds (zlen contents) (zlen_nonneg _)). lia.
Qed.

Lemma process_file_file_area (h : host) (path : string) (contents : list byte)
    (st st' : Makerom.pack_state) :
  read_file h path = Some contents ->
  Makerom.process_file h path st = Ok st' ->
  Makerom.file_area st' = Makerom.file_area st ++ Makerom.pad_buffer contents.
Proof.
  intros Hr E. unfold Makerom.process_file in E. rewrite Hr in E.
  destruct (Makerom.bump_directory (Makerom.currentDirectory st)) as [cd| | | | |];
    cbn [bind] in E; try discriminate.
  destruct (Makerom.split_file_name path) as [[name type]| | | | |];
    cbn [bind] in E; try discriminate.
  pose proof (chunks_of_bounds (zlen contents) (zlen_nonneg _)) as [Hb Hc].
  rewrite resize_grow in E by lia.
  eapply chunk_loop_file_area in E.
  - rewrite E. reflexivity.
  - reflexivity.
  - reflexivity.
  - rewrite zlen_repeat. lia.
  - lia.
  - rewrite zlen_pad_buffer. lia.
Qed.

Lemma process_file_frame (h : host) (path : string)
    (st st' : Makerom.pack_state) :
  zlen (Makerom.directory st) = 1024 ->
  0 <= Makerom.currentDirectory st <= 31 ->
  Makerom.process_file h path st = Ok st' ->
  frame (Makerom.directory st) (Makerom.directory st')
  /\ 1 <= Makerom.currentDirectory st' <= 31.
Proof.
  intros Hl Hcd E. unfold Makerom.process_file in E.
  rewrite bump_directory_spec in E by assumption.
  destruct (Z.leb_spec (Makerom.currentDirectory st + 1) 31) as [Hle|Hgt];
    cbn [bind] in E; try discriminate.
  destruct (read_file h path) as [contents|]; try discriminate.
  destruct (Makerom.split_file_name path) as [[name type]| | | | |];
    cbn [bind] in E; try discriminate.
  pose proof (frame_reserve_entry (Makerom.directory st)
                (Makerom.currentDirectory st + 1) name type 0 Hl ltac:(lia)) as F0.
  apply chunk_loop_frame in E;
    cbn [Makerom.directory Makerom.currentDirectory] in *; try lia.
  - destruct E as [F1 C]. split; [|lia].
    eapply frame_trans; [exact F0 | exact F1].
  - destruct F0 as [L0 _]. lia.
Qed.

Lemma slots_of_extra (len : Z) :
  0 <= len ->
  slots_of len = 1 + extra_slots 0 (Z.to_nat (Makerom.chunks_of len)).
Proof.
  intros H. unfold slots_of, extra_slots.
  pose proof (chunks_of_bounds len H) as [_ Hc].
  destruct (Z.to_nat (Makerom.chunks_of len)) as [|n] eqn:E.
  - assert (Makerom.chunks_of len = 0) as -> by lia. reflexivity.
  - replace (Z.of_nat (S n)) with (Makerom.chunks_of len) by lia.
    assert (1 <= Makerom.chunks_of len) by lia.
    Z.div_mod_to_equations. lia.
Qed.

Lemma slots_for_pos (h : host) (path : string) : 1 <= slots_for h path.
Proof.
  unfold slots_for, slots_of. destruct (read_file h path); lia.
Qed.

Lemma split_file_name_cases (full : string) :
  (exists nt, Makerom.split_file_name full = Ok nt)
  \/ Makerom.split_file_name full = Makerom.bad_name full.
Proof.
  unfold Makerom.split_file_name.
  destruct (Makerom.find_last_of "."%char full) as [pos|]; [|right; reflexivity].
  match goal with |- context [if ?c then _ else _] => destruct c end;
    [right; reflexivity | left; eexists; reflexivity].
Qed.

Lemma process_file_slots (h : host) (path : string) (st : Makerom.pack_state) :
  0 <= Makerom.currentDirectory st <= 31 ->
  let total := Makerom.currentDirectory st + slots_for h path in
  (Makerom.process_file h path st = OutOfDirectorySpace -> 31 < total) /\
  (forall st', Makerom.process_file h path st = Ok st' ->
               Makerom.currentDirectory st' = total /\ total <= 31) /\
  (input_ok h path = true -> total <= 31 ->
     exists st', Makerom.process_file h path st = Ok st') /\
  (input_ok h path = true -> 31 < total ->
     Makerom.process_file h path st = OutOfDirectorySpace).
Proof.
  intros Hcd total. subst total.
  pose proof (slots_for_pos h path) as Hpos.
  unfold Makerom.process_file, slots_for, input_ok in *.
  rewrite bump_directory_spec by assumption.
  destruct (Z.leb_spec (Makerom.currentDirectory st + 1) 31) as [Hle|Hgt];
    cbn [bind].
  2:{ split; [intros _; lia|]. split; [discriminate|].
      split; intros; [lia | reflexivity]. }
  destruct (read_file h path) as [contents|].
  2:{ split; [discriminate|]. split; [discriminate|].
      split; intros; discriminate. }
  destruct (split_file_name_cases path) as [[[name type] Es]|Es]; rewrite Es;
    cbn [bind Makerom.bad_name].
  2:{ split; [discriminate|]. split; [discriminate|].
      split; intros; discriminate. }
  rewrite slots_of_extra in * by apply zlen_nonneg.
  match goal with |- context [Makerom.chunk_loop ?n ?a ?b ?c ?s ?i ?e ?f ?o] =>
    pose proof (chunk_loop_slots n a b c s i e f o ltac:(lia)) as L;
    cbn [Makerom.currentDirectory] in L;
    specialize (L ltac:(lia)); cbv zeta in L; destruct L as [Lok Lfail];
    destruct (Z.le_gt_cases
                (Makerom.currentDirectory st + 1 + extra_slots 0 n) 31) as [Hfit|Hover]
  end.
  - destruct (Lok Hfit) as (st1 & E1 & C1). rewrite E1.
    split; [discriminate|]. split; [|split].
    + intros st' E. injection E as <-. lia.
    + intros _ _. exists st1. reflexivity.
    + intros _ Hc. lia.
  - rewrite (Lfail ltac:(lia)).
    split; [intros _; lia|]. split; [|split].
    + intros st' E. discriminate.
    + intros _ Hc. lia.
    + intros _ _. reflexivity.
Qed.

(** ** The loop over the input files *)

Lemma slots_needed_nonneg (h : host) (files : list string) :
  0 <= slots_needed h files.
Proof.
  induction files as [|p r IH]; simpl; [lia|].
  pose proof (slots_for_pos h p). lia.
Qed.

(** The input file is fine, yet [process_file] ended neither normally nor
    for lack of directory space: impossible by [process_file_slots]. *)
Ltac stopped_otherwise P3 P4 :=
  split; [discriminate|]; split; [discriminate|];
  split; intros Hok Hc; apply andb_true_iff in Hok as [Hok _];
  match type of P3 with
  | _ -> ?total <= 31 -> _ =>
      destruct (Z.le_gt_cases total 31) as [Hfit|Hover];
      [destruct (P3 Hok Hfit) as (st' & E'); discriminate
      |specialize (P4 Hok Hover); discriminate]
  end.

Lemma place_files_slots (h : host) (files : list string) :
  forall st,
    0 <= Makerom.currentDirectory st <= 31 ->
    let total := Makerom.currentDirectory st + slots_needed h files in
    (Makerom.place_files h files st = OutOfDirectorySpace -> 31 < total) /\
    (forall st', Makerom.place_files h files st = Ok st' ->
                 Makerom.currentDirectory st' = total /\ total <= 31) /\
    (forallb (input_ok h) files = true -> total <= 31 ->
       exists st', Makerom.place_files h files st = Ok st') /\
    (forallb (input_ok h) files = true -> 31 < total ->
       Makerom.place_files h files st = OutOfDirectorySpace).
Proof.
  induction files as [|p r IH]; intros st Hcd total; subst total.
  - simpl. split; [discriminate|]. split; [|split].
    + intros st' E. injection E as <-. lia.
    + intros _ _. exists st. reflexivity.
    + intros _ Hc. lia.
  - cbn [Makerom.place_files slots_needed forallb].
    pose proof (slots_needed_nonneg h r) as Hr.
    pose proof (slots_for_pos h p) as Hp.
    destruct (process_file_slots h p st Hcd) as (P1 & P2 & P3 & P4).
    destruct (Makerom.process_file h p st) as [st1| | | | |] eqn:E1; cbn [bind].
    + destruct (P2 st1 eq_refl) as [C1 B1].
      destruct (IH st1 ltac:(lia)) as (I1 & I2 & I3 & I4).
      split; [intros E; specialize (I1 E); lia|]. split; [|split].
      * intros st' E. destruct (I2 st' E). lia.
      * intros Hok Hc. apply andb_true_iff in Hok as [_ Hok].
        apply I3; [exact Hok | lia].
      * intros Hok Hc. apply andb_true_iff in Hok as [_ Hok].
        apply I4; [exact Hok | lia].
    + split; [intros E; specialize (P1 E); lia|]. split; [discriminate|].
      split.
      * intros Hok Hc. apply andb_true_iff in Hok as [Hok _].
        destruct (P3 Hok ltac:(lia)) as (st' & E'). discriminate.
      * intros Hok Hc. apply andb_true_iff in Hok as [Hok _].
        destruct (Z.le_gt_cases (Makerom.currentDirectory st + slots_for h p) 31)
          as [Hfit|Hover].
        -- destruct (P3 Hok Hfit) as (st' & E'). discriminate.
        -- exact (P4 Hok Hover).
    + stopped_otherwise P3 P4.
    + stopped_otherwise P3 P4.
    + stopped_otherwise P3 P4.
    + stopped_otherwise P3 P4.
Qed.

Lemma place_files_frame (h : host) (files : list string) :
  forall st st',
    zlen (Makerom.directory st) = 1024 ->
    0 <= Makerom.currentDirectory st <= 31 ->
    Makerom.place_files h files st = Ok st' ->
    frame (Makerom.directory st) (Makerom.directory st')
    /\ 0 <= Makerom.currentDirectory st' <= 31
    /\ (files <> [] -> 1 <= Makerom.currentDirectory st').
Proof.
  induction files as [|p r IH]; intros st st' Hl Hcd E.
  - simpl in E. injection E as <-.
    split; [apply frame_refl|]. split; [lia | congruence].
  - cbn [Makerom.place_files] in E.
    destruct (Makerom.process_file h p st) as [st1| | | | |] eqn:E1;
      cbn [bind] in E; try discriminate.
    destruct (process_file_frame h p st st1 Hl Hcd E1) as [F1 C1].
    destruct (place_files_slots h r st1 ltac:(lia)) as (_ & S2 & _).
    destruct (S2 st' E) as [C2 B2].
    pose proof (slots_needed_nonneg h r).
    destruct (IH st1 st' ltac:(destruct F1; lia) ltac:(lia) E) as (F2 & C3 & _).
    split; [eapply frame_trans; eassumption|].
    split; [lia | intros _; lia].
Qed.

Lemma place_files_file_area (h : host) (files : list string) :
  forall st st',
    Makerom.place_files h files st = Ok st' ->
    Makerom.file_area st' = Makerom.file_area st ++ padded_inputs h files.
Proof.
  induction files as [|p r IH]; intros st st' E.
  - simpl in E. injection E as <-. simpl. symmetry. apply app_nil_r.
  - cbn [Makerom.place_files] in E.
    destruct (Makerom.process_file h p st) as [st1| | | | |] eqn:E1;
      cbn [bind] in E; try discriminate.
    cbn [padded_inputs].
    destruct (read_file h p) as [contents|] eqn:Er.
    + rewrite (IH _ _ E), (process_file_file_area h p contents st st1 Er E1).
      apply eq_sym, app_assoc.
    + unfold Makerom.process_file in E1. rewrite Er in E1.
      destruct (Makerom.bump_directory (Makerom.currentDirectory st));
        discriminate.
Qed.

Lemma chunk_loop_alloc (n : nat) :
  forall name type buffer st ai nle fao bo st',
    Makerom.chunk_loop n name type buffer st ai nle fao bo = Ok st' ->
    Makerom.nextAllocation st' = (Makerom.nextAllocation st + Z.of_nat n) mod 256
    \/ (n = O /\ Makerom.nextAllocation st' = Makerom.nextAllocation st).
Proof.
  induction n as [|n IH]; intros name type buffer st ai nle fao bo st' E.
  - simpl in E. injection E as <-. right. split; reflexivity.
  - left. cbn [Makerom.chunk_loop] in E.
    assert (Hgoal : forall s a e d f,
              Makerom.nextAllocation s = Makerom.nextAllocation st ->
              Makerom.chunk_loop n name type buffer
                (Makerom.mkPack d f (Makerom.currentDirectory s)
                   (u8 (Makerom.nextAllocation s + 1)))
                a e (fao + 1024) (bo + 1024) = Ok st' ->
              Makerom.nextAllocation st'
              = (Makerom.nextAllocation st + Z.of_nat (S n)) mod 256).
    { intros s a e d f Hs E'. apply IH in E'.
      cbn [Makerom.nextAllocation] in E'. unfold u8 in E'. rewrite Hs in E'.
      destruct E' as [E'|[-> E']]; rewrite E'.
      - rewrite Zplus_mod_idemp_l. f_equal. lia.
      - f_equal. }
    destruct (ai >=? 16).
    + destruct (Makerom.bump_directory (Makerom.currentDirectory st));
        cbn [bind] in E; try discriminate.
      eapply Hgoal; [|exact E]. reflexivity.
    + cbn [bind] in E. eapply Hgoal; [|exact E]. reflexivity.
Qed.

(** ** Finalising the header and serialising *)

Lemma finalise_header_spec (st : Makerom.pack_state) :
  zlen (Makerom.directory st) = 1024 ->
  let d := Makerom.finalise_header st in
  let checksum := u16 (zlen (Makerom.file_area st)) in
  zlen d = 1024
  /\ load d Hdr.dir_entries
     = byte_of_Z (((Makerom.currentDirectory st + 3) / 4) * 4)
  /\ load d 3 = byte_of_Z (Z.land checksum 0xff)
  /\ load d 4 = byte_of_Z (Z.land (Z.shiftr checksum 8) 0xff)
  /\ (forall i, 0 <= i < 3 -> load d i = load (Makerom.directory st) i).
Proof.
  intros Hl d checksum. subst d checksum. unfold Makerom.finalise_header.
  unfold Hdr.dir_entries, Hdr.checksum.
  set (d0 := Makerom.directory st) in *.
  set (d1 := store d0 22 _).
  assert (L1 : zlen d1 = 1024) by (subst d1; rewrite zlen_store; lia).
  set (d2 := store d1 (3 + 0) _).
  assert (L2 : zlen d2 = 1024) by (subst d2; rewrite zlen_store; lia).
  set (d3 := store d2 (3 + 1) _).
  assert (L3 : zlen d3 = 1024) by (subst d3; rewrite zlen_store; lia).
  split; [exact L3|]. split; [|split; [|split]].
  - subst d3. rewrite load_store_other by lia.
    subst d2. rewrite load_store_other by lia.
    subst d1. apply load_store_same. lia.
  - subst d3. rewrite load_store_other by lia.
    subst d2. apply (load_store_same d1 (3 + 0)). lia.
  - subst d3. apply (load_store_same d2 (3 + 1)). lia.
  - intros i Hi.
    subst d3. rewrite load_store_other by lia.
    subst d2. rewrite load_store_other by lia.
    subst d1. apply load_store_other; lia.
Qed.

Lemma sub_memcpy_same (dst : list byte) (off : Z) (src : list byte) :
  0 <= off <= zlen dst -> sub (memcpy dst off src) off (zlen src) = src.
Proof.
  intros H. unfold sub, memcpy, zlen in *.
  rewrite skipn_app, length_firstn.
  replace (Nat.min (Z.to_nat off) (List.length dst)) with (Z.to_nat off) by lia.
  rewrite skipn_all2 by (rewrite length_firstn; lia).
  rewrite Nat.sub_diag. simpl.
  rewrite Nat2Z.id, firstn_app, firstn_all, Nat.sub_diag. simpl.
  apply app_nil_r.
Qed.

Lemma Ok_inj {A : Type} (a b : A) : Ok a = Ok b -> a = b.
Proof. intros H. injection H as H. exact H. Qed.

(** The two copies into the blank image. *)
Lemma serialise_copies (rom0 dir fa : list byte) (off : Z) :
  zlen rom0 = 0x8000 -> zlen dir = 1024 -> 0 <= off <= 1024 ->
  off + zlen fa <= 0x8000 ->
  let rom := memcpy (memcpy rom0 0 (sub dir 0 off)) off fa in
  zlen rom = 0x8000
  /\ (forall i, 0 <= i < off -> load rom i = load dir i)
  /\ sub rom off (zlen fa) = fa.
Proof.
  intros L0 Hl Hoff Hfit rom. subst rom.
  pose proof (zlen_nonneg fa) as Hfa.
  assert (Ls : zlen (sub dir 0 off) = off) by (apply zlen_sub; lia).
  assert (L1 : zlen (memcpy rom0 0 (sub dir 0 off)) = 0x8000)
    by (rewrite zlen_memcpy; lia).
  split; [rewrite zlen_memcpy; lia|]. split.
  - intros i Hi.
    rewrite load_memcpy_out by lia.
    rewrite load_memcpy_in by lia.
    rewrite Z.sub_0_r. rewrite load_sub by lia. reflexivity.
  - apply sub_memcpy_same. lia.
Qed.

Lemma serialise_spec (dir fa rom : list byte) :
  zlen dir = 1024 ->
  Z_of_byte (load dir Hdr.dir_entries) <= 32 ->
  Makerom.serialise dir fa = Ok rom ->
  let off := Z_of_byte (load dir Hdr.dir_entries) * sizeof_DirEntry in
  zlen rom = 0x8000
  /\ off + zlen fa <= 0x8000
  /\ (forall i, 0 <= i < off -> load rom i = load dir i)
  /\ sub rom off (zlen fa) = fa.
Proof.
  intros Hl Hde E off. unfold Makerom.serialise in E. fold off in E.
  pose proof (Z_of_byte_range (load dir Hdr.dir_entries)) as Hr.
  unfold Makerom.romSize in E.
  destruct (Z.gtb_spec (off + zlen fa) 0x8000) as [Hbig|Hfit]; [discriminate|].
  apply Ok_inj in E. subst rom.
  assert (Hoff : 0 <= off <= 1024) by (subst off; unfold sizeof_DirEntry; lia).
  destruct (serialise_copies (repeat xff (Z.to_nat 0x8000)) dir fa off)
    as (R1 & R2 & R3); try assumption.
  - apply zlen_repeat.
  - split; [exact R1|]. split; [exact Hfit|]. split; assumption.
Qed.

(** ** The whole packer *)

Lemma main_steps (h : host) (argv : list string) :
  2 <= zlen argv ->
  read_file h (nth 1 argv EmptyString) = None ->
  Makerom.main h argv =
    (st <- Makerom.pack h (nth 1 argv EmptyString) (skipn 2 argv) ;;
     rom <- Makerom.serialise (Makerom.finalise_header st) (Makerom.file_area st) ;;
     if can_write h (nth 1 argv EmptyString)
     then
       if write_ok h (nth 1 argv EmptyString)
            (Makerom.address_swap (Makerom.finalise_header st) rom)
       then Ok (Makerom.address_swap (Makerom.finalise_header st) rom)
       else Fatal "Failed to write to ouput file."
              (Some (nth 1 argv EmptyString))
     else Fatal "Failed to open output file for writing."
            (Some (nth 1 argv EmptyString))).
Proof.
  intros Hn Hr. unfold Makerom.main.
  destruct (Z.ltb_spec (zlen argv) 2) as [Hlt|_]; [lia|].
  rewrite Hr. reflexivity.
Qed.

(** After the loop: the directory has its size, the header slot is the
    initial one, and the slot counter is in range. *)
Lemma pack_state_ok (h : host) (outName : string) (files : list string)
    (st : Makerom.pack_state) :
  Makerom.pack h outName files = Ok st ->
  zlen (Makerom.directory st) = 1024
  /\ load (Makerom.directory st) 0 = xe5
  /\ load (Makerom.directory st) 1 = x37
  /\ load (Makerom.directory st) 2 = x20
  /\ Makerom.currentDirectory st = slots_needed h files
  /\ 0 <= Makerom.currentDirectory st <= 31
  /\ (files <> [] -> 1 <= Makerom.currentDirectory st)
  /\ Makerom.file_area st = padded_inputs h files.
Proof.
  intros E. unfold Makerom.pack in E.
  destruct (init_state_ok outName) as (L0 & I0 & I1 & I2 & C0 & A0).
  set (st0 := Makerom.init_state outName) in *.
  destruct (place_files_frame h files st0 st L0 ltac:(lia) E) as ([L H] & C & P).
  destruct (place_files_slots h files st0 ltac:(lia)) as (_ & S2 & _).
  destruct (S2 st E) as [C2 _].
  pose proof (place_files_file_area h files _ _ E) as A.
  rewrite A0 in A. rewrite !H by lia.
  split; [lia|]. split; [exact I0|]. split; [exact I1|]. split; [exact I2|].
  split; [lia|]. split; [exact C|]. split; [exact P | exact A].
Qed.

Lemma load_repeat (x : byte) (n : nat) (i : Z) :
  0 <= i < Z.of_nat n -> load (repeat x n) i = x.
Proof.
  intros H. unfold load.
  apply (repeat_spec n x). apply nth_In. rewrite repeat_length. lia.
Qed.

Lemma dir_entries_value (st : Makerom.pack_state) :
  zlen (Makerom.directory st) = 1024 ->
  0 <= Makerom.currentDirectory st <= 31 ->
  Z_of_byte (load (Makerom.finalise_header st) Hdr.dir_entries)
  = round_up_4 (Makerom.currentDirectory st).
Proof.
  intros Hl Hcd.
  destruct (finalise_header_spec st Hl) as (_ & D & _).
  rewrite D, Z_of_byte_of_Z. unfold round_up_4.
  apply Z.mod_small. Z.div_mod_to_equations. lia.
Qed.

(** The capacity byte is the one of a 27256 whatever the files: the
    address conversion is always the half exchange. *)
Lemma address_swap_packed (h : host) (outName : string) (files : list string)
    (st : Makerom.pack_state) (rom : list byte) :
  Makerom.pack h outName files = Ok st ->
  Makerom.address_swap (Makerom.finalise_header st) rom = swap_halves rom.
Proof.
  intros Ep.
  destruct (pack_state_ok _ _ _ _ Ep) as (L & _ & _ & I2 & _).
  destruct (finalise_header_spec st L) as (_ & _ & _ & _ & H').
  unfold Makerom.address_swap.
  rewrite (H' Hdr.capacity) by (unfold Hdr.capacity; lia).
  unfold Hdr.capacity. rewrite I2. reflexivity.
Qed.

(** A successful run, step by step: the loop, the header, the image, the
    address conversion. *)
Lemma main_ok_inv (h : host) (argv : list string) (image : list byte) :
  Makerom.main h argv = Ok image ->
  exists st rom,
    2 <= zlen argv
    /\ Makerom.pack h (nth 1 argv EmptyString) (skipn 2 argv) = Ok st
    /\ Makerom.serialise (Makerom.finalise_header st) (Makerom.file_area st) = Ok rom
    /\ zlen rom = 0x8000
    /\ image = swap_halves rom.
Proof.
  intros E. unfold Makerom.main in E.
  destruct (Z.ltb_spec (zlen argv) 2) as [Hlt|Hge]; [discriminate|].
  destruct (read_file h (nth 1 argv EmptyString)); [discriminate|].
  destruct (Makerom.pack h (nth 1 argv EmptyString) (skipn 2 argv))
    as [st| | | | |] eqn:Ep; cbn [bind] in E; try discriminate.
  destruct (Makerom.serialise (Makerom.finalise_header st) (Makerom.file_area st))
    as [rom| | | | |] eqn:Es; cbn [bind] in E; try discriminate.
  destruct (can_write h (nth 1 argv EmptyString)); [|discriminate].
  destruct (write_ok h (nth 1 argv EmptyString) _); [|discriminate].
  apply Ok_inj in E.
  destruct (pack_state_ok _ _ _ _ Ep) as (L & _ & _ & I2 & _ & C & _).
  destruct (finalise_header_spec st L) as (L' & _ & _ & _ & H').
  pose proof (dir_entries_value st L C) as D.
  assert (Hde : Z_of_byte (load (Makerom.finalise_header st) Hdr.dir_entries) <= 32)
    by (rewrite D; unfold round_up_4; Z.div_mod_to_equations; lia).
  destruct (serialise_spec _ _ _ L' Hde Es) as (Lr & _).
  exists st, rom. repeat (split; [first [assumption | reflexivity]|]).
  subst image. unfold Makerom.address_swap.
  rewrite (H' Hdr.capacity) by (unfold Hdr.capacity; lia).
  unfold Hdr.capacity. rewrite I2. reflexivity.
Qed.

(** ** No input files *)

Lemma finalise_no_inputs (outName : string) :
  load (Makerom.finalise_header (Makerom.init_state outName)) Hdr.dir_entries = x00.
Proof.
  destruct (init_state_ok outName) as (L0 & _ & _ & _ & C0 & _).
  destruct (finalise_header_spec _ L0) as (_ & D & _).
  rewrite D, C0. reflexivity.
Qed.

(** With no file placed no byte of the directory is copied. *)
Lemma serialise_no_inputs (outName : string) :
  Makerom.serialise (Makerom.finalise_header (Makerom.init_state outName))
    (Makerom.file_area (Makerom.init_state outName))
  = Ok (repeat xff (Z.to_nat 0x8000)).
Proof.
  destruct (init_state_ok outName) as (_ & _ & _ & _ & _ & A0).
  unfold Makerom.serialise.
  rewrite finalise_no_inputs, A0.
  change (Z_of_byte x00 * sizeof_DirEntry) with 0.
  change (0 + zlen [] >? Makerom.romSize) with false.
  cbv iota. rewrite sub_zero_length, !memcpy_nil.
  unfold Makerom.romSize. reflexivity.
Qed.

Lemma main_no_inputs (h : host) (prog outName : string) :
  read_file h outName = None -> can_write h outName = true ->
  write_ok h outName (repeat xff (Z.to_nat 0x8000)) = true ->
  Makerom.main h [prog; outName] = Ok (repeat xff (Z.to_nat 0x8000)).
Proof.
  intros Hr Hw Hs.
  rewrite main_steps by (try exact Hr; unfold zlen; simpl; lia).
  cbn [nth skipn]. rewrite Hw.
  unfold Makerom.pack. cbn [Makerom.place_files bind].
  rewrite serialise_no_inputs. cbn [bind].
  assert (W : Makerom.address_swap
                (Makerom.finalise_header (Makerom.init_state outName))
                (repeat xff (Z.to_nat 0x8000))
              = repeat xff (Z.to_nat 0x8000)).
  { unfold Makerom.address_swap.
    destruct (Byte.eqb _ _); [apply swap_halves_repeat | reflexivity]. }
  rewrite W, Hs. reflexivity.
Qed.

(** ** Claims about the packer *)

Lemma serialise_cases (dir fa : list byte) :
  Makerom.serialise dir fa = Fatal "Out of ROM space." None
  \/ exists rom, Makerom.serialise dir fa = Ok rom.
Proof.
  unfold Makerom.serialise.
  match goal with |- context [if ?c then _ else _] => destruct c end;
    [left | right; eexists]; reflexivity.
Qed.

Lemma main_out_of_directory_iff (h : host) (prog outName : string)
    (files : list string) :
  read_file h outName = None ->
  (Makerom.main h (prog :: outName :: files) = OutOfDirectorySpace
   <-> Makerom.place_files h files (Makerom.init_state outName)
       = OutOfDirectorySpace).
Proof.
  intros Hr.
  rewrite main_steps by (try exact Hr; unfold zlen; cbn [List.length]; lia).
  cbn [nth skipn]. unfold Makerom.pack.
  destruct (Makerom.place_files h files (Makerom.init_state outName))
    as [st| | | | |]; cbn [bind]; unfold OutOfDirectorySpace;
    try (split; intros E; congruence).
  destruct (serialise_cases (Makerom.finalise_header st) (Makerom.file_area st))
    as [Es|[rom Es]]; rewrite Es; cbn [bind].
  - split; discriminate.
  - destruct (can_write h outName); [|split; discriminate].
    destruct (write_ok h outName _); split; discriminate.
Qed.

Lemma slots_needed_small (h : host) (files : list string) :
  forallb (fun p => match read_file h p with
                    | Some c => zlen c <=? 1024
                    | None => false
                    end) files = true ->
  slots_needed h files = Z.of_nat (List.length files).
Proof.
  induction files as [|p r IH]; intros H; [reflexivity|].
  cbn [forallb] in H. apply andb_true_iff in H as [Hp Hr].
  cbn [slots_needed List.length]. rewrite (IH Hr).
  unfold slots_for. destruct (read_file h p) as [c|]; [|discriminate].
  apply Z.leb_le in Hp. pose proof (zlen_nonneg c).
  unfold slots_of, Makerom.chunks_of.
  Z.div_mod_to_equations. lia.
Qed.

(** C7: with inputs that open and are named 8.3, the packer stops with
    "Out of directory space." exactly when the files need more than 0x1F
    directory slots; inputs needing at most 0x1F slots are never rejected
    for directory space; 32 files of at most 1 KiB each are rejected. *)
Theorem out_of_directory_space_exactly (h : host) (prog outName : string)
    (files : list string) :
  read_file h outName = None ->
  let rejected :=
    Makerom.main h (prog :: outName :: files)
    = Fatal "Out of directory space." None in
  (forallb (input_ok h) files = true ->
     (rejected <-> 0x1F < slots_needed h files))
  /\ (slots_needed h files <= 0x1F -> ~ rejected)
  /\ (forallb (input_ok h) files = true ->
      List.length files = 32%nat ->
      forallb (fun p => match read_file h p with
                        | Some c => zlen c <=? 1024
                        | None => false
                        end) files = true ->
      rejected).
Proof.
  intros Hr rejected. subst rejected.
  pose proof (main_out_of_directory_iff h prog outName files Hr) as M.
  unfold OutOfDirectorySpace in M.
  destruct (init_state_ok outName) as (_ & _ & _ & _ & C0 & _).
  pose proof (place_files_slots h files (Makerom.init_state outName)) as S.
  rewrite C0 in S. destruct (S ltac:(lia)) as (S1 & S2 & S3 & S4).
  unfold OutOfDirectorySpace in *.
  assert (Hiff : forallb (input_ok h) files = true ->
                 (Makerom.main h (prog :: outName :: files)
                  = Fatal "Out of directory space." None
                  <-> 31 < slots_needed h files)).
  { intros Hok. rewrite M. split.
    - intros E. specialize (S1 E). lia.
    - intros Hc. apply S4; [exact Hok | lia]. }
  split; [exact Hiff|]. split.
  - intros Hc E. apply M in E. specialize (S1 E). lia.
  - intros Hok Hlen Hsmall. apply Hiff; [exact Hok|].
    rewrite (slots_needed_small h files Hsmall), Hlen. lia.
Qed.

(** C5: a file whose length is not a multiple of 1024 is appended to the
    file area as [ceil(len / 1024)] chunks: its bytes followed by 0x00 up to
    the chunk boundary, and as many block numbers are consumed. *)
Theorem padding_is_zero_valued (h : host) (path : string)
    (contents : list byte) (st st' : Makerom.pack_state) :
  read_file h path = Some contents ->
  zlen contents mod 1024 <> 0 ->
  Makerom.process_file h path st = Ok st' ->
  let chunks := Makerom.chunks_of (zlen contents) in
  (chunks - 1) * 1024 < zlen contents < chunks * 1024
  /\ Makerom.file_area st'
     = Makerom.file_area st ++ contents
       ++ repeat x00 (Z.to_nat (chunks * 1024 - zlen contents))
  /\ Makerom.nextAllocation st' = (Makerom.nextAllocation st + chunks) mod 256.
Proof.
  intros Hr Hm E chunks. subst chunks.
  pose proof (chunks_of_bounds (zlen contents) (zlen_nonneg _)) as [Hb Hc].
  assert (Hlt : (Makerom.chunks_of (zlen contents) - 1) * 1024 < zlen contents
                < Makerom.chunks_of (zlen contents) * 1024).
  { unfold Makerom.chunks_of in *. Z.div_mod_to_equations. lia. }
  split; [exact Hlt|]. split.
  - rewrite (process_file_file_area h path contents st st' Hr E).
    rewrite pad_buffer_spec. reflexivity.
  - unfold Makerom.process_file in E. rewrite Hr in E.
    destruct (Makerom.bump_directory (Makerom.currentDirectory st)) as [cd| | | | |];
      cbn [bind] in E; try discriminate.
    destruct (Makerom.split_file_name path) as [[name type]| | | | |];
      cbn [bind] in E; try discriminate.
    apply chunk_loop_alloc in E. cbn [Makerom.nextAllocation] in E.
    pose proof (zlen_nonneg contents) as Hn.
    destruct E as [E|[E0 _]]; [|lia].
    rewrite E. f_equal. lia.
Qed.

(** C6: the half exchange of a 0x8000-byte image puts each byte of one
    16 KiB half at the same place in the other half, so it is an involution;
    what the packer writes is the exchange of the image it built, byte
    [i + 0x4000] of that image at [i] and byte [i] at [i + 0x4000]; the
    unpacker exchanges first, exactly when the file has 0x8000 bytes (a file
    of another size is walked as it is); so the unpacker walks the image the
    packer built. *)
Theorem swap_last_on_write_first_on_read :
  (forall rom, zlen rom = 0x8000 -> swap_halves (swap_halves rom) = rom)
  /\ (forall h argv image,
        Makerom.main h argv = Ok image ->
        exists rom,
          Makerom.build_rom h (nth 1 argv EmptyString) (skipn 2 argv) = Ok rom
          /\ zlen image = 0x8000 /\ image = swap_halves rom)
  /\ (forall nd h argv buffer,
        zlen argv = 2 -> read_file h (nth 1 argv EmptyString) = Some buffer ->
        Dumprom.main nd h argv
        = Dumprom.dump_files nd h
            (if zlen buffer =? 0x8000 then swap_halves buffer else buffer))
  /\ (forall nd h h' argv argv' image,
        Makerom.main h argv = Ok image ->
        zlen argv' = 2 -> read_file h' (nth 1 argv' EmptyString) = Some image ->
        exists rom,
          Makerom.build_rom h (nth 1 argv EmptyString) (skipn 2 argv) = Ok rom
          /\ Dumprom.main nd h' argv' = Dumprom.dump_files nd h' rom)
  /\ (forall rom i,
        zlen rom = 0x8000 -> 0 <= i < 0x4000 ->
        load (swap_halves rom) i = load rom (i + 0x4000)
        /\ load (swap_halves rom) (i + 0x4000) = load rom i)
  /\ (forall h argv image,
        Makerom.main h argv = Ok image ->
        exists rom,
          Makerom.build_rom h (nth 1 argv EmptyString) (skipn 2 argv) = Ok rom
          /\ zlen rom = 0x8000
          /\ forall i, 0 <= i < 0x4000 ->
               load image i = load rom (i + 0x4000)
               /\ load image (i + 0x4000) = load rom i)
  /\ (forall nd h argv buffer,
        zlen argv = 2 -> read_file h (nth 1 argv EmptyString) = Some buffer ->
        zlen buffer = 0x8000 ->
        exists rom,
          zlen rom = 0x8000
          /\ (forall i, 0 <= i < 0x4000 ->
                load rom i = load buffer (i + 0x4000)
                /\ load rom (i + 0x4000) = load buffer i)
          /\ Dumprom.main nd h argv = Dumprom.dump_files nd h rom)
  /\ (forall nd h argv buffer,
        zlen argv = 2 -> read_file h (nth 1 argv EmptyString) = Some buffer ->
        zlen buffer <> 0x8000 ->
        Dumprom.main nd h argv = Dumprom.dump_files nd h buffer).
Proof.
  assert (P2 : forall h argv image,
             Makerom.main h argv = Ok image ->
             exists rom,
               Makerom.build_rom h (nth 1 argv EmptyString) (skipn 2 argv) = Ok rom
               /\ zlen rom = 0x8000 /\ image = swap_halves rom).
  { intros h argv image E.
    destruct (main_ok_inv h argv image E) as (st & rom & _ & Ep & Es & Lr & Ei).
    exists rom. unfold Makerom.build_rom. rewrite Ep. cbn [bind].
    split; [exact Es|]. split; assumption. }
  assert (P3 : forall nd h argv buffer,
             zlen argv = 2 -> read_file h (nth 1 argv EmptyString) = Some buffer ->
             Dumprom.main nd h argv
             = Dumprom.dump_files nd h
                 (if zlen buffer =? 0x8000 then swap_halves buffer else buffer)).
  { intros nd h argv buffer Ha Hr. unfold Dumprom.main.
    rewrite Ha, Hr. reflexivity. }
  split; [exact swap_halves_involutive|].
  split.
  { intros h argv image E. destruct (P2 h argv image E) as (rom & Eb & Lr & Ei).
    exists rom. split; [exact Eb|]. split; [|exact Ei].
    subst image. apply zlen_swap_halves. exact Lr. }
  split; [exact P3|].
  split.
  { intros nd h h' argv argv' image E Ha Hr.
    destruct (P2 h argv image E) as (rom & Eb & Lr & Ei).
    exists rom. split; [exact Eb|].
    rewrite (P3 nd h' argv' image Ha Hr).
    assert (Li : zlen image = 0x8000)
      by (subst image; apply zlen_swap_halves; exact Lr).
    rewrite Li. change (0x8000 =? 0x8000) with true. cbv iota.
    subst image. rewrite swap_halves_involutive by exact Lr. reflexivity. }
  split; [exact swap_halves_loads|].
  split.
  { intros h argv image E. destruct (P2 h argv image E) as (rom & Eb & Lr & Ei).
    exists rom. split; [exact Eb|]. split; [exact Lr|].
    intros i Hi. subst image. apply swap_halves_loads; assumption. }
  split.
  { intros nd h argv buffer Ha Hr Hl.
    exists (swap_halves buffer).
    split; [apply zlen_swap_halves; exact Hl|].
    split; [intros i Hi; apply swap_halves_loads; assumption|].
    rewrite (P3 nd h argv buffer Ha Hr), Hl. reflexivity. }
  intros nd h argv buffer Ha Hr Hl.
  rewrite (P3 nd h argv buffer Ha Hr).
  destruct (Z.eqb_spec (zlen buffer) 0x8000) as [E|_]; [contradiction|].
  reflexivity.
Qed.

(** C10: with an output path and no input file (the output absent, and
    opening and writing it succeed) the packer does not stop with the usage
    message.  The directory it has built is the 1024-byte one, with the
    identification bytes in its header and the byte [dir_entries], inside
    the directory, set to 0; so no byte of the directory, not even the
    header, is copied into the image, and the 0x8000 bytes written are all
    0xFF. *)
Theorem no_inputs_all_ff (h : host) (prog outName : string) :
  read_file h outName = None -> can_write h outName = true ->
  write_ok h outName (repeat xff (Z.to_nat 0x8000)) = true ->
  let st := Makerom.init_state outName in
  let dir := Makerom.finalise_header st in
  Makerom.main h [prog; outName] = Ok (repeat xff (Z.to_nat 0x8000))
  /\ zlen (repeat xff (Z.to_nat 0x8000)) = 0x8000
  /\ Makerom.pack h outName [] = Ok st
  /\ load dir Hdr.dir_entries = x00
  /\ sub dir 0 (Z_of_byte (load dir Hdr.dir_entries) * sizeof_DirEntry) = []
  /\ zlen dir = 1024
  /\ load_opt dir Hdr.dir_entries = Some x00
  /\ load_opt dir 0 = Some xe5 /\ load_opt dir 1 = Some x37
  /\ Makerom.serialise dir (Makerom.file_area st)
     = Ok (repeat xff (Z.to_nat 0x8000))
  /\ (forall i, 0 <= i < 0x8000 ->
        load_opt (repeat xff (Z.to_nat 0x8000)) i = Some xff).
Proof.
  intros Hr Hw Hs st dir. subst st dir.
  destruct (init_state_ok outName) as (L0 & I0 & I1 & _).
  destruct (finalise_header_spec _ L0) as (L & _ & _ & _ & F3).
  split; [apply main_no_inputs; assumption|].
  split; [apply zlen_repeat|].
  split; [reflexivity|].
  split; [apply finalise_no_inputs|].
  split; [rewrite finalise_no_inputs; reflexivity|].
  split; [exact L|].
  split.
  { rewrite load_opt_in by (unfold Hdr.dir_entries; lia).
    rewrite finalise_no_inputs. reflexivity. }
  split.
  { rewrite load_opt_in by lia. rewrite (F3 0) by lia. rewrite I0.
    reflexivity. }
  split.
  { rewrite load_opt_in by lia. rewrite (F3 1) by lia. rewrite I1.
    reflexivity. }
  split; [apply serialise_no_inputs|].
  intros i Hi. rewrite load_opt_in by (rewrite zlen_repeat; lia).
  rewrite (load_repeat xff (Z.to_nat 0x8000) i) by lia. reflexivity.
Qed.

(** ** Claims about the unpacker *)

(** When one of the two identification bytes matches, the check at the top
    of [dump_files] lets the image through. *)
Lemma magic_check_passes (nd : bool) (h : host) (rom : list byte)
    (id0 id1 : byte) :
  load_opt rom 0 = Some id0 -> load_opt rom 1 = Some id1 ->
  id0 = xe5 \/ id1 = x37 ->
  Dumprom.dump_files nd h rom =
    (fileBase <- Dumprom.file_area_offset nd rom ;;
     out <- Dumprom.dir_loop Dumprom.loop_fuel nd h rom fileBase 1
              (Dumprom.mkOut [] None) ;;
     Ok (Dumprom.written (Dumprom.close out))).
Proof.
  intros H0 H1 Hid. unfold Dumprom.dump_files, Dumprom.rd.
  change (Hdr.id + 0) with 0. change (Hdr.id + 1) with 1.
  rewrite H0, H1. cbn [of_option bind].
  destruct Hid as [->| ->].
  - reflexivity.
  - destruct (Byte.eqb id0 xe5); reflexivity.
Qed.

(** When both identification bytes differ, the image is refused. *)
Lemma magic_check_refuses (nd : bool) (h : host) (rom : list byte)
    (id0 id1 : byte) :
  load_opt rom 0 = Some id0 -> load_opt rom 1 = Some id1 ->
  id0 <> xe5 -> id1 <> x37 ->
  Dumprom.dump_files nd h rom = Fatal "Not a valid rom file." None.
Proof.
  intros H0 H1 N0 N1. unfold Dumprom.dump_files, Dumprom.rd.
  change (Hdr.id + 0) with 0. change (Hdr.id + 1) with 1.
  rewrite H0, H1. cbn [of_option bind].
  destruct (Byte.eqb id0 xe5) eqn:E0;
    [apply Byte.byte_dec_bl in E0; contradiction|].
  destruct (Byte.eqb id1 x37) eqn:E1;
    [apply Byte.byte_dec_bl in E1; contradiction|].
  reflexivity.
Qed.

(** The walk does visit directory number [dir_entries], and that slot
    starts where the file area starts. *)
Lemma walk_reaches_file_area (fuel : nat) (nd : bool) (h : host)
    (rom : list byte) (de fileBase : Z) (out : Dumprom.ofstream) :
  Dumprom.hdr_dir_entries rom = Ok de ->
  1 <= de <= 0x20 -> de mod 4 = 0 ->
  Dumprom.dir_loop (S fuel) nd h rom fileBase de out
  = (out' <- Dumprom.visit_entry nd h rom fileBase de out ;;
     Dumprom.dir_loop fuel nd h rom fileBase (u8 (de + 1)) out')
  /\ Dumprom.dir_entry_offset nd rom de = Ok (de * sizeof_DirEntry)
  /\ Dumprom.file_area_offset nd rom = Ok (de * sizeof_DirEntry).
Proof.
  intros Hde Hr Hm. cbn [Dumprom.dir_loop].
  unfold Dumprom.dir_entry_offset, Dumprom.file_area_offset, Dumprom.assert.
  rewrite Hde. cbn [bind]. rewrite Z.leb_refl, Hm.
  destruct (Z.geb_spec de 1) as [_|?]; [|lia].
  destruct (Z.geb_spec de 0) as [_|?]; [|lia].
  destruct (Z.leb_spec de 32) as [_|?]; [|lia].
  cbn [andb]. change (0 =? 0) with true.
  destruct nd; repeat split; reflexivity.
Qed.

(** ** Concrete runs *)

(** C1: packing A.BIN, B.BIN, C.BIN, D.BIN and unpacking the image gives
    back the first three files padded to 1024 bytes, and no D.BIN. *)
Theorem roundtrip_loses_fourth_file :
  roundtrip four_files ["A.BIN"; "B.BIN"; "C.BIN"; "D.BIN"]%string
  = Ok [("A.BIN"%string, Makerom.pad_buffer [xaa]);
        ("B.BIN"%string, Makerom.pad_buffer [xbb]);
        ("C.BIN"%string, Makerom.pad_buffer [xcc])].
Proof. vm_compute. reflexivity. Qed.

(** C2: with four files the highest used slot is 4 (its validity byte is
    0x00) and the header's [dir_entries] is 4, where the slot index plus
    one, rounded up to a multiple of 4, is 8. *)
Theorem dir_entries_rounds_slot_counter :
  (st <- Makerom.pack four_files "out.rom"
           ["A.BIN"; "B.BIN"; "C.BIN"; "D.BIN"]%string ;;
   Ok (Makerom.currentDirectory st,
       load (Makerom.directory st) (4 * sizeof_DirEntry + Ent.validity),
       load (Makerom.finalise_header st) Hdr.dir_entries))
  = Ok (4, x00, x04)
  /\ round_up_4 4 = 4 /\ round_up_4 (4 + 1) = 8.
Proof.
  split; [vm_compute; reflexivity|]. split; reflexivity.
Qed.

(** C3: a 0x8000-byte file whose first byte after the exchange is 0x00 and
    whose second is 0x37 is not refused: the unpacker ends normally, having
    written nothing. *)
Theorem one_matching_byte_is_accepted :
  zlen foreign_image = 0x8000
  /\ load (swap_halves foreign_image) 0 = x00
  /\ load (swap_halves foreign_image) 1 = x37
  /\ Dumprom.main false (rom_host foreign_image) ["dumprom"; "out.rom"]%string
     = Ok [].
Proof. vm_compute. repeat split; reflexivity. Qed.

(** C4: in the image packed from one file whose first bytes read as a
    directory entry, slot 4 is where the file area starts ([dir_entries] is
    4), the walk reads it as an entry, and the unpacker writes a second
    file, HIDDEN.BIN. *)
Theorem file_area_read_as_directory_entry :
  roundtrip entry_like_file ["A.BIN"%string]
  = Ok [("A.BIN"%string, Makerom.pad_buffer entry_like);
        ("HIDDEN.BIN"%string, Makerom.pad_buffer entry_like)]
  /\ (rom <- Makerom.build_rom entry_like_file "out.rom" ["A.BIN"%string] ;;
      de <- Dumprom.hdr_dir_entries rom ;;
      slot <- Dumprom.dir_entry_offset false rom de ;;
      area <- Dumprom.file_area_offset false rom ;;
      Ok (de, slot, area)) = Ok (4, 128, 128).
Proof. vm_compute. split; reflexivity. Qed.

(** C8 (as stated, refuted): with the identification bytes right and
    [dir_entries = 5] the unpacker gives no "fatal" error: built with
    assertions it stops on an [assert], built without it ends normally. *)
Lemma corrupt_directory_is_no_fatal_error :
  load odd_directory 0 = xe5 /\ load odd_directory 1 = x37
  /\ Z_of_byte (load odd_directory Hdr.dir_entries) = 5
  /\ Dumprom.dump_files false no_files odd_directory
     = AssertFail "hdr->dir_entries%4 == 0"
  /\ Dumprom.dump_files true no_files odd_directory = Ok []
  /\ forall nd msg param,
       Dumprom.dump_files nd no_files odd_directory <> Fatal msg param.
Proof.
  assert (A : Dumprom.dump_files false no_files odd_directory
              = AssertFail "hdr->dir_entries%4 == 0")
    by (vm_compute; reflexivity).
  assert (B : Dumprom.dump_files true no_files odd_directory = Ok [])
    by (vm_compute; reflexivity).
  repeat split; try assumption; try reflexivity.
  intros [|] msg param; [rewrite B | rewrite A]; discriminate.
Qed.

(** C9: with no input file the image written has no header: after the
    exchange is undone its bytes 0, 1, 2 and 22 are 0xFF. *)
Theorem no_inputs_no_header :
  exists image,
    Makerom.main no_files ["makerom"; "out.rom"]%string = Ok image
    /\ load (swap_halves image) 0 = xff
    /\ load (swap_halves image) 1 = xff
    /\ load (swap_halves image) Hdr.capacity = xff
    /\ load (swap_halves image) Hdr.dir_entries = xff.
Proof.
  exists (repeat xff (Z.to_nat 0x8000)).
  split; [apply main_no_inputs; reflexivity|].
  rewrite swap_halves_repeat.
  repeat split; apply load_repeat; unfold Hdr.capacity, Hdr.dir_entries; lia.
Qed.

(** With at least one input file the image written has a well-formed
    header and holds the padded inputs from [dir_entries * 32] on. *)
Lemma header_well_formed (h : host) (argv : list string) (image : list byte) :
  Makerom.main h argv = Ok image ->
  skipn 2 argv <> [] ->
  let rom := swap_halves image in
  let fa := padded_inputs h (skipn 2 argv) in
  let de := Z_of_byte (load rom Hdr.dir_entries) in
  load rom 0 = xe5 /\ load rom 1 = x37 /\ load rom Hdr.capacity = x20
  /\ de mod 4 = 0 /\ 4 <= de <= 0x20
  /\ load rom 3 = byte_of_Z (Z.land (u16 (zlen fa)) 0xff)
  /\ load rom 4 = byte_of_Z (Z.land (Z.shiftr (u16 (zlen fa)) 8) 0xff)
  /\ sub rom (de * sizeof_DirEntry) (zlen fa) = fa.
Proof.
  intros E Hne rom fa de.
  destruct (main_ok_inv h argv image E) as (st & rom0 & _ & Ep & Es & Lr & Ei).
  assert (Hrom : rom = rom0)
    by (subst rom image; apply swap_halves_involutive; exact Lr).
  destruct (pack_state_ok _ _ _ _ Ep) as (L & I0 & I1 & I2 & _ & C & Cpos & A).
  specialize (Cpos Hne).
  destruct (finalise_header_spec st L) as (L' & _ & K3 & K4 & H').
  pose proof (dir_entries_value st L C) as D.
  assert (Hr : 4 <= round_up_4 (Makerom.currentDirectory st) <= 32
               /\ round_up_4 (Makerom.currentDirectory st) mod 4 = 0)
    by (unfold round_up_4; Z.div_mod_to_equations; lia).
  destruct (serialise_spec _ _ _ L' ltac:(lia) Es) as (_ & _ & Hcopy & Hfa).
  cbv zeta in Hcopy, Hfa. rewrite D in Hcopy, Hfa.
  unfold sizeof_DirEntry, Hdr.capacity, Hdr.dir_entries in *.
  assert (Hde : de = round_up_4 (Makerom.currentDirectory st)).
  { subst de. rewrite Hrom, Hcopy by lia. exact D. }
  rewrite Hde. subst fa. rewrite <- A, Hrom.
  rewrite !Hcopy by lia. rewrite !H' by lia.
  repeat split; try assumption; lia.
Qed.

(** ** The theorems at concrete inputs *)

Lemma out_of_directory_space_exactly_witness :
  read_file small_files "out.rom" = None
  /\ forallb (input_ok small_files) thirty_two_names = true
  /\ List.length thirty_two_names = 32%nat
  /\ Makerom.main small_files ("makerom" :: "out.rom" :: thirty_two_names)%string
     = Fatal "Out of directory space." None.
Proof.
  split; [reflexivity|]. split; [vm_compute; reflexivity|].
  split; [reflexivity|].
  apply (proj2 (proj2 (out_of_directory_space_exactly
                         small_files "makerom" "out.rom" thirty_two_names
                         eq_refl)));
    vm_compute; reflexivity.
Defined.

Lemma padding_is_zero_valued_witness :
  read_file two_bytes "A.BIN" = Some [xaa; xbb]
  /\ zlen [xaa; xbb] mod 1024 <> 0
  /\ Makerom.process_file two_bytes "A.BIN" (Makerom.init_state "out.rom")
     = Ok after_two_bytes
  /\ Makerom.file_area after_two_bytes
     = [] ++ [xaa; xbb] ++ repeat x00 (Z.to_nat (1 * 1024 - 2)).
Proof.
  assert (H1 : read_file two_bytes "A.BIN" = Some [xaa; xbb]) by reflexivity.
  assert (H2 : zlen [xaa; xbb] mod 1024 <> 0) by (vm_compute; discriminate).
  assert (H3 : Makerom.process_file two_bytes "A.BIN"
                 (Makerom.init_state "out.rom") = Ok after_two_bytes)
    by (vm_compute; reflexivity).
  split; [exact H1|]. split; [exact H2|]. split; [exact H3|].
  exact (proj1 (proj2 (padding_is_zero_valued two_bytes "A.BIN" [xaa; xbb]
                         (Makerom.init_state "out.rom") after_two_bytes
                         H1 H2 H3))).
Defined.

Lemma swap_last_on_write_first_on_read_witness :
  zlen (repeat xaa (Z.to_nat 0x4000) ++ repeat xbb (Z.to_nat 0x4000)) = 0x8000
  /\ swap_halves
       (swap_halves (repeat xaa (Z.to_nat 0x4000) ++ repeat xbb (Z.to_nat 0x4000)))
     = repeat xaa (Z.to_nat 0x4000) ++ repeat xbb (Z.to_nat 0x4000)
  /\ 0 <= 7 < 0x4000
  /\ load (swap_halves
             (repeat xaa (Z.to_nat 0x4000) ++ repeat xbb (Z.to_nat 0x4000))) 7
     = xbb
  /\ load (swap_halves
             (repeat xaa (Z.to_nat 0x4000) ++ repeat xbb (Z.to_nat 0x4000)))
       (7 + 0x4000)
     = xaa.
Proof.
  assert (H : zlen (repeat xaa (Z.to_nat 0x4000) ++ repeat xbb (Z.to_nat 0x4000))
              = 0x8000) by (vm_compute; reflexivity).
  assert (H7 : 0 <= 7 < 0x4000) by lia.
  assert (Hb : load (repeat xaa (Z.to_nat 0x4000) ++ repeat xbb (Z.to_nat 0x4000))
                 (7 + 0x4000) = xbb) by (vm_compute; reflexivity).
  assert (Ha : load (repeat xaa (Z.to_nat 0x4000) ++ repeat xbb (Z.to_nat 0x4000))
                 7 = xaa) by (vm_compute; reflexivity).
  destruct swap_last_on_write_first_on_read as (I & _ & _ & _ & M & _).
  destruct (M _ 7 H H7) as [M1 M2].
  split; [exact H|]. split; [exact (I _ H)|]. split; [exact H7|].
  split; [rewrite M1; exact Hb | rewrite M2; exact Ha].
Defined.

Lemma no_inputs_all_ff_witness :
  read_file no_files "out.rom" = None
  /\ can_write no_files "out.rom" = true
  /\ write_ok no_files "out.rom" (repeat xff (Z.to_nat 0x8000)) = true
  /\ Makerom.main no_files ["makerom"; "out.rom"]%string
     = Ok (repeat xff (Z.to_nat 0x8000))
  /\ zlen (Makerom.finalise_header (Makerom.init_state "out.rom")) = 1024
  /\ load_opt (Makerom.finalise_header (Makerom.init_state "out.rom"))
       Hdr.dir_entries = Some x00.
Proof.
  split; [reflexivity|]. split; [reflexivity|]. split; [reflexivity|].
  destruct (no_inputs_all_ff no_files "makerom" "out.rom"
              eq_refl eq_refl eq_refl)
    as (M & _ & _ & _ & _ & L & D & _).
  split; [exact M|]. split; [exact L | exact D].
Defined.

(** * Further properties *)

(** ** Splitting a file name *)

Lemma string_length_append (s1 s2 : string) :
  String.length (s1 ++ s2)%string = (String.length s1 + String.length s2)%nat.
Proof.
  induction s1 as [|a s1 IH]; simpl; congruence.
Qed.

Lemma substring_prefix (s1 s2 : string) :
  substring 0 (String.length s1) (s1 ++ s2)%string = s1.
Proof.
  induction s1 as [|a s1 IH]; simpl.
  - destruct s2; reflexivity.
  - rewrite IH. reflexivity.
Qed.

Lemma substring_whole (s : string) : substring 0 (String.length s) s = s.
Proof.
  induction s as [|a s IH]; simpl; [reflexivity | rewrite IH; reflexivity].
Qed.

Lemma substring_suffix (s1 s2 : string) (c : ascii) :
  substring (S (String.length s1)) (String.length s2) (s1 ++ String c s2)%string
  = s2.
Proof.
  induction s1 as [|a s1 IH]; simpl.
  - apply substring_whole.
  - exact IH.
Qed.

Lemma find_last_of_append (c : ascii) (s1 s2 : string) :
  Makerom.find_last_of c s2 = None ->
  Makerom.find_last_of c (s1 ++ String c s2)%string = Some (String.length s1).
Proof.
  intros H. induction s1 as [|a s1 IH]; simpl.
  - rewrite H, Ascii.eqb_refl. reflexivity.
  - rewrite IH. reflexivity.
Qed.

(** What [find_last_of] finds is the last occurrence. *)
Lemma find_last_of_split (c : ascii) (s : string) (pos : nat) :
  Makerom.find_last_of c s = Some pos ->
  exists s1 s2,
    s = (s1 ++ String c s2)%string /\ String.length s1 = pos
    /\ Makerom.find_last_of c s2 = None.
Proof.
  revert pos. induction s as [|a s IH]; intros pos H; simpl in H; [discriminate|].
  destruct (Makerom.find_last_of c s) as [p|] eqn:E.
  - injection H as <-. destruct (IH p eq_refl) as (s1 & s2 & -> & L & N).
    exists (String a s1), s2. simpl. rewrite L. auto.
  - destruct (Ascii.eqb_spec a c) as [->|]; [|discriminate].
    injection H as <-. exists EmptyString, s. auto.
Qed.

Lemma skipn_repeat {A : Type} (x : A) (n m : nat) :
  skipn n (repeat x m) = repeat x (m - n).
Proof.
  revert n. induction m as [|m IH]; intros [|n]; simpl; auto.
Qed.

(** A field of [n] spaces overwritten from its start. *)
Lemma space_padded (bytes : list byte) (n : nat) :
  (List.length bytes <= n)%nat ->
  memcpy (memset (repeat x00 n) 0 x20 (Z.of_nat n)) 0 bytes
  = bytes ++ repeat x20 (n - List.length bytes).
Proof.
  intros H.
  assert (E : memset (repeat x00 n) 0 x20 (Z.of_nat n) = repeat x20 n).
  { unfold memset, memcpy. simpl. rewrite Nat2Z.id, repeat_length.
    rewrite skipn_all2 by (rewrite repeat_length; lia). apply app_nil_r. }
  rewrite E. unfold memcpy. simpl. rewrite skipn_repeat. reflexivity.
Qed.

Lemma split_file_name_append (name ext : string) :
  Makerom.find_last_of "."%char ext = None ->
  (1 <= String.length name <= 8)%nat -> (1 <= String.length ext <= 3)%nat ->
  Makerom.split_file_name (name ++ String "."%char ext)%string
  = Ok (list_byte_of_string name ++ repeat x20 (8 - String.length name),
        list_byte_of_string ext ++ repeat x20 (3 - String.length ext)).
Proof.
  intros Hdot Hn He. unfold Makerom.split_file_name.
  rewrite (find_last_of_append _ name ext Hdot).
  rewrite substring_prefix.
  rewrite string_length_append. cbn [String.length].
  replace (String.length name + S (String.length ext) - S (String.length name))%nat
    with (String.length ext) by lia.
  rewrite substring_suffix.
  destruct (Nat.ltb_spec (String.length name) 1); [lia|].
  destruct (Nat.ltb_spec 8 (String.length name)); [lia|].
  destruct (Nat.ltb_spec (String.length ext) 1); [lia|].
  destruct (Nat.ltb_spec 3 (String.length ext)); [lia|].
  cbn [orb].
  change 8 with (Z.of_nat 8). change 3 with (Z.of_nat 3).
  rewrite (space_padded (list_byte_of_string name) 8),
          (space_padded (list_byte_of_string ext) 3)
    by (rewrite length_list_byte_of_string; lia).
  rewrite !length_list_byte_of_string. reflexivity.
Qed.

(** X1: a name [NAME.EXT] whose extension has no dot, with 1 to 8
    characters before the last dot and 1 to 3 after it, splits into the two
    parts, each padded on the right with spaces to 8 and 3 bytes. *)
Theorem split_file_name_at_last_dot (name ext : string) :
  Makerom.find_last_of "."%char ext = None ->
  (1 <= String.length name <= 8)%nat -> (1 <= String.length ext <= 3)%nat ->
  Makerom.split_file_name (name ++ "." ++ ext)%string
  = Ok (list_byte_of_string name ++ repeat x20 (8 - String.length name),
        list_byte_of_string ext ++ repeat x20 (3 - String.length ext)).
Proof.
  intros Hdot Hn He. apply split_file_name_append; assumption.
Qed.

Lemma split_file_name_at_last_dot_witness :
  Makerom.find_last_of "."%char "GZ" = None
  /\ (1 <= String.length "A.TAR" <= 8)%nat /\ (1 <= String.length "GZ" <= 3)%nat
  /\ Makerom.split_file_name "A.TAR.GZ"
     = Ok (list_byte_of_string "A.TAR   ", list_byte_of_string "GZ ").
Proof.
  split; [reflexivity|]. split; [simpl; lia|]. split; [simpl; lia|].
  apply (split_file_name_at_last_dot "A.TAR" "GZ");
    [reflexivity | simpl; lia | simpl; lia].
Defined.

(** X2: every other name is refused with "Input files must be 8.3" and the
    name as parameter: a result is given only for [NAME.EXT] with no dot in
    EXT, 1 to 8 characters in NAME and 1 to 3 in EXT. *)
Theorem split_file_name_refuses_the_rest (full : string) :
  Makerom.split_file_name full = Fatal "Input files must be 8.3" (Some full)
  \/ exists name ext,
       full = (name ++ "." ++ ext)%string
       /\ Makerom.find_last_of "."%char ext = None
       /\ (1 <= String.length name <= 8)%nat
       /\ (1 <= String.length ext <= 3)%nat
       /\ Makerom.split_file_name full
          = Ok (list_byte_of_string name ++ repeat x20 (8 - String.length name),
                list_byte_of_string ext ++ repeat x20 (3 - String.length ext)).
Proof.
  destruct (Makerom.find_last_of "."%char full) as [pos|] eqn:E.
  - destruct (find_last_of_split _ _ _ E) as (name & ext & -> & L & N).
    destruct (le_lt_dec 1 (String.length name)) as [N1|N1];
      [destruct (le_lt_dec (String.length name) 8) as [N8|N8];
       [destruct (le_lt_dec 1 (String.length ext)) as [E1|E1];
        [destruct (le_lt_dec (String.length ext) 3) as [E3|E3]|]|]|].
    + right. exists name, ext.
      split; [reflexivity|]. split; [exact N|]. split; [lia|]. split; [lia|].
      apply split_file_name_append; [exact N | lia | lia].
    + left. unfold Makerom.split_file_name. rewrite E, <- L.
      rewrite substring_prefix, string_length_append. cbn [String.length].
      replace (String.length name + S (String.length ext) - S (String.length name))%nat
        with (String.length ext) by lia.
      rewrite substring_suffix.
      destruct (Nat.ltb_spec 3 (String.length ext)); [|lia].
      rewrite !orb_true_r. reflexivity.
    + left. unfold Makerom.split_file_name. rewrite E, <- L.
      rewrite substring_prefix, string_length_append. cbn [String.length].
      replace (String.length name + S (String.length ext) - S (String.length name))%nat
        with (String.length ext) by lia.
      rewrite substring_suffix.
      destruct (Nat.ltb_spec (String.length ext) 1); [|lia].
      rewrite !orb_true_r. reflexivity.
    + left. unfold Makerom.split_file_name. rewrite E, <- L.
      rewrite substring_prefix.
      destruct (Nat.ltb_spec 8 (String.length name)); [|lia].
      rewrite orb_true_r. reflexivity.
    + left. unfold Makerom.split_file_name. rewrite E, <- L.
      rewrite substring_prefix.
      destruct (Nat.ltb_spec (String.length name) 1); [|lia].
      reflexivity.
  - left. unfold Makerom.split_file_name. rewrite E. reflexivity.
Qed.

(** ** When the packer succeeds *)

Lemma process_file_ok_input (h : host) (p : string)
    (st st' : Makerom.pack_state) :
  Makerom.process_file h p st = Ok st' -> input_ok h p = true.
Proof.
  intros E. unfold Makerom.process_file in E. unfold input_ok.
  destruct (Makerom.bump_directory (Makerom.currentDirectory st));
    cbn [bind] in E; try discriminate.
  destruct (read_file h p); [|discriminate].
  destruct (Makerom.split_file_name p) as [nt| | | | |];
    cbn [bind] in E; try discriminate.
  reflexivity.
Qed.

Lemma place_files_ok_inputs (h : host) (files : list string) :
  forall st st',
    Makerom.place_files h files st = Ok st' ->
    forallb (input_ok h) files = true.
Proof.
  induction files as [|p r IH]; intros st st' E; [reflexivity|].
  cbn [Makerom.place_files] in E.
  destruct (Makerom.process_file h p st) as [st1| | | | |] eqn:E1;
    cbn [bind] in E; try discriminate.
  cbn [forallb]. rewrite (process_file_ok_input _ _ _ _ E1), (IH _ _ E).
  reflexivity.
Qed.

Lemma serialise_fatal_iff (dir fa : list byte) :
  Makerom.serialise dir fa = Fatal "Out of ROM space." None
  <-> 0x8000 < Z_of_byte (load dir Hdr.dir_entries) * sizeof_DirEntry + zlen fa.
Proof.
  unfold Makerom.serialise, Makerom.romSize.
  match goal with |- context [?a >? ?b] => destruct (Z.gtb_spec a b) end;
    split; intros H'; try discriminate; try lia; reflexivity.
Qed.

(** The state after the loop, for inputs that open, are named 8.3 and need
    at most 31 slots. *)
Lemma pack_ok (h : host) (outName : string) (files : list string) :
  forallb (input_ok h) files = true -> slots_needed h files <= 31 ->
  exists st,
    Makerom.pack h outName files = Ok st
    /\ zlen (Makerom.finalise_header st) = 1024
    /\ Z_of_byte (load (Makerom.finalise_header st) Hdr.dir_entries)
       = round_up_4 (slots_needed h files)
    /\ Makerom.file_area st = padded_inputs h files.
Proof.
  intros Hok Hs.
  destruct (init_state_ok outName) as (_ & _ & _ & _ & C0 & _).
  pose proof (place_files_slots h files (Makerom.init_state outName)) as S.
  rewrite C0 in S. destruct (S ltac:(lia)) as (_ & _ & S3 & _).
  destruct (S3 Hok ltac:(lia)) as (st & E).
  exists st. split; [exact E|].
  destruct (pack_state_ok h outName files st E) as (L & _ & _ & _ & C & R & _ & A).
  destruct (finalise_header_spec st L) as (L' & _).
  split; [exact L'|]. split; [|exact A].
  rewrite <- C. apply dir_entries_value; assumption.
Qed.

Lemma main_ok_iff (h : host) (prog outName : string)
    (files : list string) :
  (exists image, Makerom.main h (prog :: outName :: files) = Ok image)
  <-> read_file h outName = None
      /\ forallb (input_ok h) files = true
      /\ slots_needed h files <= 31
      /\ round_up_4 (slots_needed h files) * 32 + zlen (padded_inputs h files)
         <= 0x8000
      /\ can_write h outName = true
      /\ (forall rom, Makerom.build_rom h outName files = Ok rom ->
                      write_ok h outName (swap_halves rom) = true).
Proof.
  split.
  - intros [image E].
    assert (Hr : read_file h outName = None).
    { unfold Makerom.main in E.
      destruct (zlen (prog :: outName :: files) <? 2); [discriminate|].
      cbn [nth] in E. destruct (read_file h outName); [discriminate|reflexivity]. }
    rewrite main_steps in E
      by (try exact Hr; unfold zlen; cbn [List.length]; lia).
    cbn [nth skipn] in E.
    destruct (Makerom.pack h outName files) as [st| | | | |] eqn:Ep;
      cbn [bind] in E; try discriminate.
    destruct (pack_state_ok h outName files st Ep)
      as (L & _ & _ & _ & C & R & _ & A).
    destruct (finalise_header_spec st L) as (L' & _).
    pose proof (dir_entries_value st L R) as D.
    destruct (Makerom.serialise (Makerom.finalise_header st) (Makerom.file_area st))
      as [rom| | | | |] eqn:Es; cbn [bind] in E; try discriminate.
    assert (Hde : Z_of_byte (load (Makerom.finalise_header st) Hdr.dir_entries) <= 32)
      by (rewrite D; unfold round_up_4; Z.div_mod_to_equations; lia).
    destruct (serialise_spec _ _ _ L' Hde Es) as (_ & Hfit & _).
    cbv zeta in Hfit. rewrite D, C, A in Hfit. unfold sizeof_DirEntry in Hfit.
    rewrite (address_swap_packed h outName files st rom Ep) in E.
    split; [exact Hr|].
    split; [exact (place_files_ok_inputs h files _ _ Ep)|].
    split; [lia|]. split; [exact Hfit|].
    destruct (can_write h outName); [|discriminate].
    split; [reflexivity|].
    intros rom' Eb. unfold Makerom.build_rom in Eb.
    rewrite Ep in Eb. cbn [bind] in Eb. rewrite Es in Eb.
    apply Ok_inj in Eb. subst rom'.
    destruct (write_ok h outName (swap_halves rom));
      [reflexivity | discriminate].
  - intros (Hr & Hok & Hs & Hfit & Hw & Hwr).
    rewrite main_steps by (try exact Hr; unfold zlen; cbn [List.length]; lia).
    cbn [nth skipn].
    destruct (pack_ok h outName files Hok Hs) as (st & Ep & L' & D & A).
    rewrite Ep. cbn [bind].
    destruct (serialise_cases (Makerom.finalise_header st) (Makerom.file_area st))
      as [Es|[rom Es]].
    + apply serialise_fatal_iff in Es.
      rewrite D, A in Es. unfold sizeof_DirEntry in Es. lia.
    + rewrite Es. cbn [bind]. rewrite Hw.
      rewrite (address_swap_packed h outName files st rom Ep).
      rewrite (Hwr rom)
        by (unfold Makerom.build_rom; rewrite Ep; cbn [bind]; exact Es).
      eexists. reflexivity.
Qed.

(** Once the image is built: the output is opened, the image written with
    its halves exchanged, and the stream tested. *)
Lemma main_after_build (h : host) (prog outName : string)
    (files : list string) (rom : list byte) :
  read_file h outName = None ->
  Makerom.build_rom h outName files = Ok rom ->
  Makerom.main h (prog :: outName :: files)
  = if can_write h outName then
      if write_ok h outName (swap_halves rom) then Ok (swap_halves rom)
      else Fatal "Failed to write to ouput file." (Some outName)
    else Fatal "Failed to open output file for writing." (Some outName).
Proof.
  intros Hr Eb.
  rewrite main_steps by (try exact Hr; unfold zlen; cbn [List.length]; lia).
  cbn [nth skipn]. unfold Makerom.build_rom in Eb.
  destruct (Makerom.pack h outName files) as [st| | | | |] eqn:Ep;
    cbn [bind] in Eb; try discriminate.
  cbn [bind]. rewrite Eb. cbn [bind].
  rewrite (address_swap_packed h outName files st rom Ep). reflexivity.
Qed.

Lemma two_bytes_packs :
  exists image,
    Makerom.main two_bytes ["makerom"; "out.rom"; "A.BIN"]%string = Ok image.
Proof.
  apply (proj2 (main_ok_iff two_bytes "makerom" "out.rom" ["A.BIN"%string])).
  split; [reflexivity|]. split; [vm_compute; reflexivity|].
  split; [vm_compute; discriminate|]. split; [vm_compute; discriminate|].
  split; [reflexivity|]. intros rom _. reflexivity.
Qed.

(** X3: the packer ends normally exactly when the output does not exist,
    every input opens and is named 8.3, the inputs need at most 31
    directory slots, the directory rounded up to a multiple of 4 slots plus
    the padded inputs fit in 0x8000 bytes, the output opens for writing,
    and the stream is good after the write of the image (the image built,
    halves exchanged).  Once the image is built, an output that does not
    open gives "Failed to open output file for writing." and a stream that
    is not good after the write "Failed to write to ouput file.", each with
    the output name. *)
Theorem pack_succeeds_exactly (h : host) (prog outName : string)
    (files : list string) :
  ((exists image, Makerom.main h (prog :: outName :: files) = Ok image)
   <-> read_file h outName = None
       /\ forallb (input_ok h) files = true
       /\ slots_needed h files <= 31
       /\ round_up_4 (slots_needed h files) * 32 + zlen (padded_inputs h files)
          <= 0x8000
       /\ can_write h outName = true
       /\ (forall rom, Makerom.build_rom h outName files = Ok rom ->
                       write_ok h outName (swap_halves rom) = true))
  /\ (forall rom,
        read_file h outName = None ->
        Makerom.build_rom h outName files = Ok rom ->
        Makerom.main h (prog :: outName :: files)
        = if can_write h outName then
            if write_ok h outName (swap_halves rom) then Ok (swap_halves rom)
            else Fatal "Failed to write to ouput file." (Some outName)
          else Fatal "Failed to open output file for writing." (Some outName)).
Proof.
  split.
  - exact (main_ok_iff h prog outName files).
  - intros rom. exact (main_after_build h prog outName files rom).
Qed.

(** X4: for inputs that open, are named 8.3 and need at most 31 slots, the
    packer stops with "Out of ROM space." exactly when the directory
    (rounded up to a multiple of 4 slots) plus the padded inputs exceed
    0x8000 bytes. *)
Theorem out_of_rom_space_exactly (h : host) (prog outName : string)
    (files : list string) :
  read_file h outName = None ->
  forallb (input_ok h) files = true ->
  slots_needed h files <= 31 ->
  (Makerom.main h (prog :: outName :: files) = Fatal "Out of ROM space." None
   <-> 0x8000 < round_up_4 (slots_needed h files) * 32
                + zlen (padded_inputs h files)).
Proof.
  intros Hr Hok Hs.
  rewrite main_steps by (try exact Hr; unfold zlen; cbn [List.length]; lia).
  cbn [nth skipn].
  destruct (pack_ok h outName files Hok Hs) as (st & Ep & L' & D & A).
  rewrite Ep. cbn [bind]. rewrite A.
  pose proof (serialise_fatal_iff (Makerom.finalise_header st) (padded_inputs h files))
    as F.
  rewrite D in F. unfold sizeof_DirEntry in F.
  destruct (serialise_cases (Makerom.finalise_header st) (padded_inputs h files))
    as [Es|[rom Es]]; rewrite Es in *; cbn [bind].
  - exact F.
  - destruct (can_write h outName);
      [destruct (write_ok h outName _)|]; rewrite <- F; split; discriminate.
Qed.

Lemma out_of_rom_space_exactly_witness :
  read_file one_big_file "out.rom" = None
  /\ forallb (input_ok one_big_file) ["BIG.BIN"%string] = true
  /\ slots_needed one_big_file ["BIG.BIN"%string] <= 31
  /\ Makerom.main one_big_file ["makerom"; "out.rom"; "BIG.BIN"]%string
     = Fatal "Out of ROM space." None.
Proof.
  assert (H2 : forallb (input_ok one_big_file) ["BIG.BIN"%string] = true)
    by (vm_compute; reflexivity).
  assert (H3 : slots_needed one_big_file ["BIG.BIN"%string] <= 31)
    by (vm_compute; discriminate).
  split; [reflexivity|]. split; [exact H2|]. split; [exact H3|].
  apply (out_of_rom_space_exactly one_big_file "makerom" "out.rom"
           ["BIG.BIN"%string] eq_refl H2 H3).
  vm_compute. reflexivity.
Defined.

Lemma pack_succeeds_exactly_witness :
  exists image,
    Makerom.main two_bytes ["makerom"; "out.rom"; "A.BIN"]%string = Ok image.
Proof.
  apply (proj2 (proj1 (pack_succeeds_exactly two_bytes "makerom" "out.rom"
                         ["A.BIN"%string]))).
  split; [reflexivity|]. split; [vm_compute; reflexivity|].
  split; [vm_compute; discriminate|]. split; [vm_compute; discriminate|].
  split; [reflexivity|]. intros rom _. reflexivity.
Defined.

(** ** The image written *)

Lemma sub_ext (a b : list byte) (off n : Z) :
  0 <= off -> 0 <= n -> off + n <= zlen a -> off + n <= zlen b ->
  (forall i, off <= i < off + n -> load a i = load b i) ->
  sub a off n = sub b off n.
Proof.
  intros Ho Hn Ha Hb H.
  apply (nth_ext _ _ x00 x00).
  - pose proof (zlen_sub a off n Ho Hn Ha) as La.
    pose proof (zlen_sub b off n Ho Hn Hb) as Lb.
    unfold zlen in La, Lb. lia.
  - intros k Hk.
    pose proof (zlen_sub a off n Ho Hn Ha) as La. unfold zlen in La.
    pose proof (load_sub a off n (Z.of_nat k) Ho ltac:(lia)) as Ea.
    pose proof (load_sub b off n (Z.of_nat k) Ho ltac:(lia)) as Eb.
    unfold load in Ea, Eb. rewrite Nat2Z.id in Ea, Eb.
    rewrite Ea, Eb. apply H. lia.
Qed.

Lemma serialise_tail (dir fa rom : list byte) :
  zlen dir = 1024 ->
  Z_of_byte (load dir Hdr.dir_entries) <= 32 ->
  Makerom.serialise dir fa = Ok rom ->
  forall i,
    Z_of_byte (load dir Hdr.dir_entries) * sizeof_DirEntry + zlen fa <= i < 0x8000 ->
    load rom i = xff.
Proof.
  intros Hl Hde E i Hi. unfold Makerom.serialise in E.
  pose proof (Z_of_byte_range (load dir Hdr.dir_entries)) as Hr.
  pose proof (zlen_nonneg fa) as Hfa.
  unfold Makerom.romSize, sizeof_DirEntry in *.
  set (off := Z_of_byte (load dir Hdr.dir_entries) * 32) in *.
  destruct (Z.gtb_spec (off + zlen fa) 0x8000) as [Hbig|Hfit]; [discriminate|].
  apply Ok_inj in E. subst rom.
  assert (Hoff : 0 <= off <= 1024) by (subst off; lia).
  assert (Ls : zlen (sub dir 0 off) = off) by (apply zlen_sub; lia).
  assert (L0 : zlen (repeat xff (Z.to_nat 0x8000)) = 0x8000) by apply zlen_repeat.
  assert (L1 : zlen (memcpy (repeat xff (Z.to_nat 0x8000)) 0 (sub dir 0 off)) = 0x8000)
    by (rewrite zlen_memcpy; lia).
  rewrite load_memcpy_out by lia.
  rewrite load_memcpy_out by lia.
  apply load_repeat. lia.
Qed.

Lemma finalise_header_other (st : Makerom.pack_state) (i : Z) :
  zlen (Makerom.directory st) = 1024 ->
  0 <= i -> i <> 3 -> i <> 4 -> i <> 22 ->
  load (Makerom.finalise_header st) i = load (Makerom.directory st) i.
Proof.
  intros Hl Hi H3 H4 H22. unfold Makerom.finalise_header.
  unfold Hdr.dir_entries, Hdr.checksum.
  set (d0 := Makerom.directory st) in *.
  set (d1 := store d0 22 _).
  assert (L1 : zlen d1 = 1024) by (subst d1; rewrite zlen_store; lia).
  set (d2 := store d1 (3 + 0) _).
  assert (L2 : zlen d2 = 1024) by (subst d2; rewrite zlen_store; lia).
  rewrite load_store_other by lia.
  subst d2. rewrite load_store_other by lia.
  subst d1. apply load_store_other; lia.
Qed.

(** The text fields of the directory the packer starts from. *)
Lemma init_directory_with_text (romName : list byte) :
  zlen romName <= 14 ->
  let d := Makerom.init_directory_with romName in
  sub d 5 3 = list_byte_of_string "H80"
  /\ sub d 8 14 = romName ++ repeat x20 (14 - List.length romName)
  /\ sub d 23 9 = list_byte_of_string "V10111620".
Proof.
  intros H.
  do 15 (destruct romName as [|? romName]; [vm_compute; auto|]).
  exfalso. unfold zlen in H. simpl in H. lia.
Qed.

Lemma init_state_text (outName : string) :
  let d := Makerom.directory (Makerom.init_state outName) in
  sub d 5 3 = list_byte_of_string "H80"
  /\ sub d 8 14
     = Makerom.rom_name_bytes outName
       ++ repeat x20 (14 - List.length (Makerom.rom_name_bytes outName))
  /\ sub d 23 9 = list_byte_of_string "V10111620".
Proof.
  destruct (init_directory_with_text _ (zlen_rom_name_bytes outName))
    as (A & B & C).
  split; [exact A|]. split; [exact B | exact C].
Qed.

Lemma pack_frame (h : host) (outName : string) (files : list string)
    (st : Makerom.pack_state) :
  Makerom.pack h outName files = Ok st ->
  frame (Makerom.directory (Makerom.init_state outName)) (Makerom.directory st).
Proof.
  intros E. unfold Makerom.pack in E.
  destruct (init_state_ok outName) as (L0 & _ & _ & _ & C0 & _).
  set (st0 := Makerom.init_state outName) in *.
  destruct (place_files_frame h files st0 st L0 ltac:(lia) E) as (F & _).
  exact F.
Qed.

(** X5: when at least one input file is given and the packer ends
    normally, the first 32 bytes of the image (the exchange undone) are the
    header: 0xE5, 0x37, capacity 0x20, the low and high byte of the file
    area size, "H80", the output name cut to 14 characters and padded with
    spaces, the slot counter rounded up to a multiple of 4, and
    "V10111620". *)
Theorem packed_header_fields (h : host) (argv : list string)
    (image : list byte) :
  Makerom.main h argv = Ok image ->
  skipn 2 argv <> [] ->
  let rom := swap_halves image in
  let files := skipn 2 argv in
  let romName := Makerom.rom_name_bytes (nth 1 argv EmptyString) in
  let size := u16 (zlen (padded_inputs h files)) in
  load rom 0 = xe5 /\ load rom 1 = x37 /\ load rom 2 = x20
  /\ load rom 3 = byte_of_Z (Z.land size 0xff)
  /\ load rom 4 = byte_of_Z (Z.land (Z.shiftr size 8) 0xff)
  /\ sub rom 5 3 = list_byte_of_string "H80"
  /\ sub rom 8 14 = romName ++ repeat x20 (14 - List.length romName)
  /\ Z_of_byte (load rom 22) = round_up_4 (slots_needed h files)
  /\ sub rom 23 9 = list_byte_of_string "V10111620".
Proof.
  intros E Hne rom files romName size.
  destruct (header_well_formed h argv image E Hne)
    as (H0 & H1 & H2 & _ & _ & H3 & H4 & _).
  destruct (main_ok_inv h argv image E) as (st & rom0 & _ & Ep & Es & Lr & Ei).
  assert (Hrom : rom = rom0)
    by (subst rom image; apply swap_halves_involutive; exact Lr).
  destruct (pack_state_ok _ _ _ _ Ep) as (L & _ & _ & _ & Cs & C & Cpos & A).
  specialize (Cpos Hne).
  destruct (finalise_header_spec st L) as (L' & _).
  pose proof (dir_entries_value st L C) as D.
  assert (Hr : 4 <= round_up_4 (Makerom.currentDirectory st) <= 32)
    by (unfold round_up_4; Z.div_mod_to_equations; lia).
  destruct (serialise_spec _ _ _ L' ltac:(lia) Es) as (_ & _ & Hcopy & _).
  cbv zeta in Hcopy. rewrite D in Hcopy. unfold sizeof_DirEntry in Hcopy.
  destruct (pack_frame _ _ _ _ Ep) as [_ Hf].
  destruct (init_state_ok (nth 1 argv EmptyString)) as (L0 & _).
  destruct (init_state_text (nth 1 argv EmptyString)) as (T1 & T2 & T3).
  assert (Hsame : forall off n, 0 <= off -> 0 <= n -> off + n <= 32 ->
            (forall i, off <= i < off + n -> i <> 3 /\ i <> 4 /\ i <> 22) ->
            sub rom off n
            = sub (Makerom.directory (Makerom.init_state (nth 1 argv EmptyString)))
                off n).
  { intros off n Ho Hn Hlim Hex. rewrite Hrom.
    apply sub_ext; try lia.
    intros i Hi. destruct (Hex i Hi) as (N3 & N4 & N22).
    rewrite Hcopy by lia.
    rewrite finalise_header_other by (assumption || lia).
    apply Hf. lia. }
  split; [exact H0|]. split; [exact H1|]. split; [exact H2|].
  split; [exact H3|]. split; [exact H4|].
  split; [rewrite Hsame by lia; exact T1|].
  split; [rewrite Hsame by lia; exact T2|].
  split; [|rewrite Hsame by lia; exact T3].
  rewrite Hrom, Hcopy by lia. unfold Hdr.dir_entries in D.
  rewrite D, Cs. reflexivity.
Qed.

Lemma packed_header_fields_witness :
  skipn 2 ["makerom"; "out.rom"; "A.BIN"]%string <> []
  /\ exists image,
       Makerom.main two_bytes ["makerom"; "out.rom"; "A.BIN"]%string = Ok image
       /\ sub (swap_halves image) 8 14 = list_byte_of_string "out.rom       "
       /\ Z_of_byte (load (swap_halves image) 22) = 4.
Proof.
  assert (Hne : skipn 2 ["makerom"; "out.rom"; "A.BIN"]%string <> [])
    by discriminate.
  split; [exact Hne|].
  destruct two_bytes_packs as [image E].
  exists image. split; [exact E|].
  destruct (packed_header_fields two_bytes _ image E Hne)
    as (_ & _ & _ & _ & _ & _ & N & D & _).
  split; [exact N | exact D].
Defined.

(** X6: in the image of a normal run (the exchange undone) the padded
    inputs, in command-line order, start at the first byte after the
    directory, and every byte after them up to 0x8000 is 0xFF. *)
Theorem packed_file_area_and_tail (h : host) (argv : list string)
    (image : list byte) :
  Makerom.main h argv = Ok image ->
  let rom := swap_halves image in
  let files := skipn 2 argv in
  let off := round_up_4 (slots_needed h files) * 32 in
  zlen image = 0x8000
  /\ sub rom off (zlen (padded_inputs h files)) = padded_inputs h files
  /\ forall i, off + zlen (padded_inputs h files) <= i < 0x8000 ->
               load rom i = xff.
Proof.
  intros E rom files off.
  destruct (main_ok_inv h argv image E) as (st & rom0 & _ & Ep & Es & Lr & Ei).
  assert (Hrom : rom = rom0)
    by (subst rom image; apply swap_halves_involutive; exact Lr).
  destruct (pack_state_ok _ _ _ _ Ep) as (L & _ & _ & _ & Cs & C & _ & A).
  destruct (finalise_header_spec st L) as (L' & _).
  pose proof (dir_entries_value st L C) as D.
  assert (Hr : round_up_4 (Makerom.currentDirectory st) <= 32)
    by (unfold round_up_4; Z.div_mod_to_equations; lia).
  destruct (serialise_spec _ _ _ L' ltac:(lia) Es) as (_ & _ & _ & Hfa).
  pose proof (serialise_tail _ _ _ L' ltac:(lia) Es) as Ht.
  cbv zeta in Hfa. rewrite D, Cs, A in Hfa, Ht.
  unfold sizeof_DirEntry in Hfa, Ht.
  split; [subst image; apply zlen_swap_halves; exact Lr|].
  rewrite Hrom. split; [exact Hfa | exact Ht].
Qed.

Lemma packed_file_area_and_tail_witness :
  exists image,
    Makerom.main two_bytes ["makerom"; "out.rom"; "A.BIN"]%string = Ok image
    /\ sub (swap_halves image) 128 1024 = [xaa; xbb] ++ repeat x00 1022.
Proof.
  destruct two_bytes_packs as [image E].
  exists image. split; [exact E|].
  exact (proj1 (proj2 (packed_file_area_and_tail two_bytes _ image E))).
Defined.

(** X7: the exchange puts byte [i + 0x4000] of a 0x8000-byte buffer at [i]
    and byte [i] at [i + 0x4000]. *)
Theorem swap_halves_moves_bytes (rom : list byte) (i : Z) :
  zlen rom = 0x8000 -> 0 <= i < 0x4000 ->
  load (swap_halves rom) i = load rom (i + 0x4000)
  /\ load (swap_halves rom) (i + 0x4000) = load rom i.
Proof.
  intros Hl Hi.
  destruct (split_halves rom 0x4000) as (a & b & -> & Ha & Hb); [lia | lia |].
  rewrite swap_halves_app by assumption.
  unfold load, zlen in *. split.
  - rewrite app_nth1 by lia. rewrite app_nth2 by lia. f_equal. lia.
  - rewrite app_nth2 by lia. rewrite app_nth1 by lia. f_equal. lia.
Qed.

Lemma swap_halves_moves_bytes_witness :
  zlen (repeat xaa (Z.to_nat 0x4000) ++ repeat xbb (Z.to_nat 0x4000)) = 0x8000
  /\ 0 <= 7 < 0x4000
  /\ load (swap_halves (repeat xaa (Z.to_nat 0x4000) ++ repeat xbb (Z.to_nat 0x4000))) 7
     = load (repeat xaa (Z.to_nat 0x4000) ++ repeat xbb (Z.to_nat 0x4000)) (7 + 0x4000).
Proof.
  assert (H : zlen (repeat xaa (Z.to_nat 0x4000) ++ repeat xbb (Z.to_nat 0x4000))
              = 0x8000) by (vm_compute; reflexivity).
  assert (H7 : 0 <= 7 < 0x4000) by lia.
  split; [exact H|]. split; [exact H7|].
  exact (proj1 (swap_halves_moves_bytes _ 7 H H7)).
Defined.

(** ** How the unpacker can end *)

Lemma entry_result_bind {A B : Type} (m : outcome A) (k : A -> outcome B) :
  entry_result m -> (forall a, m = Ok a -> entry_result (k a)) ->
  entry_result (bind m k).
Proof.
  intros Hm Hk. destruct m; cbn [bind entry_result] in *; auto.
Qed.

Lemma entry_result_of_option {A : Type} (o : option A) :
  entry_result (of_option o).
Proof. destruct o; exact I. Qed.

Lemma entry_result_assert {A : Type} (nd c : bool) (e : string)
    (k : outcome A) :
  entry_result k -> entry_result (Dumprom.assert nd c e k).
Proof.
  intros H. unfold Dumprom.assert. destruct nd; [exact H|].
  destruct c; [exact H | exact I].
Qed.

Lemma entry_result_write_blocks (n : nat) :
  forall nd rom fileBase dir i out,
    entry_result (Dumprom.write_blocks n nd rom fileBase dir i out).
Proof.
  induction n as [|n IH]; intros nd rom fileBase dir i out; [exact I|].
  cbn [Dumprom.write_blocks].
  apply entry_result_bind; [apply entry_result_of_option|]. intros b _.
  apply entry_result_bind; [|intros out' _; apply IH].
  destruct (negb (Byte.eqb b x00)); [|exact I].
  apply entry_result_bind;
    [unfold Dumprom.block_address; apply entry_result_assert; exact I|].
  intros addr _.
  apply entry_result_bind; [apply entry_result_of_option|].
  intros data _. exact I.
Qed.

Lemma entry_result_visit_entry (nd : bool) (h : host) (rom : list byte)
    (fileBase dirNo : Z) (out : Dumprom.ofstream) :
  entry_result (Dumprom.visit_entry nd h rom fileBase dirNo out).
Proof.
  unfold Dumprom.visit_entry.
  apply entry_result_bind.
  { unfold Dumprom.dir_entry_offset. apply entry_result_assert.
    apply entry_result_bind.
    - unfold Dumprom.hdr_dir_entries.
      apply entry_result_bind; [apply entry_result_of_option|]. intros; exact I.
    - intros de _. apply entry_result_assert. exact I. }
  intros dir _.
  apply entry_result_bind; [apply entry_result_of_option|]. intros validity _.
  destruct (Byte.eqb validity x00); [|exact I].
  apply entry_result_bind; [apply entry_result_of_option|]. intros le _.
  destruct (Byte.eqb le x00); [|apply entry_result_write_blocks].
  apply entry_result_bind; [apply entry_result_of_option|]. intros fileName _.
  apply entry_result_bind; [apply entry_result_of_option|]. intros extension _.
  apply entry_result_bind; [|intros; apply entry_result_write_blocks].
  unfold Dumprom.open. destruct (can_write h _); [exact I|].
  split; reflexivity.
Qed.

(** With [dir_entries] below 255 and enough fuel, the walk ends. *)
Lemma dir_loop_ends (fuel : nat) :
  forall nd h rom fileBase de dirNo out,
    Dumprom.hdr_dir_entries rom = Ok de -> de <= 254 ->
    0 <= dirNo <= de + 1 ->
    (Z.to_nat (de + 1 - dirNo) < fuel)%nat ->
    entry_result (Dumprom.dir_loop fuel nd h rom fileBase dirNo out).
Proof.
  induction fuel as [|fuel IH]; intros nd h rom fileBase de dirNo out Hde Hm Hd Hf;
    [lia|].
  cbn [Dumprom.dir_loop]. rewrite Hde. cbn [bind].
  destruct (Z.leb_spec dirNo de) as [Hle|Hgt]; [|exact I].
  apply entry_result_bind; [apply entry_result_visit_entry|].
  intros out' _.
  assert (Hu : u8 (dirNo + 1) = dirNo + 1)
    by (unfold u8; apply Z.mod_small; lia).
  rewrite Hu. apply (IH nd h rom fileBase de); try assumption; lia.
Qed.

(** What the asserts of [file_area_offset] let through. *)
Lemma file_area_offset_ok (nd : bool) (rom : list byte) (fileBase : Z) :
  Dumprom.file_area_offset nd rom = Ok fileBase ->
  exists de,
    Dumprom.hdr_dir_entries rom = Ok de /\ 0 <= de <= 255
    /\ fileBase = de * 32
    /\ (nd = false -> de mod 4 = 0 /\ de <= 0x20).
Proof.
  unfold Dumprom.file_area_offset, Dumprom.hdr_dir_entries.
  destruct (load_opt rom Hdr.dir_entries) as [b|]; cbn [of_option bind];
    [|discriminate].
  pose proof (Z_of_byte_range b) as Hb.
  unfold Dumprom.assert. intros E. exists (Z_of_byte b).
  split; [reflexivity|]. split; [lia|].
  destruct nd.
  - apply Ok_inj in E. split; [unfold sizeof_DirEntry in E; lia | discriminate].
  - destruct (Z.eqb_spec (Z_of_byte b mod 4) 0) as [Hm|]; [|discriminate].
    destruct (Z.geb_spec (Z_of_byte b) 0); cbn [andb] in E; [|discriminate].
    destruct (Z.leb_spec (Z_of_byte b) 32) as [Hle|]; [|discriminate].
    apply Ok_inj in E.
    split; [unfold sizeof_DirEntry in E; lia|]. intros _. split; assumption.
Qed.

Lemma entry_result_file_area_offset (nd : bool) (rom : list byte) :
  entry_result (Dumprom.file_area_offset nd rom).
Proof.
  unfold Dumprom.file_area_offset, Dumprom.hdr_dir_entries.
  apply entry_result_bind.
  - apply entry_result_bind; [apply entry_result_of_option|]. intros; exact I.
  - intros de _. do 2 apply entry_result_assert. exact I.
Qed.

(** The part of [dump_files] after the identification check. *)
Lemma walk_ends (nd : bool) (h : host) (rom : list byte) :
  (nd = true -> load_opt rom Hdr.dir_entries <> Some xff) ->
  entry_result
    (fileBase <- Dumprom.file_area_offset nd rom ;;
     out <- Dumprom.dir_loop Dumprom.loop_fuel nd h rom fileBase 1
              (Dumprom.mkOut [] None) ;;
     Ok (Dumprom.written (Dumprom.close out))).
Proof.
  intros Hnd.
  apply entry_result_bind; [apply entry_result_file_area_offset|].
  intros fileBase Ef.
  destruct (file_area_offset_ok nd rom fileBase Ef) as (de & Hde & Hr & _ & Ha).
  apply entry_result_bind; [|intros; exact I].
  assert (Hm : de <= 254).
  { destruct nd.
    - destruct (Z.eq_dec de 255) as [->|]; [|lia].
      exfalso. apply Hnd; [reflexivity|].
      unfold Dumprom.hdr_dir_entries in Hde.
      destruct (load_opt rom Hdr.dir_entries) as [b|]; [|discriminate].
      cbn [of_option bind] in Hde. apply Ok_inj in Hde.
      f_equal. rewrite <- (byte_of_Z_of_byte b), Hde. reflexivity.
    - destruct (Ha eq_refl). lia. }
  apply (dir_loop_ends _ nd h rom fileBase de); try assumption; try lia.
  unfold Dumprom.loop_fuel. lia.
Qed.

(** X8: the unpacker's directory loop fails to end only in a build without
    assertions and on an image whose [dir_entries] byte is 255; the build
    with assertions ends on every image. *)
Theorem unpacker_loops_only_without_asserts_on_255 (nd : bool) (h : host)
    (rom : list byte) :
  Dumprom.dump_files nd h rom = Diverges ->
  nd = true /\ load_opt rom Hdr.dir_entries = Some xff.
Proof.
  intros E.
  assert (Hnot : ~ (nd = true -> load_opt rom Hdr.dir_entries <> Some xff)).
  { intros Hnd. pose proof (walk_ends nd h rom Hnd) as W.
    unfold Dumprom.dump_files, Dumprom.rd in E.
    destruct (load_opt rom (Hdr.id + 0)) as [id0|]; cbn [of_option bind] in E;
      [|discriminate].
    destruct (negb (Byte.eqb id0 xe5)).
    - destruct (load_opt rom (Hdr.id + 1)) as [id1|]; cbn [of_option bind] in E;
        [|discriminate].
      destruct (negb (Byte.eqb id1 x37)); [discriminate|].
      rewrite E in W. exact W.
    - cbn [bind] in E. rewrite E in W. exact W. }
  destruct nd.
  - split; [reflexivity|].
    destruct (load_opt rom Hdr.dir_entries) as [b|].
    + destruct (Byte.byte_eq_dec b xff) as [->|N]; [reflexivity|].
      exfalso. apply Hnot. intros _ Hb. apply N. congruence.
    + exfalso. apply Hnot. intros _. discriminate.
  - exfalso. apply Hnot. discriminate.
Qed.

Lemma unpacker_loops_only_without_asserts_on_255_witness :
  Dumprom.dump_files true no_files endless_directory = Diverges
  /\ load_opt endless_directory Hdr.dir_entries = Some xff.
Proof.
  assert (E : Dumprom.dump_files true no_files endless_directory = Diverges)
    by (vm_compute; reflexivity).
  split; [exact E|].
  exact (proj2 (unpacker_loops_only_without_asserts_on_255 true no_files
                  endless_directory E)).
Defined.

(** With [dir_entries = 255] the guard [dirNo <= dir_entries] holds for
    every value of the [uint8_t] counter. *)
Lemma dir_loop_255 (fuel : nat) :
  forall nd h rom fileBase dirNo out out',
    Dumprom.hdr_dir_entries rom = Ok 255 -> 0 <= dirNo <= 255 ->
    Dumprom.dir_loop fuel nd h rom fileBase dirNo out <> Ok out'.
Proof.
  induction fuel as [|fuel IH]; intros nd h rom fileBase dirNo out out' Hde Hd;
    [discriminate|].
  cbn [Dumprom.dir_loop]. rewrite Hde. cbn [bind].
  destruct (Z.leb_spec dirNo 255) as [_|?]; [|lia].
  destruct (Dumprom.visit_entry nd h rom fileBase dirNo out) as [o| | | | |];
    cbn [bind]; try discriminate.
  apply IH; [exact Hde|]. unfold u8.
  pose proof (Z.mod_pos_bound (dirNo + 1) 256 ltac:(lia)). lia.
Qed.

(** X9: on an image whose [dir_entries] byte is 255 the build without
    assertions never ends normally, whatever the number of loop iterations
    allowed: the loop guard cannot fail. *)
Theorem walk_of_255_entries_never_ends_normally (h : host) (rom : list byte) :
  load_opt rom Hdr.dir_entries = Some xff ->
  (forall fuel fileBase dirNo out out',
     0 <= dirNo <= 255 ->
     Dumprom.dir_loop fuel true h rom fileBase dirNo out <> Ok out')
  /\ forall files, Dumprom.dump_files true h rom <> Ok files.
Proof.
  intros Hb.
  assert (Hde : Dumprom.hdr_dir_entries rom = Ok 255)
    by (unfold Dumprom.hdr_dir_entries; rewrite Hb; reflexivity).
  split.
  - intros fuel fileBase dirNo out out' Hd. apply dir_loop_255; assumption.
  - intros files E. unfold Dumprom.dump_files in E.
    destruct (Dumprom.rd rom (Hdr.id + 0)) as [id0| | | | |];
      cbn [bind] in E; try discriminate.
    match type of E with
    | bind ?m _ = _ => destruct m as [[|]| | | | |]; cbn [bind] in E;
                       try discriminate
    end.
    destruct (Dumprom.file_area_offset true rom) as [fb| | | | |];
      cbn [bind] in E; try discriminate.
    destruct (Dumprom.dir_loop Dumprom.loop_fuel true h rom fb 1
                (Dumprom.mkOut [] None)) as [o| | | | |] eqn:El;
      cbn [bind] in E; try discriminate.
    exact (dir_loop_255 Dumprom.loop_fuel true h rom fb 1
             (Dumprom.mkOut [] None) o Hde ltac:(lia) El).
Qed.

Lemma walk_of_255_entries_never_ends_normally_witness :
  load_opt endless_directory Hdr.dir_entries = Some xff
  /\ forall files, Dumprom.dump_files true no_files endless_directory <> Ok files.
Proof.
  split; [reflexivity|].
  exact (proj2 (walk_of_255_entries_never_ends_normally no_files
                  endless_directory eq_refl)).
Defined.

(** The walk ends, or its loop does not; it gives no other "fatal" message
    than the one of a failed [open]. *)
Lemma dir_loop_result (fuel : nat) :
  forall nd h rom fileBase dirNo out,
    Dumprom.dir_loop fuel nd h rom fileBase dirNo out = Diverges
    \/ entry_result (Dumprom.dir_loop fuel nd h rom fileBase dirNo out).
Proof.
  induction fuel as [|fuel IH]; intros nd h rom fileBase dirNo out;
    [left; reflexivity|].
  cbn [Dumprom.dir_loop].
  assert (Hh : entry_result (Dumprom.hdr_dir_entries rom)).
  { unfold Dumprom.hdr_dir_entries.
    apply entry_result_bind; [apply entry_result_of_option|]. intros; exact I. }
  destruct (Dumprom.hdr_dir_entries rom) as [de| | | | |];
    cbn [bind entry_result] in *; try tauto.
  destruct (dirNo <=? de); [|right; exact I].
  pose proof (entry_result_visit_entry nd h rom fileBase dirNo out) as V.
  destruct (Dumprom.visit_entry nd h rom fileBase dirNo out);
    cbn [bind entry_result] in *; try tauto.
  apply IH.
Qed.

Lemma walk_fatal_message (nd : bool) (h : host) (rom : list byte)
    (msg : string) (param : option string) :
  (fileBase <- Dumprom.file_area_offset nd rom ;;
   out <- Dumprom.dir_loop Dumprom.loop_fuel nd h rom fileBase 1
            (Dumprom.mkOut [] None) ;;
   Ok (Dumprom.written (Dumprom.close out))) = Fatal msg param ->
  msg = "Could not open output file."%string.
Proof.
  intros E.
  pose proof (entry_result_file_area_offset nd rom) as F.
  destruct (Dumprom.file_area_offset nd rom) as [fb|m p| | | |];
    cbn [bind entry_result] in *; try discriminate.
  - destruct (dir_loop_result Dumprom.loop_fuel nd h rom fb 1
                (Dumprom.mkOut [] None)) as [D|R].
    + rewrite D in E. discriminate.
    + destruct (Dumprom.dir_loop Dumprom.loop_fuel nd h rom fb 1
                  (Dumprom.mkOut [] None)) as [o|m p| | | |];
        cbn [bind entry_result] in *; try discriminate.
      injection E as <- _. tauto.
  - injection E as <- _. tauto.
Qed.

(** ** The directory check *)

Lemma no_assert_bind {A B : Type} (m : outcome A) (k : A -> outcome B) :
  no_assert m -> (forall a, no_assert (k a)) -> no_assert (bind m k).
Proof.
  intros Hm Hk. destruct m; cbn [bind no_assert] in *; auto.
Qed.

Lemma no_assert_of_option {A : Type} (o : option A) : no_assert (of_option o).
Proof. destruct o; exact I. Qed.

(** Built with [NDEBUG] an [assert] is no statement at all. *)
Lemma no_assert_ndebug {A : Type} (c : bool) (e : string) (k : outcome A) :
  no_assert k -> no_assert (Dumprom.assert true c e k).
Proof. intros H. exact H. Qed.

Lemma no_assert_hdr_dir_entries (rom : list byte) :
  no_assert (Dumprom.hdr_dir_entries rom).
Proof.
  unfold Dumprom.hdr_dir_entries.
  apply no_assert_bind; [apply no_assert_of_option|]. intros; exact I.
Qed.

Lemma no_assert_write_blocks (n : nat) :
  forall rom fileBase dir i out,
    no_assert (Dumprom.write_blocks n true rom fileBase dir i out).
Proof.
  induction n as [|n IH]; intros rom fileBase dir i out; [exact I|].
  cbn [Dumprom.write_blocks].
  apply no_assert_bind; [apply no_assert_of_option|]. intros b.
  apply no_assert_bind; [|intros out'; apply IH].
  destruct (negb (Byte.eqb b x00)); [|exact I].
  apply no_assert_bind;
    [unfold Dumprom.block_address; apply no_assert_ndebug; exact I|].
  intros addr.
  apply no_assert_bind; [apply no_assert_of_option|].
  intros data. exact I.
Qed.

Lemma no_assert_visit_entry (h : host) (rom : list byte)
    (fileBase dirNo : Z) (out : Dumprom.ofstream) :
  no_assert (Dumprom.visit_entry true h rom fileBase dirNo out).
Proof.
  unfold Dumprom.visit_entry.
  apply no_assert_bind.
  { unfold Dumprom.dir_entry_offset. apply no_assert_ndebug.
    apply no_assert_bind; [apply no_assert_hdr_dir_entries|].
    intros de. apply no_assert_ndebug. exact I. }
  intros dir.
  apply no_assert_bind; [apply no_assert_of_option|]. intros validity.
  destruct (Byte.eqb validity x00); [|exact I].
  apply no_assert_bind; [apply no_assert_of_option|]. intros le.
  destruct (Byte.eqb le x00); [|apply no_assert_write_blocks].
  apply no_assert_bind; [apply no_assert_of_option|]. intros fileName.
  apply no_assert_bind; [apply no_assert_of_option|]. intros extension.
  apply no_assert_bind; [|intros; apply no_assert_write_blocks].
  unfold Dumprom.open. destruct (can_write h _); exact I.
Qed.

Lemma no_assert_dir_loop (fuel : nat) :
  forall h rom fileBase dirNo out,
    no_assert (Dumprom.dir_loop fuel true h rom fileBase dirNo out).
Proof.
  induction fuel as [|fuel IH]; intros h rom fileBase dirNo out; [exact I|].
  cbn [Dumprom.dir_loop].
  apply no_assert_bind; [apply no_assert_hdr_dir_entries|]. intros de.
  destruct (dirNo <=? de); [|exact I].
  apply no_assert_bind; [apply no_assert_visit_entry|]. intros out'. apply IH.
Qed.

(** C8 (amended): an image with both identification bytes whose
    [dir_entries] is above 0x20 or not a multiple of 4.  Built with
    assertions the unpacker stops on a failed [assert] of
    [file_area_offset], before any file is written.  Built with [NDEBUG] it
    makes no check of [dir_entries]: [file_area_offset] returns
    [dir_entries * 32], the directory walk is entered with it, and no
    [assert] can stop the run.  In neither build is there a "fatal" message
    about the directory: the only one a run on such an image can end with
    is "Could not open output file.". *)
Theorem corrupt_directory_stops_on_assert (h : host) (rom : list byte)
    (de : byte) :
  load_opt rom 0 = Some xe5 -> load_opt rom 1 = Some x37 ->
  load_opt rom Hdr.dir_entries = Some de ->
  0x20 < Z_of_byte de \/ Z_of_byte de mod 4 <> 0 ->
  (Dumprom.dump_files false h rom = AssertFail "hdr->dir_entries%4 == 0"
   \/ Dumprom.dump_files false h rom
      = AssertFail "hdr->dir_entries >= 0 && hdr->dir_entries <=0x20")
  /\ Dumprom.file_area_offset true rom = Ok (Z_of_byte de * 32)
  /\ Dumprom.dump_files true h rom
     = (out <- Dumprom.dir_loop Dumprom.loop_fuel true h rom
                 (Z_of_byte de * 32) 1 (Dumprom.mkOut [] None) ;;
        Ok (Dumprom.written (Dumprom.close out)))
  /\ (forall e, Dumprom.dump_files true h rom <> AssertFail e)
  /\ (forall nd msg param,
        Dumprom.dump_files nd h rom = Fatal msg param ->
        msg = "Could not open output file."%string).
Proof.
  intros H0 H1 Hde Hbad.
  assert (Hid : xe5 = xe5 \/ x37 = x37) by (left; reflexivity).
  assert (Hoff : Dumprom.file_area_offset true rom = Ok (Z_of_byte de * 32)).
  { unfold Dumprom.file_area_offset, Dumprom.hdr_dir_entries.
    rewrite Hde. cbn [of_option bind]. unfold Dumprom.assert, sizeof_DirEntry.
    reflexivity. }
  assert (Hwalk : Dumprom.dump_files true h rom
                  = (out <- Dumprom.dir_loop Dumprom.loop_fuel true h rom
                              (Z_of_byte de * 32) 1 (Dumprom.mkOut [] None) ;;
                     Ok (Dumprom.written (Dumprom.close out)))).
  { rewrite (magic_check_passes true h rom xe5 x37 H0 H1 Hid).
    rewrite Hoff. reflexivity. }
  split.
  { rewrite (magic_check_passes false h rom xe5 x37 H0 H1 Hid).
    unfold Dumprom.file_area_offset, Dumprom.hdr_dir_entries.
    rewrite Hde. cbn [of_option bind]. unfold Dumprom.assert.
    destruct (Z.eqb_spec (Z_of_byte de mod 4) 0) as [Hm|Hm].
    - right.
      destruct (Z.leb_spec (Z_of_byte de) 32) as [Hle|Hgt]; [lia|].
      rewrite andb_false_r. reflexivity.
    - left. reflexivity. }
  split; [exact Hoff|]. split; [exact Hwalk|]. split.
  { intros e E. rewrite Hwalk in E.
    pose proof (no_assert_dir_loop Dumprom.loop_fuel h rom (Z_of_byte de * 32)
                  1 (Dumprom.mkOut [] None)) as N.
    destruct (Dumprom.dir_loop Dumprom.loop_fuel true h rom
                (Z_of_byte de * 32) 1 (Dumprom.mkOut [] None));
      cbn [bind no_assert] in *; try discriminate. exact N. }
  intros nd msg param E.
  rewrite (magic_check_passes nd h rom xe5 x37 H0 H1 Hid) in E.
  exact (walk_fatal_message nd h rom msg param E).
Qed.

Lemma corrupt_directory_stops_on_assert_witness :
  load_opt odd_directory 0 = Some xe5
  /\ load_opt odd_directory 1 = Some x37
  /\ load_opt odd_directory Hdr.dir_entries = Some x05
  /\ Z_of_byte x05 mod 4 <> 0
  /\ (Dumprom.dump_files false no_files odd_directory
      = AssertFail "hdr->dir_entries%4 == 0"
      \/ Dumprom.dump_files false no_files odd_directory
         = AssertFail "hdr->dir_entries >= 0 && hdr->dir_entries <=0x20")
  /\ Dumprom.file_area_offset true odd_directory = Ok (Z_of_byte x05 * 32)
  /\ forall e, Dumprom.dump_files true no_files odd_directory <> AssertFail e.
Proof.
  assert (H : Z_of_byte x05 mod 4 <> 0) by (vm_compute; discriminate).
  split; [reflexivity|]. split; [reflexivity|]. split; [reflexivity|].
  split; [exact H|].
  destruct (corrupt_directory_stops_on_assert no_files odd_directory x05
              eq_refl eq_refl eq_refl (or_intror H))
    as (A & O & _ & N & _).
  split; [exact A|]. split; [exact O | exact N].
Defined.

(** X10: when the two identification bytes can be read, the unpacker stops
    with "Not a valid rom file." exactly when both differ from 0xE5 and
    0x37; no later step gives that message. *)
Theorem not_a_rom_exactly (nd : bool) (h : host) (rom : list byte)
    (id0 id1 : byte) :
  load_opt rom 0 = Some id0 -> load_opt rom 1 = Some id1 ->
  (Dumprom.dump_files nd h rom = Fatal "Not a valid rom file." None
   <-> id0 <> xe5 /\ id1 <> x37).
Proof.
  intros H0 H1. split.
  - intros E.
    assert (Hpass : id0 = xe5 \/ id1 = x37 -> False).
    { intros Hid.
      rewrite (magic_check_passes nd h rom id0 id1 H0 H1 Hid) in E.
      apply walk_fatal_message in E. discriminate. }
    destruct (Byte.byte_eq_dec id0 xe5) as [E0|N0]; [tauto|].
    destruct (Byte.byte_eq_dec id1 x37) as [E1|N1]; [tauto|].
    split; assumption.
  - intros [N0 N1]. apply (magic_check_refuses nd h rom id0 id1); assumption.
Qed.

Lemma not_a_rom_exactly_witness :
  load_opt (repeat xff 64) 0 = Some xff /\ load_opt (repeat xff 64) 1 = Some xff
  /\ Dumprom.dump_files false no_files (repeat xff 64)
     = Fatal "Not a valid rom file." None.
Proof.
  split; [reflexivity|]. split; [reflexivity|].
  apply (proj2 (not_a_rom_exactly false no_files (repeat xff 64) xff xff
                  eq_refl eq_refl)).
  split; discriminate.
Defined.

(** ** Files the unpacker writes *)

Lemma whole_blocks_fs_put (name : string) (data : list byte)
    (fs : list (string * list byte)) :
  whole_blocks fs -> zlen data mod 1024 = 0 ->
  whole_blocks (Dumprom.fs_put name data fs).
Proof.
  unfold whole_blocks. intros Hfs Hd.
  induction fs as [|[n d] r IH]; cbn [Dumprom.fs_put].
  - constructor; [exact Hd | constructor].
  - inversion Hfs as [|? ? Hh Ht]; subst.
    destruct (String.eqb n name); constructor; cbn [snd] in *; auto.
Qed.

Lemma whole_blocks_fs_get (name : string) (fs : list (string * list byte))
    (d : list byte) :
  whole_blocks fs -> Dumprom.fs_get name fs = Some d -> zlen d mod 1024 = 0.
Proof.
  unfold whole_blocks. intros Hfs.
  induction fs as [|[n d'] r IH]; cbn [Dumprom.fs_get]; [discriminate|].
  inversion Hfs as [|? ? Hh Ht]; subst.
  destruct (String.eqb n name); [|auto].
  intros E. injection E as <-. exact Hh.
Qed.

Lemma whole_blocks_write (data : list byte) (out : Dumprom.ofstream) :
  whole_blocks (Dumprom.written out) -> zlen data = 1024 ->
  whole_blocks (Dumprom.written (Dumprom.write data out)).
Proof.
  intros Hw Hd. unfold Dumprom.write.
  destruct (Dumprom.handle out) as [path|]; [|exact Hw].
  destruct (Dumprom.fs_get path (Dumprom.written out)) as [old|] eqn:E;
    cbn [Dumprom.written]; apply whole_blocks_fs_put; try assumption.
  - rewrite zlen_app, Hd.
    pose proof (whole_blocks_fs_get _ _ _ Hw E) as Ho.
    rewrite Z.add_mod, Ho by lia. reflexivity.
  - rewrite Hd. reflexivity.
Qed.

Lemma sub_opt_length (buf : list byte) (off n : Z) (data : list byte) :
  sub_opt buf off n = Some data -> zlen data = n.
Proof.
  unfold sub_opt. intros E.
  destruct (Z.leb_spec 0 off); cbn [andb] in E; [|discriminate].
  destruct (Z.leb_spec 0 n); cbn [andb] in E; [|discriminate].
  destruct (Z.leb_spec (off + n) (zlen buf)); [|discriminate].
  injection E as <-. apply zlen_sub; assumption.
Qed.

Lemma whole_blocks_write_blocks (n : nat) :
  forall nd rom fileBase dir i out out',
    whole_blocks (Dumprom.written out) ->
    Dumprom.write_blocks n nd rom fileBase dir i out = Ok out' ->
    whole_blocks (Dumprom.written out').
Proof.
  induction n as [|n IH]; intros nd rom fileBase dir i out out' Hw E.
  - apply Ok_inj in E. subst out'. exact Hw.
  - cbn [Dumprom.write_blocks] in E.
    destruct (Dumprom.rd rom (dir + Ent.allocation_map + i)) as [b| | | | |];
      cbn [bind] in E; try discriminate.
    destruct (negb (Byte.eqb b x00)).
    + destruct (Dumprom.block_address nd fileBase (Z_of_byte b)) as [addr| | | | |];
        cbn [bind] in E; try discriminate.
      destruct (sub_opt rom addr 1024) as [data|] eqn:Ed;
        cbn [of_option bind] in E; try discriminate.
      apply (IH _ _ _ _ _ _ _ (whole_blocks_write data out Hw
                                 (sub_opt_length _ _ _ _ Ed)) E).
    + cbn [bind] in E. apply (IH _ _ _ _ _ _ _ Hw E).
Qed.

Lemma whole_blocks_visit_entry (nd : bool) (h : host) (rom : list byte)
    (fileBase dirNo : Z) (out out' : Dumprom.ofstream) :
  whole_blocks (Dumprom.written out) ->
  Dumprom.visit_entry nd h rom fileBase dirNo out = Ok out' ->
  whole_blocks (Dumprom.written out').
Proof.
  intros Hw E. unfold Dumprom.visit_entry in E.
  destruct (Dumprom.dir_entry_offset nd rom dirNo) as [dir| | | | |];
    cbn [bind] in E; try discriminate.
  destruct (Dumprom.rd rom (dir + Ent.validity)) as [v| | | | |];
    cbn [bind] in E; try discriminate.
  destruct (Byte.eqb v x00); [|apply Ok_inj in E; subst out'; exact Hw].
  destruct (Dumprom.rd rom (dir + Ent.logical_extent)) as [le| | | | |];
    cbn [bind] in E; try discriminate.
  destruct (Byte.eqb le x00);
    [|exact (whole_blocks_write_blocks _ _ _ _ _ _ _ _ Hw E)].
  destruct (sub_opt rom (dir + Ent.file_name) 8) as [fileName|];
    cbn [of_option bind] in E; try discriminate.
  destruct (sub_opt rom (dir + Ent.file_type) 3) as [extension|];
    cbn [of_option bind] in E; try discriminate.
  unfold Dumprom.open in E.
  destruct (can_write h _); cbn [bind] in E; try discriminate.
  refine (whole_blocks_write_blocks _ _ _ _ _ _ _ _ _ E).
  cbn [Dumprom.written Dumprom.close].
  apply whole_blocks_fs_put; [exact Hw | reflexivity].
Qed.

Lemma whole_blocks_dir_loop (fuel : nat) :
  forall nd h rom fileBase dirNo out out',
    whole_blocks (Dumprom.written out) ->
    Dumprom.dir_loop fuel nd h rom fileBase dirNo out = Ok out' ->
    whole_blocks (Dumprom.written out').
Proof.
  induction fuel as [|fuel IH]; intros nd h rom fileBase dirNo out out' Hw E;
    [discriminate|].
  cbn [Dumprom.dir_loop] in E.
  destruct (Dumprom.hdr_dir_entries rom) as [de| | | | |];
    cbn [bind] in E; try discriminate.
  destruct (dirNo <=? de); [|apply Ok_inj in E; subst out'; exact Hw].
  destruct (Dumprom.visit_entry nd h rom fileBase dirNo out) as [o| | | | |] eqn:V;
    cbn [bind] in E; try discriminate.
  exact (IH _ _ _ _ _ _ _ (whole_blocks_visit_entry _ _ _ _ _ _ _ Hw V) E).
Qed.

(** Files are created empty and grow by whole blocks: at a normal end
    every file holds a whole number of 1024-byte blocks. *)
Lemma dump_files_whole_blocks (nd : bool) (h : host)
    (rom : list byte) (files : list (string * list byte)) :
  Dumprom.dump_files nd h rom = Ok files ->
  Forall (fun f => zlen (snd f) mod 1024 = 0) files.
Proof.
  intros E. unfold Dumprom.dump_files in E.
  destruct (Dumprom.rd rom (Hdr.id + 0)) as [id0| | | | |];
    cbn [bind] in E; try discriminate.
  match type of E with
  | bind ?m _ = _ => destruct m as [[|]| | | | |]; cbn [bind] in E;
                     try discriminate
  end.
  destruct (Dumprom.file_area_offset nd rom) as [fb| | | | |];
    cbn [bind] in E; try discriminate.
  destruct (Dumprom.dir_loop Dumprom.loop_fuel nd h rom fb 1
              (Dumprom.mkOut [] None)) as [o| | | | |] eqn:El;
    cbn [bind] in E; try discriminate.
  apply Ok_inj in E. subst files. cbn [Dumprom.written Dumprom.close].
  refine (whole_blocks_dir_loop _ _ _ _ _ _ _ _ _ El). constructor.
Qed.

(** ** File names through the directory *)

Lemma list_byte_of_string_append (s1 s2 : string) :
  list_byte_of_string (s1 ++ s2)%string
  = list_byte_of_string s1 ++ list_byte_of_string s2.
Proof.
  unfold list_byte_of_string. rewrite <- map_app. f_equal.
  induction s1 as [|a s1 IH]; simpl; [reflexivity | rewrite IH; reflexivity].
Qed.

Lemma trim_space_padded (bytes : list byte) (k : nat) :
  forallb (fun b => negb (Byte.eqb b x20)) bytes = true ->
  Dumprom.trim (bytes ++ repeat x20 k) = bytes.
Proof.
  intros H. induction bytes as [|b r IH]; simpl.
  - destruct k; reflexivity.
  - simpl in H. apply andb_true_iff in H as [Hb Hr].
    apply negb_true_iff in Hb. rewrite Hb, (IH Hr). reflexivity.
Qed.

Lemma c_str_without_nul (bytes : list byte) :
  forallb (fun b => negb (Byte.eqb b x00)) bytes = true ->
  Dumprom.c_str bytes = bytes.
Proof.
  intros H. induction bytes as [|b r IH]; simpl; [reflexivity|].
  simpl in H. apply andb_true_iff in H as [Hb Hr].
  apply negb_true_iff in Hb. rewrite Hb, (IH Hr). reflexivity.
Qed.

Lemma plain_parts (s : string) :
  plain s = true ->
  forallb (fun b => negb (Byte.eqb b x20)) (list_byte_of_string s) = true
  /\ forallb (fun b => negb (Byte.eqb b x00)) (list_byte_of_string s) = true.
Proof.
  unfold plain. induction (list_byte_of_string s) as [|b r IH]; simpl;
    [auto|].
  intros H. apply andb_true_iff in H as [Hb Hr].
  apply andb_true_iff in Hb as [H1 H2]. destruct (IH Hr) as [I1 I2].
  rewrite H1, H2, I1, I2. auto.
Qed.

(** X12: for an input named NAME.EXT (1 to 8 and 1 to 3 characters, no dot
    in EXT, no space or NUL in either part) the name the unpacker opens,
    made from the two stored fields cut at their first space, is NAME.EXT
    again. *)
Theorem file_name_round_trip (name ext : string) :
  Makerom.find_last_of "."%char ext = None ->
  (1 <= String.length name <= 8)%nat -> (1 <= String.length ext <= 3)%nat ->
  plain name = true -> plain ext = true ->
  exists fileName fileType,
    Makerom.split_file_name (name ++ "." ++ ext)%string = Ok (fileName, fileType)
    /\ string_of_list_byte
         (Dumprom.c_str (Dumprom.trim fileName ++ list_byte_of_string "."
                         ++ Dumprom.trim fileType))
       = (name ++ "." ++ ext)%string.
Proof.
  intros Hdot Hn He Pn Pe.
  destruct (plain_parts name Pn) as [Sn Zn].
  destruct (plain_parts ext Pe) as [Se Ze].
  eexists _, _. split; [apply split_file_name_append; assumption|].
  rewrite !trim_space_padded by assumption.
  rewrite c_str_without_nul.
  - rewrite <- !list_byte_of_string_append.
    apply string_of_list_byte_of_string.
  - rewrite !forallb_app, Zn, Ze. reflexivity.
Qed.

Lemma file_name_round_trip_witness :
  Makerom.find_last_of "."%char "BIN" = None
  /\ (1 <= String.length "A" <= 8)%nat /\ (1 <= String.length "BIN" <= 3)%nat
  /\ plain "A" = true /\ plain "BIN" = true
  /\ exists fileName fileType,
       Makerom.split_file_name "A.BIN" = Ok (fileName, fileType)
       /\ string_of_list_byte
            (Dumprom.c_str (Dumprom.trim fileName ++ list_byte_of_string "."
                            ++ Dumprom.trim fileType))
          = "A.BIN"%string.
Proof.
  assert (H1 : (1 <= String.length "A" <= 8)%nat) by (simpl; lia).
  assert (H2 : (1 <= String.length "BIN" <= 3)%nat) by (simpl; lia).
  split; [reflexivity|]. split; [exact H1|]. split; [exact H2|].
  split; [reflexivity|]. split; [reflexivity|].
  exact (file_name_round_trip "A" "BIN" eq_refl H1 H2 eq_refl eq_refl).
Defined.

(** ** Files of whole chunks *)

(** X13: a file whose length is a multiple of 1024, the empty file
    included, is appended to the file area as it is; an empty file still
    takes one directory slot. *)
Theorem whole_chunks_are_not_padded (h : host) (path : string)
    (contents : list byte) (st st' : Makerom.pack_state) :
  read_file h path = Some contents ->
  zlen contents mod 1024 = 0 ->
  0 <= Makerom.currentDirectory st <= 31 ->
  Makerom.process_file h path st = Ok st' ->
  Makerom.file_area st' = Makerom.file_area st ++ contents
  /\ Makerom.currentDirectory st'
     = Makerom.currentDirectory st
       + Z.max 1 ((zlen contents / 1024 + 15) / 16).
Proof.
  intros Hr Hm Hcd E. split.
  - rewrite (process_file_file_area h path contents st st' Hr E).
    rewrite pad_buffer_spec.
    pose proof (zlen_nonneg contents).
    replace (Makerom.chunks_of (zlen contents) * 1024 - zlen contents) with 0
      by (unfold Makerom.chunks_of; Z.div_mod_to_equations; lia).
    simpl. rewrite app_nil_r. reflexivity.
  - destruct (process_file_slots h path st Hcd) as (_ & P2 & _).
    destruct (P2 st' E) as [C _]. rewrite C.
    unfold slots_for. rewrite Hr. unfold slots_of, Makerom.chunks_of.
    pose proof (zlen_nonneg contents).
    do 3 f_equal. Z.div_mod_to_equations. lia.
Qed.

Lemma whole_chunks_are_not_padded_witness :
  read_file one_empty_file "E.BIN" = Some []
  /\ zlen (@nil byte) mod 1024 = 0
  /\ 0 <= Makerom.currentDirectory (Makerom.init_state "out.rom") <= 31
  /\ Makerom.process_file one_empty_file "E.BIN" (Makerom.init_state "out.rom")
     = Ok after_empty_file
  /\ Makerom.file_area after_empty_file = [] ++ []
  /\ Makerom.currentDirectory after_empty_file = 0 + 1.
Proof.
  assert (H3 : 0 <= Makerom.currentDirectory (Makerom.init_state "out.rom") <= 31)
    by (vm_compute; split; discriminate).
  assert (H4 : Makerom.process_file one_empty_file "E.BIN"
                 (Makerom.init_state "out.rom") = Ok after_empty_file)
    by (vm_compute; reflexivity).
  split; [reflexivity|]. split; [reflexivity|]. split; [exact H3|].
  split; [exact H4|].
  exact (whole_chunks_are_not_padded one_empty_file "E.BIN" []
           (Makerom.init_state "out.rom") after_empty_file
           eq_refl eq_refl H3 H4).
Defined.

(** ** Which directory bytes a file changes *)

Lemma same_outside_refl (lo hi : Z) (d : list byte) : same_outside lo hi d d.
Proof. split; auto. Qed.

Lemma same_outside_trans (lo hi : Z) (d1 d2 d3 : list byte) :
  same_outside lo hi d1 d2 -> same_outside lo hi d2 d3 ->
  same_outside lo hi d1 d3.
Proof.
  intros [L1 H1] [L2 H2]. split; [congruence|].
  intros i Hi Ho. rewrite H2, H1; auto.
Qed.

Lemma same_outside_weaken (lo hi lo' hi' : Z) (d d' : list byte) :
  lo' <= lo -> hi <= hi' -> same_outside lo hi d d' ->
  same_outside lo' hi' d d'.
Proof.
  intros Hl Hh [L H]. split; [exact L|].
  intros i Hi Ho. apply H; lia.
Qed.

Lemma same_outside_memcpy (lo hi : Z) (d : list byte) (off : Z)
    (src : list byte) :
  0 <= off -> lo <= off -> off + zlen src <= hi -> off + zlen src <= zlen d ->
  same_outside lo hi d (memcpy d off src).
Proof.
  intros H0 Hl Hh Hf. split.
  - apply zlen_memcpy; lia.
  - intros i Hi Ho. apply load_memcpy_out; lia.
Qed.

Lemma same_outside_store (lo hi : Z) (d : list byte) (off : Z) (b : byte) :
  0 <= off -> lo <= off -> off + 1 <= hi -> off < zlen d ->
  same_outside lo hi d (store d off b).
Proof.
  intros. unfold store. apply same_outside_memcpy; unfold zlen in *; simpl; lia.
Qed.

Lemma same_outside_reserve_entry (dir : list byte) (cd : Z)
    (name type : list byte) (extent : Z) :
  zlen dir = 1024 -> 0 <= cd <= 31 ->
  same_outside (cd * 32) (cd * 32 + 32) dir
    (Makerom.reserve_entry dir cd name type extent).
Proof.
  intros Hl Hcd. unfold Makerom.reserve_entry.
  unfold sizeof_DirEntry, Ent.file_name, Ent.file_type, Ent.logical_extent.
  pose proof (zlen_sub_le name 0 8 ltac:(lia)) as Hn.
  pose proof (zlen_nonneg (sub name 0 8)) as Hn0.
  pose proof (zlen_sub_le type 0 3 ltac:(lia)) as Ht.
  pose proof (zlen_nonneg (sub type 0 3)) as Ht0.
  assert (F1 : same_outside (cd * 32) (cd * 32 + 32) dir
                 (memset dir (cd * 32) x00 32)).
  { unfold memset. apply same_outside_memcpy; rewrite ?zlen_repeat; lia. }
  eapply same_outside_trans; [exact F1|]. destruct F1 as [L1 _].
  match goal with |- same_outside _ _ ?d (store (memcpy (memcpy ?d _ ?a) _ ?b) _ _) =>
    assert (F2 : same_outside (cd * 32) (cd * 32 + 32) d
                   (memcpy d (cd * 32 + 1) a))
      by (apply same_outside_memcpy; lia);
    destruct (F2) as [L2 _];
    assert (F3 : same_outside (cd * 32) (cd * 32 + 32)
                   (memcpy d (cd * 32 + 1) a)
                   (memcpy (memcpy d (cd * 32 + 1) a) (cd * 32 + 9) b))
      by (apply same_outside_memcpy; lia);
    destruct (F3) as [L3 _]
  end.
  eapply same_outside_trans; [exact F2|].
  eapply same_outside_trans; [exact F3|].
  apply same_outside_store; lia.
Qed.

(** One chunk: the record count and one allocation byte of slot [cd]. *)
Lemma same_outside_chunk (dir : list byte) (cd ai : Z) (rc na : byte) :
  zlen dir = 1024 -> 0 <= cd <= 31 -> 0 <= ai < 16 ->
  same_outside (cd * 32) (cd * 32 + 32) dir
    (store (store dir (cd * 32 + 15) rc) (cd * 32 + 16 + ai) na).
Proof.
  intros Hl Hcd Hai.
  assert (F1 : same_outside (cd * 32) (cd * 32 + 32) dir
                 (store dir (cd * 32 + 15) rc))
    by (apply same_outside_store; lia).
  eapply same_outside_trans; [exact F1|]. destruct F1 as [L1 _].
  apply same_outside_store; lia.
Qed.

Lemma chunk_loop_same_outside (n : nat) :
  forall name type buffer st ai nle fao bo st',
    zlen (Makerom.directory st) = 1024 ->
    0 <= Makerom.currentDirectory st <= 31 -> 0 <= ai <= 16 ->
    Makerom.chunk_loop n name type buffer st ai nle fao bo = Ok st' ->
    same_outside (Makerom.currentDirectory st * 32)
      (Makerom.currentDirectory st' * 32 + 32)
      (Makerom.directory st) (Makerom.directory st')
    /\ Makerom.currentDirectory st <= Makerom.currentDirectory st' <= 31.
Proof.
  induction n as [|n IH]; intros name type buffer st ai nle fao bo st' Hl Hcd Hai E.
  - simpl in E. apply Ok_inj in E. subst st'.
    split; [apply same_outside_refl | lia].
  - cbn [Makerom.chunk_loop] in E.
    unfold sizeof_DirEntry, Ent.record_count, Ent.allocation_map in E.
    destruct (Z.geb_spec ai 16) as [Hfull|Hroom].
    + rewrite bump_directory_spec in E by lia.
      destruct (Z.leb_spec (Makerom.currentDirectory st + 1) 31) as [Hle|Hgt];
        cbn [bind] in E; [|discriminate].
      cbn [Makerom.directory Makerom.currentDirectory Makerom.file_area
             Makerom.nextAllocation] in E.
      set (cd := Makerom.currentDirectory st) in *.
      pose proof (same_outside_reserve_entry (Makerom.directory st)
                    (cd + 1) name type nle Hl ltac:(lia)) as F0.
      set (d0 := Makerom.reserve_entry _ _ _ _ _) in *.
      destruct (F0) as [L0 _].
      pose proof (same_outside_chunk d0 (cd + 1) 0
                    (byte_of_Z (Z_of_byte (load d0 ((cd + 1) * 32 + 15)) + 1024 / 128))
                    (byte_of_Z (Makerom.nextAllocation st))
                    ltac:(lia) ltac:(lia) ltac:(lia)) as F1.
      destruct (F1) as [L1 _].
      apply IH in E; cbn [Makerom.directory Makerom.currentDirectory];
        try lia.
      cbn [Makerom.directory Makerom.currentDirectory] in E.
      destruct E as [F2 C]. split; [|lia].
      eapply same_outside_trans;
        [eapply same_outside_weaken; [| |exact F0]; lia|].
      eapply same_outside_trans;
        [eapply same_outside_weaken; [| |exact F1]; lia|].
      eapply same_outside_weaken; [| |exact F2]; lia.
    + cbn [bind] in E.
      set (cd := Makerom.currentDirectory st) in *.
      set (d0 := Makerom.directory st) in *.
      pose proof (same_outside_chunk d0 cd ai
                    (byte_of_Z (Z_of_byte (load d0 (cd * 32 + 15)) + 1024 / 128))
                    (byte_of_Z (Makerom.nextAllocation st))
                    Hl ltac:(lia) ltac:(lia)) as F1.
      destruct (F1) as [L1 _].
      apply IH in E; cbn [Makerom.directory Makerom.currentDirectory];
        try lia.
      cbn [Makerom.directory Makerom.currentDirectory] in E.
      destruct E as [F2 C]. split; [|lia].
      eapply same_outside_trans;
        [eapply same_outside_weaken; [| |exact F1]; lia|].
      exact F2.
Qed.

Lemma process_file_same_outside (h : host) (path : string)
    (st st' : Makerom.pack_state) :
  zlen (Makerom.directory st) = 1024 ->
  0 <= Makerom.currentDirectory st <= 31 ->
  Makerom.process_file h path st = Ok st' ->
  same_outside ((Makerom.currentDirectory st + 1) * 32)
    ((Makerom.currentDirectory st' + 1) * 32)
    (Makerom.directory st) (Makerom.directory st')
  /\ Makerom.currentDirectory st + 1 <= Makerom.currentDirectory st' <= 31.
Proof.
  intros Hl Hcd E. unfold Makerom.process_file in E.
  rewrite bump_directory_spec in E by assumption.
  destruct (Z.leb_spec (Makerom.currentDirectory st + 1) 31) as [Hle|Hgt];
    cbn [bind] in E; try discriminate.
  destruct (read_file h path) as [contents|]; try discriminate.
  destruct (Makerom.split_file_name path) as [[name type]| | | | |];
    cbn [bind] in E; try discriminate.
  pose proof (same_outside_reserve_entry (Makerom.directory st)
                (Makerom.currentDirectory st + 1) name type 0 Hl ltac:(lia)) as F0.
  destruct (F0) as [L0 _].
  apply chunk_loop_same_outside in E;
    cbn [Makerom.directory Makerom.currentDirectory] in *; try lia.
  destruct E as [F1 C]. split; [|lia].
  eapply same_outside_trans;
    [eapply same_outside_weaken; [| |exact F0]; lia|].
  eapply same_outside_weaken; [| |exact F1]; lia.
Qed.

(** X14: placing one file changes only the bytes of the directory slots it
    takes, those after the slot counter it found up to the slot counter it
    leaves: the header, the entries of the files placed before and the
    slots not yet used stay as they were. *)
Theorem file_changes_its_own_slots_only (h : host) (path : string)
    (st st' : Makerom.pack_state) (i : Z) :
  zlen (Makerom.directory st) = 1024 ->
  0 <= Makerom.currentDirectory st <= 31 ->
  Makerom.process_file h path st = Ok st' ->
  0 <= i ->
  i < (Makerom.currentDirectory st + 1) * 32
  \/ (Makerom.currentDirectory st' + 1) * 32 <= i ->
  zlen (Makerom.directory st') = 1024
  /\ load (Makerom.directory st') i = load (Makerom.directory st) i.
Proof.
  intros Hl Hcd E Hi Ho.
  destruct (process_file_same_outside h path st st' Hl Hcd E) as [[L H] _].
  split; [lia | apply H; assumption].
Qed.

Lemma file_changes_its_own_slots_only_witness :
  zlen (Makerom.directory (Makerom.init_state "out.rom")) = 1024
  /\ 0 <= Makerom.currentDirectory (Makerom.init_state "out.rom") <= 31
  /\ Makerom.process_file two_bytes "A.BIN" (Makerom.init_state "out.rom")
     = Ok after_two_bytes
  /\ load (Makerom.directory after_two_bytes) 64
     = load (Makerom.directory (Makerom.init_state "out.rom")) 64.
Proof.
  assert (H1 : zlen (Makerom.directory (Makerom.init_state "out.rom")) = 1024)
    by (vm_compute; reflexivity).
  assert (H2 : 0 <= Makerom.currentDirectory (Makerom.init_state "out.rom") <= 31)
    by (vm_compute; split; discriminate).
  assert (H3 : Makerom.process_file two_bytes "A.BIN"
                 (Makerom.init_state "out.rom") = Ok after_two_bytes)
    by (vm_compute; reflexivity).
  assert (H4 : 0 <= 64) by lia.
  assert (H5 : 64 < (Makerom.currentDirectory (Makerom.init_state "out.rom") + 1) * 32
               \/ (Makerom.currentDirectory after_two_bytes + 1) * 32 <= 64)
    by (right; vm_compute; discriminate).
  split; [exact H1|]. split; [exact H2|]. split; [exact H3|].
  exact (proj2 (file_changes_its_own_slots_only two_bytes "A.BIN"
                  (Makerom.init_state "out.rom") after_two_bytes 64
                  H1 H2 H3 H4 H5)).
Defined.

(** ** The directory entries of a file *)

Ltac split_conditions :=
  repeat match goal with
  | |- context [Z.eqb ?a ?b] => destruct (Z.eqb_spec a b)
  | |- context [Z.leb ?a ?b] => destruct (Z.leb_spec a b)
  | |- context [Z.ltb ?a ?b] => destruct (Z.ltb_spec a b)
  end.

Lemma byte_of_Z_congr (z1 z2 : Z) :
  z1 mod 256 = z2 mod 256 -> byte_of_Z z1 = byte_of_Z z2.
Proof. intros H. unfold byte_of_Z. rewrite H. reflexivity. Qed.

Lemma sub_all (l : list byte) (n : Z) : zlen l = n -> sub l 0 n = l.
Proof.
  intros H. unfold sub, zlen in *. simpl.
  apply firstn_all2. lia.
Qed.

(** A chunk more changes the record count of the entry it goes to and one
    byte of its allocation map. *)
Lemma entry_byte_next (name type : list byte) (a k j o : Z) :
  0 <= o < 32 ->
  o <> 15 \/ 16 <= k - 16 * j -> o < 16 \/ 16 * j + (o - 16) <> k ->
  entry_byte name type a (k + 1) j o = entry_byte name type a k j o.
Proof.
  intros Ho H15 Hm. unfold entry_byte.
  split_conditions; try lia; try reflexivity.
  f_equal. lia.
Qed.

Lemma reserve_entry_loads (dir : list byte) (cd : Z) (name type : list byte)
    (ext a o : Z) :
  zlen dir = 1024 -> 0 <= cd <= 31 -> zlen name = 8 -> zlen type = 3 ->
  0 <= o < 32 ->
  load (Makerom.reserve_entry dir cd name type ext) (cd * 32 + o)
  = entry_byte name type a (16 * ext) ext o.
Proof.
  intros Hl Hcd Hn Ht Ho. unfold Makerom.reserve_entry.
  unfold sizeof_DirEntry, Ent.file_name, Ent.file_type, Ent.logical_extent.
  rewrite (sub_all name 8 Hn), (sub_all type 3 Ht).
  set (d1 := memset dir (cd * 32) x00 32).
  assert (L1 : zlen d1 = 1024)
    by (subst d1; rewrite zlen_memset; lia).
  set (d2 := memcpy d1 (cd * 32 + 1) name).
  assert (L2 : zlen d2 = 1024) by (subst d2; rewrite zlen_memcpy; lia).
  set (d3 := memcpy d2 (cd * 32 + 9) type).
  assert (L3 : zlen d3 = 1024) by (subst d3; rewrite zlen_memcpy; lia).
  unfold entry_byte.
  replace (16 * ext - 16 * ext) with 0 by lia.
  destruct (Z.eq_dec o 12) as [->|N12].
  { rewrite load_store_same by lia. reflexivity. }
  rewrite load_store_other by lia.
  destruct (Z_le_gt_dec 9 o) as [H9|H9];
    [destruct (Z_le_gt_dec o 11) as [H11|H11]|].
  - subst d3. rewrite load_memcpy_in by lia.
    split_conditions; try lia. unfold load. do 2 f_equal. lia.
  - subst d3. rewrite load_memcpy_out by lia.
    subst d2. rewrite load_memcpy_out by lia.
    subst d1. unfold memset. rewrite load_memcpy_in by (rewrite ?zlen_repeat; lia).
    rewrite load_repeat by lia.
    split_conditions; try lia; reflexivity.
  - subst d3. rewrite load_memcpy_out by lia.
    destruct (Z.eq_dec o 0) as [->|N0].
    + subst d2. rewrite load_memcpy_out by lia.
      subst d1. unfold memset.
      rewrite load_memcpy_in by (rewrite ?zlen_repeat; lia).
      rewrite load_repeat by lia. reflexivity.
    + subst d2. rewrite load_memcpy_in by lia.
      split_conditions; try lia. unfold load. do 2 f_equal. lia.
Qed.

(** The two stores of one chunk, on an entry that holds [ai] blocks. *)
Lemma chunk_stores_entries (dir name type : list byte) (s0 a k cd ai na : Z) :
  zlen dir = 1024 -> 0 <= s0 <= cd -> cd <= 31 -> 0 <= ai < 16 ->
  k = 16 * (cd - s0) + ai ->
  na mod 256 = (a + k) mod 256 ->
  entries_hold dir name type s0 a k (cd - s0) ->
  entries_hold
    (store (store dir (cd * 32 + 15)
              (byte_of_Z (Z_of_byte (load dir (cd * 32 + 15)) + 8)))
       (cd * 32 + 16 + ai) (byte_of_Z na))
    name type s0 a (k + 1) (cd - s0).
Proof.
  intros Hl Hs Hcd Hai Hk Hna H j o Hj Ho.
  set (d1 := store dir (cd * 32 + 15) _).
  assert (L1 : zlen d1 = 1024) by (subst d1; rewrite zlen_store; lia).
  destruct (Z.eq_dec j (cd - s0)) as [Ej|Nj].
  - replace ((s0 + j) * 32 + o) with (cd * 32 + o) by lia.
    destruct (Z.eq_dec o (16 + ai)) as [->|No].
    + replace (cd * 32 + (16 + ai)) with (cd * 32 + 16 + ai) by lia.
      rewrite load_store_same by lia.
      unfold entry_byte. split_conditions; try lia.
      apply byte_of_Z_congr. rewrite Hna. f_equal. lia.
    + rewrite load_store_other by lia.
      destruct (Z.eq_dec o 15) as [->|N15].
      * subst d1. rewrite load_store_same by lia.
        specialize (H j 15 Hj ltac:(lia)).
        replace ((s0 + j) * 32 + 15) with (cd * 32 + 15) in H by lia.
        assert (E15 : forall kk, entry_byte name type a kk j 15
                                 = byte_of_Z (8 * Z.min 16 (kk - 16 * j)))
          by (intros; reflexivity).
        rewrite H, !E15, Z_of_byte_of_Z.
        replace (Z.min 16 (k - 16 * j)) with ai by lia.
        replace (Z.min 16 (k + 1 - 16 * j)) with (ai + 1) by lia.
        rewrite Z.mod_small by lia. f_equal. lia.
      * subst d1. rewrite load_store_other by lia.
        specialize (H j o Hj Ho).
        replace ((s0 + j) * 32 + o) with (cd * 32 + o) in H by lia.
        rewrite H. symmetry. apply entry_byte_next; lia.
  - rewrite load_store_other by lia.
    subst d1. rewrite load_store_other by lia.
    rewrite (H j o Hj Ho). symmetry. apply entry_byte_next; lia.
Qed.

Lemma chunk_loop_entries (n : nat) :
  forall name type buffer st ai nle fao bo st' s0 a k,
    zlen (Makerom.directory st) = 1024 -> zlen name = 8 -> zlen type = 3 ->
    0 <= s0 <= Makerom.currentDirectory st ->
    Makerom.currentDirectory st <= 31 -> 0 <= ai <= 16 ->
    nle = Makerom.currentDirectory st - s0 + 1 ->
    k = 16 * (Makerom.currentDirectory st - s0) + ai ->
    Makerom.nextAllocation st mod 256 = (a + k) mod 256 ->
    entries_hold (Makerom.directory st) name type s0 a k
      (Makerom.currentDirectory st - s0) ->
    Makerom.chunk_loop n name type buffer st ai nle fao bo = Ok st' ->
    entries_hold (Makerom.directory st') name type s0 a (k + Z.of_nat n)
      (Makerom.currentDirectory st' - s0).
Proof.
  induction n as [|n IH];
    intros name type buffer st ai nle fao bo st' s0 a k
           Hl Hn Ht Hs Hcd Hai Hnle Hk Hna H E.
  - simpl in E. apply Ok_inj in E. subst st'.
    replace (k + Z.of_nat 0) with k by lia. exact H.
  - cbn [Makerom.chunk_loop] in E.
    unfold sizeof_DirEntry, Ent.record_count, Ent.allocation_map in E.
    change (1024 / 128) with 8 in E.
    replace (k + Z.of_nat (S n)) with (k + 1 + Z.of_nat n) by lia.
    destruct (Z.geb_spec ai 16) as [Hfull|Hroom].
    + rewrite bump_directory_spec in E by lia.
      destruct (Z.leb_spec (Makerom.currentDirectory st + 1) 31) as [Hle|Hgt];
        cbn [bind] in E; [|discriminate].
      cbn [Makerom.directory Makerom.currentDirectory Makerom.file_area
             Makerom.nextAllocation] in E.
      set (cd := Makerom.currentDirectory st) in *.
      pose proof (same_outside_reserve_entry (Makerom.directory st)
                    (cd + 1) name type nle Hl ltac:(lia)) as [L0 F0].
      assert (H0 : entries_hold
                     (Makerom.reserve_entry (Makerom.directory st) (cd + 1)
                        name type nle)
                     name type s0 a k (cd + 1 - s0)).
      { intros j o Hj Ho.
        destruct (Z.eq_dec j (cd + 1 - s0)) as [Ej|Nj].
        - replace ((s0 + j) * 32 + o) with ((cd + 1) * 32 + o) by lia.
          rewrite (reserve_entry_loads _ _ _ _ _ a o) by (assumption || lia).
          f_equal; lia.
        - rewrite F0 by lia. apply H; lia. }
      set (d0 := Makerom.reserve_entry _ _ _ _ _) in *.
      eapply (IH _ _ _ _ _ _ _ _ _ s0 a (k + 1)) in E;
        cbn [Makerom.directory Makerom.currentDirectory Makerom.nextAllocation]
          in *; try assumption; try lia.
      * rewrite zlen_store; rewrite zlen_store; lia.
      * unfold u8. rewrite Z.mod_mod by lia.
        rewrite <- Zplus_mod_idemp_l, Hna, Zplus_mod_idemp_l. f_equal. lia.
      * apply (chunk_stores_entries d0 name type s0 a k (cd + 1) 0
                 (Makerom.nextAllocation st)); try assumption; lia.
    + cbn [bind] in E.
      set (cd := Makerom.currentDirectory st) in *.
      set (d0 := Makerom.directory st) in *.
      eapply (IH _ _ _ _ _ _ _ _ _ s0 a (k + 1)) in E;
        cbn [Makerom.directory Makerom.currentDirectory Makerom.nextAllocation]
          in *; try assumption; try lia.
      * rewrite zlen_store; rewrite zlen_store; lia.
      * unfold u8. rewrite Z.mod_mod by lia.
        rewrite <- Zplus_mod_idemp_l, Hna, Zplus_mod_idemp_l. f_equal. lia.
      * apply (chunk_stores_entries d0 name type s0 a k cd ai
                 (Makerom.nextAllocation st)); try assumption; lia.
Qed.

Lemma split_file_name_lengths (path : string) (name type : list byte) :
  Makerom.split_file_name path = Ok (name, type) ->
  zlen name = 8 /\ zlen type = 3.
Proof.
  unfold Makerom.split_file_name.
  destruct (Makerom.find_last_of "."%char path) as [pos|]; [|discriminate].
  set (sname := substring 0 pos path).
  set (sext := substring (S pos) (String.length path - S pos) path).
  destruct (Nat.ltb_spec (String.length sname) 1); cbn [orb]; [discriminate|].
  destruct (Nat.ltb_spec 8 (String.length sname)); cbn [orb]; [discriminate|].
  destruct (Nat.ltb_spec (String.length sext) 1); cbn [orb]; [discriminate|].
  destruct (Nat.ltb_spec 3 (String.length sext)); cbn [orb]; [discriminate|].
  intros E. apply Ok_inj in E.
  change 8 with (Z.of_nat 8) in E. change 3 with (Z.of_nat 3) in E.
  rewrite (space_padded (list_byte_of_string sname) 8),
          (space_padded (list_byte_of_string sext) 3) in E
    by (rewrite length_list_byte_of_string; lia).
  pose proof (f_equal fst E) as E1. pose proof (f_equal snd E) as E2.
  cbn [fst snd] in E1, E2. subst name type.
  rewrite !zlen_app, !zlen_repeat. unfold zlen.
  rewrite !length_list_byte_of_string. lia.
Qed.

Lemma process_file_alloc (h : host) (path : string)
    (st st' : Makerom.pack_state) (contents : list byte) :
  read_file h path = Some contents ->
  Makerom.process_file h path st = Ok st' ->
  Makerom.nextAllocation st' mod 256
  = (Makerom.nextAllocation st + Makerom.chunks_of (zlen contents)) mod 256.
Proof.
  intros Hr E. unfold Makerom.process_file in E. rewrite Hr in E.
  destruct (Makerom.bump_directory (Makerom.currentDirectory st)) as [cd| | | | |];
    cbn [bind] in E; try discriminate.
  destruct (Makerom.split_file_name path) as [[name type]| | | | |];
    cbn [bind] in E; try discriminate.
  pose proof (chunks_of_bounds (zlen contents) (zlen_nonneg _)) as [_ Hc].
  apply chunk_loop_alloc in E. cbn [Makerom.nextAllocation] in E.
  destruct E as [E|[E0 E]]; rewrite E.
  - rewrite Z.mod_mod by lia. f_equal. lia.
  - f_equal. lia.
Qed.

Lemma process_file_entries (h : host) (path : string)
    (st st' : Makerom.pack_state) (contents name type : list byte) (a : Z) :
  read_file h path = Some contents ->
  Makerom.split_file_name path = Ok (name, type) ->
  zlen (Makerom.directory st) = 1024 ->
  0 <= Makerom.currentDirectory st <= 31 ->
  Makerom.nextAllocation st mod 256 = a mod 256 ->
  Makerom.process_file h path st = Ok st' ->
  entries_hold (Makerom.directory st') name type
    (Makerom.currentDirectory st + 1) a (Makerom.chunks_of (zlen contents))
    (slots_of (zlen contents) - 1)
  /\ Makerom.currentDirectory st'
     = Makerom.currentDirectory st + slots_of (zlen contents).
Proof.
  intros Hr Hs Hl Hcd Hna E.
  destruct (split_file_name_lengths _ _ _ Hs) as [Ln Lt].
  destruct (process_file_slots h path st Hcd) as (_ & P2 & _).
  destruct (P2 st' E) as [C _]. unfold slots_for in C. rewrite Hr in C.
  split; [|exact C].
  unfold Makerom.process_file in E. rewrite Hr, Hs in E.
  rewrite bump_directory_spec in E by assumption.
  destruct (Z.leb_spec (Makerom.currentDirectory st + 1) 31) as [Hle|Hgt];
    cbn [bind] in E; try discriminate.
  set (cd := Makerom.currentDirectory st) in *.
  pose proof (chunks_of_bounds (zlen contents) (zlen_nonneg _)) as [_ Hc].
  pose proof (same_outside_reserve_entry (Makerom.directory st)
                (cd + 1) name type 0 Hl ltac:(lia)) as [L0 _].
  eapply (chunk_loop_entries _ _ _ _ _ _ _ _ _ _ (cd + 1) a 0) in E;
    cbn [Makerom.directory Makerom.currentDirectory Makerom.nextAllocation] in *;
    try assumption; try lia.
  - replace (0 + Z.of_nat (Z.to_nat (Makerom.chunks_of (zlen contents))))
      with (Makerom.chunks_of (zlen contents)) in E by lia.
    replace (slots_of (zlen contents) - 1)
      with (Makerom.currentDirectory st' - (cd + 1)) by lia.
    exact E.
  - rewrite Hna. f_equal. lia.
  - intros j o Hj Ho. assert (j = 0) as -> by lia.
    replace ((cd + 1 + 0) * 32 + o) with ((cd + 1) * 32 + o) by lia.
    apply (reserve_entry_loads _ _ _ _ 0 a o); assumption || lia.
Qed.

Lemma place_files_same_outside (h : host) (files : list string) :
  forall st st',
    zlen (Makerom.directory st) = 1024 ->
    0 <= Makerom.currentDirectory st <= 31 ->
    Makerom.place_files h files st = Ok st' ->
    same_outside ((Makerom.currentDirectory st + 1) * 32)
      ((Makerom.currentDirectory st' + 1) * 32)
      (Makerom.directory st) (Makerom.directory st')
    /\ Makerom.currentDirectory st <= Makerom.currentDirectory st' <= 31.
Proof.
  induction files as [|p r IH]; intros st st' Hl Hcd E.
  - simpl in E. apply Ok_inj in E. subst st'.
    split; [apply same_outside_refl | lia].
  - cbn [Makerom.place_files] in E.
    destruct (Makerom.process_file h p st) as [st1| | | | |] eqn:E1;
      cbn [bind] in E; try discriminate.
    destruct (process_file_same_outside h p st st1 Hl Hcd E1) as [F1 C1].
    destruct (IH st1 st' ltac:(destruct F1; lia) ltac:(lia) E) as [F2 C2].
    split; [|lia].
    eapply same_outside_trans;
      eapply same_outside_weaken; [| |exact F1| | |exact F2]; lia.
Qed.

Lemma entries_hold_same (d d' name type : list byte) (s a k last lo hi : Z) :
  same_outside lo hi d d' -> 0 <= s -> 0 <= last + 1 -> (s + last + 1) * 32 <= lo ->
  entries_hold d name type s a k last -> entries_hold d' name type s a k last.
Proof.
  intros [_ F] Hs Hlast Hlo H j o Hj Ho.
  rewrite F by lia. apply H; assumption.
Qed.

Lemma dir_holds_same (h : host) (files : list string) :
  forall s a d d' lo hi,
    same_outside lo hi d d' -> 0 <= s -> (s + slots_needed h files) * 32 <= lo ->
    dir_holds h files s a d -> dir_holds h files s a d'.
Proof.
  induction files as [|p r IH]; intros s a d d' lo hi F Hs Hlo H; [exact I|].
  cbn [dir_holds slots_needed] in *. unfold slots_for in Hlo.
  destruct (read_file h p) as [contents|]; [|contradiction].
  destruct (Makerom.split_file_name p) as [[name type]| | | | |];
    try contradiction.
  destruct H as [H1 H2].
  pose proof (slots_needed_nonneg h r) as Hr.
  assert (Hp : 1 <= slots_of (zlen contents)) by (unfold slots_of; lia).
  split.
  - apply (entries_hold_same d d' _ _ _ _ _ _ lo hi F); try assumption; lia.
  - apply (IH _ _ d d' lo hi F); try assumption; lia.
Qed.

Lemma place_files_entries (h : host) (files : list string) :
  forall st st' a,
    zlen (Makerom.directory st) = 1024 ->
    0 <= Makerom.currentDirectory st <= 31 ->
    Makerom.nextAllocation st mod 256 = a mod 256 ->
    Makerom.place_files h files st = Ok st' ->
    dir_holds h files (Makerom.currentDirectory st + 1) a (Makerom.directory st').
Proof.
  induction files as [|p r IH]; intros st st' a Hl Hcd Hna E; [exact I|].
  cbn [Makerom.place_files] in E.
  destruct (Makerom.process_file h p st) as [st1| | | | |] eqn:E1;
    cbn [bind] in E; try discriminate.
  pose proof (process_file_ok_input _ _ _ _ E1) as Hok. unfold input_ok in Hok.
  cbn [dir_holds].
  destruct (read_file h p) as [contents|] eqn:Hr; [|discriminate].
  destruct (Makerom.split_file_name p) as [[name type]| | | | |] eqn:Hs;
    try discriminate.
  destruct (process_file_entries h p st st1 contents name type a Hr Hs Hl Hcd Hna E1)
    as [H1 C1].
  destruct (process_file_same_outside h p st st1 Hl Hcd E1) as [[L1 _] B1].
  pose proof (process_file_alloc h p st st1 contents Hr E1) as A1.
  destruct (place_files_same_outside h r st1 st' ltac:(lia) ltac:(lia) E)
    as [F2 _].
  assert (Hp : 1 <= slots_of (zlen contents)) by (unfold slots_of; lia).
  split.
  - apply (entries_hold_same _ _ _ _ _ _ _ _ _ _ F2); try assumption; lia.
  - replace (Makerom.currentDirectory st + 1 + slots_of (zlen contents))
      with (Makerom.currentDirectory st1 + 1) by lia.
    apply (IH st1 st'); try assumption; try lia.
    rewrite A1, <- Zplus_mod_idemp_l, Hna, Zplus_mod_idemp_l. reflexivity.
Qed.

Lemma sub_eq_loads (buf l : list byte) (off n : Z) :
  0 <= off -> zlen l = n -> off + n <= zlen buf ->
  (forall i, 0 <= i < n -> load buf (off + i) = load l i) ->
  sub buf off n = l.
Proof.
  intros Ho Hl Hb H.
  pose proof (zlen_nonneg l) as Hn.
  apply (nth_ext _ _ x00 x00).
  - pose proof (zlen_sub buf off n Ho ltac:(lia) Hb) as L.
    unfold zlen in *. lia.
  - intros k Hk.
    pose proof (zlen_sub buf off n Ho ltac:(lia) Hb) as L. unfold zlen in L.
    pose proof (load_sub buf off n (Z.of_nat k) Ho ltac:(lia)) as E.
    specialize (H (Z.of_nat k) ltac:(lia)).
    unfold load in E, H. rewrite Nat2Z.id in E, H. rewrite E. exact H.
Qed.

Lemma entries_hold_fields (dir name type : list byte) (s a k last j : Z) :
  entries_hold dir name type s a k last ->
  zlen name = 8 -> zlen type = 3 -> 0 <= s -> 0 <= j <= last ->
  (s + j) * 32 + 32 <= zlen dir ->
  let e := (s + j) * 32 in
  load dir (e + 0) = x00
  /\ sub dir (e + 1) 8 = name /\ sub dir (e + 9) 3 = type
  /\ load dir (e + 12) = byte_of_Z j
  /\ load dir (e + 13) = x00 /\ load dir (e + 14) = x00
  /\ load dir (e + 15) = byte_of_Z (8 * Z.min 16 (k - 16 * j))
  /\ forall m, 0 <= m < 16 ->
       load dir (e + 16 + m)
       = if 16 * j + m <? k then byte_of_Z (a + 16 * j + m) else x00.
Proof.
  intros H Hn Ht Hs Hj Hfit e. subst e.
  split; [rewrite (H j 0) by lia; reflexivity|].
  split.
  { apply sub_eq_loads; try lia. intros i Hi.
    replace ((s + j) * 32 + 1 + i) with ((s + j) * 32 + (1 + i)) by lia.
    rewrite (H j (1 + i)) by lia. unfold entry_byte.
    split_conditions; try lia. unfold load. do 2 f_equal. lia. }
  split.
  { apply sub_eq_loads; try lia. intros i Hi.
    replace ((s + j) * 32 + 9 + i) with ((s + j) * 32 + (9 + i)) by lia.
    rewrite (H j (9 + i)) by lia. unfold entry_byte.
    split_conditions; try lia. unfold load. do 2 f_equal. lia. }
  split; [rewrite (H j 12) by lia; reflexivity|].
  split; [rewrite (H j 13) by lia; reflexivity|].
  split; [rewrite (H j 14) by lia; reflexivity|].
  split; [rewrite (H j 15) by lia; reflexivity|].
  intros m Hm.
  replace ((s + j) * 32 + 16 + m) with ((s + j) * 32 + (16 + m)) by lia.
  rewrite (H j (16 + m)) by lia. unfold entry_byte.
  replace (16 + m - 16) with m by lia.
  split_conditions; try lia; reflexivity.
Qed.

(** X15: the directory entries of one file.  Entry [j] (from 0) is in the
    slot [j] places after the first free one: validity 0x00, the name and
    type fields, extent number [j], two zero bytes, a record count of 8 per
    block it holds (at most 16 blocks), and an allocation map with the
    file's block numbers from the [16 j]-th on, counted up from the next
    free block number, followed by zeros. *)
Theorem directory_entries_of_a_file (h : host) (path : string)
    (st st' : Makerom.pack_state) (contents name type : list byte) (j : Z) :
  read_file h path = Some contents ->
  Makerom.split_file_name path = Ok (name, type) ->
  zlen (Makerom.directory st) = 1024 ->
  0 <= Makerom.currentDirectory st <= 31 ->
  Makerom.process_file h path st = Ok st' ->
  0 <= j < slots_of (zlen contents) ->
  let c := Makerom.chunks_of (zlen contents) in
  let e := (Makerom.currentDirectory st + 1 + j) * 32 in
  let dir := Makerom.directory st' in
  Makerom.currentDirectory st'
  = Makerom.currentDirectory st + slots_of (zlen contents)
  /\ load dir (e + 0) = x00
  /\ sub dir (e + 1) 8 = name /\ sub dir (e + 9) 3 = type
  /\ load dir (e + 12) = byte_of_Z j
  /\ load dir (e + 13) = x00 /\ load dir (e + 14) = x00
  /\ load dir (e + 15) = byte_of_Z (8 * Z.min 16 (c - 16 * j))
  /\ forall m, 0 <= m < 16 ->
       load dir (e + 16 + m)
       = if 16 * j + m <? c
         then byte_of_Z (Makerom.nextAllocation st + 16 * j + m) else x00.
Proof.
  intros Hr Hs Hl Hcd E Hj c e dir.
  destruct (process_file_entries h path st st' contents name type
              (Makerom.nextAllocation st) Hr Hs Hl Hcd eq_refl E) as [H C].
  destruct (split_file_name_lengths _ _ _ Hs) as [Ln Lt].
  destruct (process_file_same_outside h path st st' Hl Hcd E) as [[L _] B].
  split; [exact C|].
  apply (entries_hold_fields dir name type _ _ _ _ j H); try assumption; try lia.
  subst dir. lia.
Qed.

Lemma directory_entries_of_a_file_witness :
  read_file two_bytes "A.BIN" = Some [xaa; xbb]
  /\ Makerom.split_file_name "A.BIN"
     = Ok (list_byte_of_string "A       ", list_byte_of_string "BIN")
  /\ zlen (Makerom.directory (Makerom.init_state "out.rom")) = 1024
  /\ 0 <= Makerom.currentDirectory (Makerom.init_state "out.rom") <= 31
  /\ Makerom.process_file two_bytes "A.BIN" (Makerom.init_state "out.rom")
     = Ok after_two_bytes
  /\ 0 <= 0 < slots_of (zlen [xaa; xbb])
  /\ sub (Makerom.directory after_two_bytes) ((0 + 1 + 0) * 32 + 1) 8
     = list_byte_of_string "A       "
  /\ load (Makerom.directory after_two_bytes) ((0 + 1 + 0) * 32 + 15)
     = byte_of_Z (8 * Z.min 16 (1 - 16 * 0)).
Proof.
  assert (H1 : read_file two_bytes "A.BIN" = Some [xaa; xbb]) by reflexivity.
  assert (H2 : Makerom.split_file_name "A.BIN"
               = Ok (list_byte_of_string "A       ", list_byte_of_string "BIN"))
    by reflexivity.
  assert (H3 : zlen (Makerom.directory (Makerom.init_state "out.rom")) = 1024)
    by (vm_compute; reflexivity).
  assert (H4 : 0 <= Makerom.currentDirectory (Makerom.init_state "out.rom") <= 31)
    by (vm_compute; split; discriminate).
  assert (H5 : Makerom.process_file two_bytes "A.BIN"
                 (Makerom.init_state "out.rom") = Ok after_two_bytes)
    by (vm_compute; reflexivity).
  assert (H6 : 0 <= 0 < slots_of (zlen [xaa; xbb]))
    by (vm_compute; split; [discriminate | reflexivity]).
  split; [exact H1|]. split; [exact H2|]. split; [exact H3|].
  split; [exact H4|]. split; [exact H5|]. split; [exact H6|].
  destruct (directory_entries_of_a_file two_bytes "A.BIN"
              (Makerom.init_state "out.rom") after_two_bytes [xaa; xbb]
              _ _ 0 H1 H2 H3 H4 H5 H6) as (_ & _ & N & _ & _ & _ & _ & R & _).
  split; [exact N | exact R].
Defined.

(** ** Slots no file takes *)

Lemma init_directory_with_unused (romName : list byte) :
  zlen romName <= 14 ->
  skipn 32 (Makerom.init_directory_with romName) = repeat xe5 992.
Proof.
  intros H.
  do 15 (destruct romName as [|? romName]; [vm_compute; reflexivity|]).
  exfalso. unfold zlen in H. simpl in H. lia.
Qed.

Lemma init_state_unused (outName : string) (i : Z) :
  32 <= i < 1024 ->
  load (Makerom.directory (Makerom.init_state outName)) i = xe5.
Proof.
  intros Hi.
  pose proof (init_directory_with_unused _ (zlen_rom_name_bytes outName)) as U.
  assert (E : load (Makerom.directory (Makerom.init_state outName)) i
              = nth (Z.to_nat (i - 32))
                  (skipn 32 (Makerom.init_directory_with
                               (Makerom.rom_name_bytes outName))) x00).
  { rewrite nth_skipn. unfold load. f_equal. lia. }
  rewrite E, U.
  apply (repeat_spec 992 xe5). apply nth_In. rewrite repeat_length. lia.
Qed.

(** The directory after the loop: the entries of the files from slot 1 and
    block 1 on, 0xE5 in every byte of the slots after the last one used. *)
Lemma pack_directory (h : host) (outName : string) (files : list string)
    (st : Makerom.pack_state) :
  Makerom.pack h outName files = Ok st ->
  dir_holds h files 1 1 (Makerom.directory st)
  /\ forall i, (Makerom.currentDirectory st + 1) * 32 <= i < 1024 ->
               load (Makerom.directory st) i = xe5.
Proof.
  intros E. unfold Makerom.pack in E.
  destruct (init_state_ok outName) as (L0 & _ & _ & _ & C0 & _).
  assert (N0 : Makerom.nextAllocation (Makerom.init_state outName) mod 256
               = 1 mod 256) by reflexivity.
  pose proof (init_state_unused outName) as U0.
  set (st0 := Makerom.init_state outName) in *.
  pose proof (place_files_entries h files st0 st 1 L0 ltac:(lia) N0 E) as H.
  destruct (place_files_same_outside h files st0 st L0 ltac:(lia) E)
    as [[L F] C].
  rewrite C0 in H. split; [exact H|].
  intros i Hi. rewrite F by lia. apply U0. lia.
Qed.

(** X16: in the image of a normal run (half exchange undone) every byte of
    the directory slots after the last one used, up to the end of the
    directory, is 0xE5. *)
Theorem unused_slots_are_invalid (h : host) (argv : list string)
    (image : list byte) (i : Z) :
  Makerom.main h argv = Ok image ->
  (slots_needed h (skipn 2 argv) + 1) * 32 <= i
  < round_up_4 (slots_needed h (skipn 2 argv)) * 32 ->
  load (swap_halves image) i = xe5.
Proof.
  intros E Hi.
  destruct (main_ok_inv h argv image E) as (st & rom0 & _ & Ep & Es & Lr & Ei).
  assert (Hrom : swap_halves image = rom0)
    by (subst image; apply swap_halves_involutive; exact Lr).
  destruct (pack_state_ok _ _ _ _ Ep) as (L & _ & _ & _ & Cs & C & _ & A).
  destruct (finalise_header_spec st L) as (L' & _).
  pose proof (dir_entries_value st L C) as D.
  assert (Hr : round_up_4 (Makerom.currentDirectory st) <= 32)
    by (unfold round_up_4; Z.div_mod_to_equations; lia).
  destruct (serialise_spec _ _ _ L' ltac:(lia) Es) as (_ & _ & Hcopy & _).
  cbv zeta in Hcopy. rewrite D, Cs in Hcopy. unfold sizeof_DirEntry in Hcopy.
  destruct (pack_directory _ _ _ _ Ep) as [_ U].
  rewrite Hrom, Hcopy by lia.
  rewrite finalise_header_other by (assumption || lia).
  rewrite Cs in Hr. apply U. lia.
Qed.

Lemma unused_slots_are_invalid_witness :
  exists image,
    Makerom.main two_bytes ["makerom"; "out.rom"; "A.BIN"]%string = Ok image
    /\ (slots_needed two_bytes (skipn 2 ["makerom"; "out.rom"; "A.BIN"]%string) + 1)
       * 32 <= 64
       < round_up_4
           (slots_needed two_bytes (skipn 2 ["makerom"; "out.rom"; "A.BIN"]%string))
         * 32
    /\ load (swap_halves image) 64 = xe5.
Proof.
  destruct two_bytes_packs as [image E].
  assert (H : (slots_needed two_bytes
                 (skipn 2 ["makerom"; "out.rom"; "A.BIN"]%string) + 1) * 32 <= 64
              < round_up_4
                  (slots_needed two_bytes
                     (skipn 2 ["makerom"; "out.rom"; "A.BIN"]%string)) * 32)
    by (vm_compute; split; [discriminate | reflexivity]).
  exists image. split; [exact E|]. split; [exact H|].
  exact (unused_slots_are_invalid two_bytes _ image 64 E H).
Defined.

(** ** The unpacker on an image the packer wrote *)

Lemma fs_get_put_same (name : string) (data : list byte)
    (fs : list (string * list byte)) :
  Dumprom.fs_get name (Dumprom.fs_put name data fs) = Some data.
Proof.
  induction fs as [|[n d] r IH]; cbn [Dumprom.fs_put Dumprom.fs_get].
  - rewrite String.eqb_refl. reflexivity.
  - destruct (String.eqb n name) eqn:E; cbn [Dumprom.fs_get]; rewrite E; auto.
Qed.

Lemma fs_put_put (name : string) (d1 d2 : list byte)
    (fs : list (string * list byte)) :
  Dumprom.fs_put name d2 (Dumprom.fs_put name d1 fs) = Dumprom.fs_put name d2 fs.
Proof.
  induction fs as [|[n d] r IH]; cbn [Dumprom.fs_put].
  - rewrite String.eqb_refl. reflexivity.
  - destruct (String.eqb n name) eqn:E; cbn [Dumprom.fs_put]; rewrite E;
      [reflexivity | rewrite IH; reflexivity].
Qed.

Lemma fs_put_new (name : string) (data : list byte)
    (fs : list (string * list byte)) :
  ~ In name (map fst fs) -> Dumprom.fs_put name data fs = fs ++ [(name, data)].
Proof.
  induction fs as [|[n d] r IH]; intros H; cbn [Dumprom.fs_put]; [reflexivity|].
  cbn [map fst In] in H.
  destruct (String.eqb_spec n name) as [->|N]; [tauto|].
  rewrite IH by tauto. reflexivity.
Qed.

(** Writing one block to the open file. *)
Lemma write_open (path : string) (content data : list byte)
    (fs : list (string * list byte)) :
  Dumprom.write data (Dumprom.mkOut (Dumprom.fs_put path content fs) (Some path))
  = Dumprom.mkOut (Dumprom.fs_put path (content ++ data) fs) (Some path).
Proof.
  unfold Dumprom.write. cbn [Dumprom.handle Dumprom.written].
  rewrite fs_get_put_same, fs_put_put. reflexivity.
Qed.

Lemma sub_opt_in (buf : list byte) (off n : Z) :
  0 <= off -> 0 <= n -> off + n <= zlen buf ->
  sub_opt buf off n = Some (sub buf off n).
Proof.
  intros Ho Hn Hf. unfold sub_opt.
  destruct (Z.leb_spec 0 off); [|lia].
  destruct (Z.leb_spec 0 n); [|lia].
  destruct (Z.leb_spec (off + n) (zlen buf)); [|lia].
  reflexivity.
Qed.

Lemma rd_in (buf : list byte) (off : Z) :
  0 <= off < zlen buf -> Dumprom.rd buf off = Ok (load buf off).
Proof.
  intros H. unfold Dumprom.rd. rewrite load_opt_in by assumption. reflexivity.
Qed.

Lemma byte_of_Z_nonzero (z : Z) :
  1 <= z <= 255 -> Byte.eqb (byte_of_Z z) x00 = false.
Proof.
  intros H. destruct (Byte.eqb (byte_of_Z z) x00) eqn:E; [|reflexivity].
  apply Byte.byte_dec_bl in E.
  pose proof (Z_of_byte_of_Z z) as Hz. rewrite E in Hz.
  rewrite Z.mod_small in Hz by lia.
  change (Z_of_byte x00) with 0 in Hz. lia.
Qed.

Lemma sub_app_next (buf : list byte) (off n1 n2 : Z) :
  0 <= off -> 0 <= n1 -> 0 <= n2 ->
  sub buf off n1 ++ sub buf (off + n1) n2 = sub buf off (n1 + n2).
Proof.
  intros Ho H1 H2. unfold sub.
  replace (Z.to_nat (off + n1)) with (Z.to_nat n1 + Z.to_nat off)%nat by lia.
  rewrite <- skipn_skipn.
  set (l := skipn (Z.to_nat off) buf).
  replace (Z.to_nat (n1 + n2)) with (Z.to_nat n1 + Z.to_nat n2)%nat by lia.
  rewrite <- (firstn_skipn (Z.to_nat n1) l) at 3.
  rewrite firstn_app.
  destruct (Nat.le_gt_cases (Z.to_nat n1) (List.length l)) as [Hle|Hgt].
  - rewrite length_firstn, Nat.min_l by lia.
    rewrite firstn_all2 with (n := (Z.to_nat n1 + Z.to_nat n2)%nat)
      by (rewrite length_firstn; lia).
    do 2 f_equal. lia.
  - rewrite (skipn_all2 l) by lia. rewrite !firstn_nil, !app_nil_r.
    rewrite !firstn_all2 by (rewrite ?length_firstn; lia). reflexivity.
Qed.

Lemma zrange_app (s : Z) (n m : nat) :
  zrange s (n + m) = zrange s n ++ zrange (s + Z.of_nat n) m.
Proof.
  revert s. induction n as [|n IH]; intros s.
  - simpl. f_equal. lia.
  - cbn [zrange Nat.add app]. rewrite IH. do 3 f_equal. lia.
Qed.

Lemma visit_all_app (nd : bool) (h : host) (rom : list byte) (fileBase : Z)
    (l1 l2 : list Z) (out out1 : Dumprom.ofstream) :
  visit_all nd h rom fileBase l1 out = Ok out1 ->
  visit_all nd h rom fileBase (l1 ++ l2) out
  = visit_all nd h rom fileBase l2 out1.
Proof.
  revert out. induction l1 as [|d r IH]; intros out E.
  - apply Ok_inj in E. subst out1. reflexivity.
  - cbn [visit_all app] in *.
    destruct (Dumprom.visit_entry nd h rom fileBase d out) as [o| | | | |];
      cbn [bind] in *; try discriminate.
    apply IH. exact E.
Qed.

(** With [dir_entries] below 255 and enough fuel the loop is the walk over
    the directory numbers up to [dir_entries]. *)
Lemma dir_loop_visit_all (fuel : nat) :
  forall nd h rom fileBase de s out,
    Dumprom.hdr_dir_entries rom = Ok de -> de <= 254 ->
    0 <= s <= de + 1 ->
    (Z.to_nat (de + 1 - s) < fuel)%nat ->
    Dumprom.dir_loop fuel nd h rom fileBase s out
    = visit_all nd h rom fileBase (zrange s (Z.to_nat (de + 1 - s))) out.
Proof.
  induction fuel as [|fuel IH]; intros nd h rom fileBase de s out Hde Hm Hs Hf;
    [lia|].
  cbn [Dumprom.dir_loop]. rewrite Hde. cbn [bind].
  destruct (Z.leb_spec s de) as [Hle|Hgt].
  - replace (Z.to_nat (de + 1 - s)) with (S (Z.to_nat (de + 1 - (s + 1))))
      by lia.
    cbn [zrange visit_all].
    destruct (Dumprom.visit_entry nd h rom fileBase s out) as [o| | | | |];
      cbn [bind]; try reflexivity.
    assert (Hu : u8 (s + 1) = s + 1) by (unfold u8; apply Z.mod_small; lia).
    rewrite Hu. apply (IH nd h rom fileBase de); try assumption; lia.
  - replace (Z.to_nat (de + 1 - s)) with O by lia. reflexivity.
Qed.

Lemma dir_entry_offset_ok (nd : bool) (rom : list byte) (de d : Z) :
  Dumprom.hdr_dir_entries rom = Ok de -> 1 <= d <= de ->
  Dumprom.dir_entry_offset nd rom d = Ok (d * 32).
Proof.
  intros Hde Hd. unfold Dumprom.dir_entry_offset, Dumprom.assert.
  rewrite Hde. cbn [bind].
  destruct (Z.geb_spec d 1); [|lia].
  destruct (Z.leb_spec d de); [|lia].
  destruct nd; f_equal; unfold sizeof_DirEntry; lia.
Qed.

(** A slot whose validity byte is not 0x00 is passed over. *)
Lemma visit_entry_unused (nd : bool) (h : host) (rom : list byte)
    (fileBase de d : Z) (out : Dumprom.ofstream) :
  Dumprom.hdr_dir_entries rom = Ok de -> 1 <= d <= de ->
  d * 32 < zlen rom -> load rom (d * 32) <> x00 ->
  Dumprom.visit_entry nd h rom fileBase d out = Ok out.
Proof.
  intros Hde Hd Hl Hv. unfold Dumprom.visit_entry.
  rewrite (dir_entry_offset_ok nd rom de d Hde Hd). cbn [bind].
  unfold Ent.validity. rewrite Z.add_0_r.
  rewrite rd_in by lia. cbn [bind].
  destruct (Byte.eqb (load rom (d * 32)) x00) eqn:E; [|reflexivity].
  apply Byte.byte_dec_bl in E. contradiction.
Qed.

Lemma block_address_ok (nd : bool) (fileBase blockNo : Z) :
  1 <= blockNo ->
  Dumprom.block_address nd fileBase blockNo
  = Ok (fileBase + (blockNo - 1) * 1024).
Proof.
  intros H. unfold Dumprom.block_address, Dumprom.assert.
  destruct (Z.geb_spec blockNo 1); [|lia]. destruct nd; reflexivity.
Qed.

(** The loop over an allocation map that holds the block numbers
    [a + 16 j ...] of a file of [c] blocks, from map index [i] on: it
    appends the blocks still named, as one run of the image. *)
Lemma write_blocks_entry (n : nat) :
  forall nd rom fileBase dir i path content fs a c j,
    (forall m, 0 <= m < 16 ->
       load rom (dir + 16 + m)
       = if 16 * j + m <? c then byte_of_Z (a + 16 * j + m) else x00) ->
    0 <= dir -> dir + 32 <= zlen rom -> 0 <= fileBase ->
    1 <= a -> 0 <= j -> a + c <= 256 ->
    fileBase + (a - 1 + c) * 1024 <= zlen rom ->
    i = 16 - Z.of_nat n -> 0 <= i ->
    Dumprom.write_blocks n nd rom fileBase dir i
      (Dumprom.mkOut (Dumprom.fs_put path content fs) (Some path))
    = Ok (Dumprom.mkOut
            (Dumprom.fs_put path
               (content
                ++ sub rom (fileBase + (a - 1 + 16 * j + i) * 1024)
                     (Z.max 0 (Z.min 16 (c - 16 * j) - i) * 1024)) fs)
            (Some path)).
Proof.
  induction n as [|n IH];
    intros nd rom fileBase dir i path content fs a c j
           Hmap Hdir Hfit Hfb Ha Hj Hac Hdata Hi Hi0.
  - cbn [Dumprom.write_blocks].
    replace (Z.max 0 (Z.min 16 (c - 16 * j) - i) * 1024) with 0 by lia.
    rewrite sub_zero_length, app_nil_r. reflexivity.
  - cbn [Dumprom.write_blocks]. unfold Ent.allocation_map.
    rewrite rd_in by lia. cbn [bind]. rewrite (Hmap i) by lia.
    destruct (Z.ltb_spec (16 * j + i) c) as [Hlt|Hge].
    + rewrite byte_of_Z_nonzero by lia. cbn [negb].
      rewrite Z_of_byte_of_Z, Z.mod_small by lia.
      rewrite block_address_ok by lia. cbn [bind].
      rewrite sub_opt_in by lia. cbn [of_option bind].
      rewrite write_open.
      rewrite (IH nd rom fileBase dir (i + 1) path _ fs a c j)
        by (assumption || lia).
      do 3 f_equal. rewrite <- app_assoc. f_equal.
      replace (fileBase + (a + 16 * j + i - 1) * 1024)
        with (fileBase + (a - 1 + 16 * j + i) * 1024) by lia.
      replace (fileBase + (a - 1 + 16 * j + (i + 1)) * 1024)
        with (fileBase + (a - 1 + 16 * j + i) * 1024 + 1024) by lia.
      rewrite sub_app_next by lia. f_equal. lia.
    + change (negb (Byte.eqb x00 x00)) with false. cbn [bind].
      rewrite (IH nd rom fileBase dir (i + 1) path _ fs a c j)
        by (assumption || lia).
      replace (Z.max 0 (Z.min 16 (c - 16 * j) - (i + 1)) * 1024) with 0 by lia.
      replace (Z.max 0 (Z.min 16 (c - 16 * j) - i) * 1024) with 0 by lia.
      rewrite !sub_zero_length. reflexivity.
Qed.


Lemma file_in_image_map (rom name type : list byte)
    (de fileBase s a c last j : Z) :
  file_in_image rom name type de fileBase s a c last -> 0 <= j <= last ->
  (forall m, 0 <= m < 16 ->
     load rom ((s + j) * 32 + 16 + m)
     = if 16 * j + m <? c then byte_of_Z (a + 16 * j + m) else x00)
  /\ 0 <= (s + j) * 32 /\ (s + j) * 32 + 32 <= zlen rom
  /\ a + c <= 256.
Proof.
  intros [Hh He Hn Ht (Hs & Hl & Hd & Hde) Hz Hb (Ha & Hc & Hf) Hx] Hj.
  assert (Hfit : (s + j) * 32 + 32 <= zlen rom) by lia.
  destruct (entries_hold_fields rom name type s a c last j He Hn Ht
              ltac:(lia) Hj Hfit) as (_ & _ & _ & _ & _ & _ & _ & M).
  split; [exact M|]. split; [lia|]. split; [lia|]. lia.
Qed.

(** The first entry of a file: the file is opened and takes the blocks of
    the entry. *)
Lemma visit_entry_first (nd : bool) (h : host) (rom name type : list byte)
    (de fileBase s a c last : Z) (out : Dumprom.ofstream) :
  file_in_image rom name type de fileBase s a c last ->
  can_write h (entry_path name type) = true ->
  Dumprom.visit_entry nd h rom fileBase s out
  = Ok (Dumprom.mkOut
          (Dumprom.fs_put (entry_path name type)
             (sub rom (fileBase + (a - 1) * 1024) (Z.min 16 c * 1024))
             (Dumprom.written out))
          (Some (entry_path name type))).
Proof.
  intros F Hw.
  destruct (file_in_image_map _ _ _ _ _ _ _ _ _ 0 F ltac:(destruct F; lia))
    as (M & D0 & D1 & Hac).
  destruct F as [Hh He Hn Ht (Hs & Hl & Hd & Hde) Hz Hb (Ha & Hc & Hf) Hx].
  destruct (entries_hold_fields rom name type s a c last 0 He Hn Ht
              ltac:(lia) ltac:(lia) D1)
    as (V & N & T & X & _).
  replace (s + 0) with s in * by lia.
  unfold Dumprom.visit_entry.
  rewrite (dir_entry_offset_ok nd rom de s Hh ltac:(lia)). cbn [bind].
  unfold Ent.validity, Ent.logical_extent, Ent.file_name, Ent.file_type.
  rewrite rd_in by lia. cbn [bind]. rewrite V.
  change (Byte.eqb x00 x00) with true. cbv iota.
  rewrite rd_in by lia. cbn [bind]. rewrite X.
  change (Byte.eqb (byte_of_Z 0) x00) with true. cbv iota.
  rewrite !sub_opt_in by lia. cbn [of_option bind]. rewrite N, T.
  unfold Dumprom.open. fold (entry_path name type). rewrite Hw. cbn [bind].
  cbn [Dumprom.close Dumprom.written].
  rewrite (write_blocks_entry 16 nd rom fileBase (s * 32) 0
             (entry_path name type) [] _ a c 0)
    by (assumption || lia).
  do 3 f_equal. cbn [app]. f_equal; lia.
Qed.

(** A further entry of the file that is open: its blocks are appended. *)
Lemma visit_entry_next (nd : bool) (h : host) (rom name type : list byte)
    (de fileBase s a c last j : Z) (path : string) (content : list byte)
    (fs : list (string * list byte)) :
  file_in_image rom name type de fileBase s a c last ->
  1 <= j <= last ->
  Dumprom.visit_entry nd h rom fileBase (s + j)
    (Dumprom.mkOut (Dumprom.fs_put path content fs) (Some path))
  = Ok (Dumprom.mkOut
          (Dumprom.fs_put path
             (content ++ sub rom (fileBase + (a - 1 + 16 * j) * 1024)
                           (Z.min 16 (c - 16 * j) * 1024)) fs)
          (Some path)).
Proof.
  intros F Hj.
  destruct (file_in_image_map _ _ _ _ _ _ _ _ _ j F ltac:(lia))
    as (M & D0 & D1 & Hac).
  destruct F as [Hh He Hn Ht (Hs & Hl & Hd & Hde) Hz Hb (Ha & Hc & Hf) [Hx Hy]].
  destruct (entries_hold_fields rom name type s a c last j He Hn Ht
              ltac:(lia) ltac:(lia) D1)
    as (V & _ & _ & X & _).
  specialize (Hx j Hj).
  unfold Dumprom.visit_entry.
  rewrite (dir_entry_offset_ok nd rom de (s + j) Hh ltac:(lia)). cbn [bind].
  unfold Ent.validity, Ent.logical_extent.
  rewrite rd_in by lia. cbn [bind]. rewrite V.
  change (Byte.eqb x00 x00) with true. cbv iota.
  rewrite rd_in by lia. cbn [bind]. rewrite X.
  rewrite byte_of_Z_nonzero by lia.
  rewrite (write_blocks_entry 16 nd rom fileBase ((s + j) * 32) 0
             path content fs a c j)
    by (assumption || lia).
  do 5 f_equal; lia.
Qed.

(** The entries of the open file from the [j]-th to the last. *)
Lemma visit_file_rest (t : nat) :
  forall nd h rom name type de fileBase s a c last j path fs,
    file_in_image rom name type de fileBase s a c last ->
    1 <= j -> j + Z.of_nat t = last ->
    visit_all nd h rom fileBase (zrange (s + j) (S t))
      (Dumprom.mkOut
         (Dumprom.fs_put path
            (sub rom (fileBase + (a - 1) * 1024) (16 * j * 1024)) fs)
         (Some path))
    = Ok (Dumprom.mkOut
            (Dumprom.fs_put path
               (sub rom (fileBase + (a - 1) * 1024) (c * 1024)) fs)
            (Some path)).
Proof.
  induction t as [|t IH];
    intros nd h rom name type de fileBase s a c last j path fs F Hj Ht;
    cbn [zrange visit_all];
    rewrite (visit_entry_next nd h rom name type de fileBase s a c last j)
      by (assumption || lia);
    cbn [bind];
    pose proof F as [_ _ _ _ (Hs & Hl & _) _ Hb (Ha & Hc & _) [Hx Hy]];
    pose proof (Hx j ltac:(lia)) as Hxj;
    replace (fileBase + (a - 1 + 16 * j) * 1024)
      with (fileBase + (a - 1) * 1024 + 16 * j * 1024) by lia;
    rewrite sub_app_next by lia.
  - do 4 f_equal. lia.
  - replace (s + j + 1) with (s + (j + 1)) by lia.
    replace (16 * j * 1024 + Z.min 16 (c - 16 * j) * 1024)
      with (16 * (j + 1) * 1024)
      by (specialize (Hx (j + 1) ltac:(lia)); lia).
    apply (IH nd h rom name type de fileBase s a c last (j + 1));
      try assumption; lia.
Qed.

(** All the entries of one file. *)
Lemma visit_file (nd : bool) (h : host) (rom name type : list byte)
    (de fileBase s a c last : Z) (out : Dumprom.ofstream) :
  file_in_image rom name type de fileBase s a c last ->
  can_write h (entry_path name type) = true ->
  visit_all nd h rom fileBase (zrange s (Z.to_nat (last + 1))) out
  = Ok (Dumprom.mkOut
          (Dumprom.fs_put (entry_path name type)
             (sub rom (fileBase + (a - 1) * 1024) (c * 1024))
             (Dumprom.written out))
          (Some (entry_path name type))).
Proof.
  intros F Hw.
  pose proof F as [_ _ _ _ (Hs & Hl & _) _ Hb (Ha & Hc & _) [Hx Hy]].
  replace (Z.to_nat (last + 1)) with (S (Z.to_nat last)) by lia.
  cbn [zrange visit_all].
  rewrite (visit_entry_first nd h rom name type de fileBase s a c last out F Hw).
  cbn [bind].
  assert (last = 0 \/ 1 <= last) as [->|Hl1] by lia.
  - cbn [Z.to_nat zrange visit_all]. do 4 f_equal. lia.
  - specialize (Hx 1 ltac:(lia)).
    replace (Z.min 16 c * 1024) with (16 * 1 * 1024) by lia.
    replace (Z.to_nat last) with (S (Z.to_nat (last - 1))) by lia.
    apply (visit_file_rest (Z.to_nat (last - 1)) nd h rom name type de fileBase
             s a c last 1); try assumption; lia.
Qed.

(** The extents of a file of [len] bytes: every entry but the last holds 16
    blocks. *)
Lemma slots_of_extents (len : Z) :
  0 <= len ->
  0 <= Makerom.chunks_of len
  /\ 0 <= slots_of len - 1
  /\ (forall j, 1 <= j <= slots_of len - 1 -> 16 * j < Makerom.chunks_of len)
  /\ Makerom.chunks_of len <= 16 * (slots_of len - 1 + 1).
Proof.
  intros H. destruct (chunks_of_bounds len H) as [_ Hc].
  unfold slots_of. set (c := Makerom.chunks_of len) in *.
  split; [exact Hc|]. split; [lia|]. split.
  - intros j Hj. Z.div_mod_to_equations. lia.
  - Z.div_mod_to_equations. lia.
Qed.

Lemma app_same_length {A : Type} (a a' b b' : list A) :
  List.length a = List.length a' -> a ++ b = a' ++ b' -> a = a' /\ b = b'.
Proof.
  revert a'. induction a as [|x a IH]; intros [|x' a'] L E;
    try discriminate L.
  - split; [reflexivity | exact E].
  - cbn [app] in E. injection E as -> E. injection L as L.
    destruct (IH a' L E) as [-> ->]. split; reflexivity.
Qed.

Lemma sub_app_split (buf a b : list byte) (off : Z) :
  0 <= off -> off + zlen a + zlen b <= zlen buf ->
  sub buf off (zlen a + zlen b) = a ++ b ->
  sub buf off (zlen a) = a /\ sub buf (off + zlen a) (zlen b) = b.
Proof.
  intros Ho Hf E.
  pose proof (zlen_nonneg a). pose proof (zlen_nonneg b).
  rewrite <- sub_app_next in E by lia.
  apply app_same_length in E; [exact E|].
  pose proof (zlen_sub buf off (zlen a) Ho ltac:(lia) ltac:(lia)) as L.
  unfold zlen in *. lia.
Qed.

Lemma entries_hold_ext (d d' name type : list byte) (s a k last : Z) :
  (forall i, s * 32 <= i < (s + last + 1) * 32 -> load d' i = load d i) ->
  entries_hold d name type s a k last -> entries_hold d' name type s a k last.
Proof.
  intros S H j o Hj Ho. rewrite S by lia. apply H; assumption.
Qed.

(** The entries of the files are a matter of the bytes of their slots. *)
Lemma dir_holds_ext (h : host) (files : list string) :
  forall s a d d',
    (forall i, s * 32 <= i < (s + slots_needed h files) * 32 ->
               load d' i = load d i) ->
    dir_holds h files s a d -> dir_holds h files s a d'.
Proof.
  induction files as [|p r IH]; intros s a d d' S H; [exact I|].
  cbn [dir_holds slots_needed] in *. unfold slots_for in S.
  pose proof (slots_needed_nonneg h r) as Hr.
  destruct (read_file h p) as [contents|]; [|contradiction].
  destruct (Makerom.split_file_name p) as [[name type]| | | | |];
    try contradiction.
  destruct H as [He Hd].
  assert (1 <= slots_of (zlen contents)) by (unfold slots_of; lia).
  split.
  - apply (entries_hold_ext d); [|exact He]. intros i Hi. apply S. lia.
  - apply (IH _ _ d); [|exact Hd]. intros i Hi. apply S. lia.
Qed.

(** Slots whose validity byte is not 0x00 leave the output as it is. *)
Lemma visit_all_unused (n : nat) :
  forall nd h rom fileBase de s out,
    Dumprom.hdr_dir_entries rom = Ok de ->
    (forall d, s <= d < s + Z.of_nat n ->
       1 <= d <= de /\ d * 32 < zlen rom /\ load rom (d * 32) <> x00) ->
    visit_all nd h rom fileBase (zrange s n) out = Ok out.
Proof.
  induction n as [|n IH]; intros nd h rom fileBase de s out Hde H;
    [reflexivity|].
  cbn [zrange visit_all].
  destruct (H s ltac:(lia)) as (Hs & Hl & Hv).
  rewrite (visit_entry_unused nd h rom fileBase de s out Hde Hs Hl Hv).
  cbn [bind]. apply (IH nd h rom fileBase de); [exact Hde|].
  intros d Hd. apply H. lia.
Qed.

(** The walk over the slots of [files]: every file is created under its
    stored name and takes the blocks the packer gave it. *)
Lemma visit_files (h : host) (files : list string) :
  forall nd h' rom de fileBase s a out,
    Dumprom.hdr_dir_entries rom = Ok de -> de <= 32 ->
    zlen rom = 0x8000 -> 0 <= fileBase -> 1 <= s -> 1 <= a ->
    s + slots_needed h files <= de + 1 ->
    dir_holds h files s a rom ->
    fileBase + (a - 1) * 1024 + zlen (padded_inputs h files) <= zlen rom ->
    sub rom (fileBase + (a - 1) * 1024) (zlen (padded_inputs h files))
    = padded_inputs h files ->
    Forall (fun p => can_write h' (stored_name p) = true) files ->
    exists hd,
      visit_all nd h' rom fileBase
        (zrange s (Z.to_nat (slots_needed h files))) out
      = Ok (Dumprom.mkOut (unpacked h files (Dumprom.written out)) hd).
Proof.
  induction files as [|p r IH];
    intros nd h' rom de fileBase s a out Hde Hde32 Hz Hfb Hs Ha Hfit Hd
           Hin Hsub Hw.
  - exists (Dumprom.handle out). destruct out; reflexivity.
  - cbn [dir_holds slots_needed padded_inputs unpacked]
      in Hfit, Hd, Hin, Hsub |- *.
    unfold slots_for in Hfit |- *.
    pose proof (slots_needed_nonneg h r) as Hr.
    destruct (read_file h p) as [contents|] eqn:Er; [|contradiction].
    destruct (Makerom.split_file_name p) as [[name type]| | | | |] eqn:Es;
      try contradiction.
    destruct Hd as [He Hrest].
    assert (Hsb : stored_bytes h p = Makerom.pad_buffer contents)
      by (unfold stored_bytes; rewrite Er; reflexivity).
    assert (Hsn : stored_name p = entry_path name type)
      by (unfold stored_name; rewrite Es; reflexivity).
    inversion Hw as [|? ? Hw1 Hw2]; subst.
    rewrite Hsn in Hw1. rewrite Hsn, Hsb.
    pose proof (zlen_nonneg contents) as Hc0.
    destruct (slots_of_extents (zlen contents) Hc0) as (Hc & Hl & Hx & Hy).
    destruct (split_file_name_lengths p name type Es) as [Hn Ht].
    rewrite zlen_app in Hin, Hsub.
    pose proof (zlen_pad_buffer contents) as Hp.
    pose proof (zlen_nonneg (padded_inputs h r)) as Hr0.
    destruct (sub_app_split rom (Makerom.pad_buffer contents)
                (padded_inputs h r) (fileBase + (a - 1) * 1024)
                ltac:(lia) ltac:(lia) Hsub)
      as [Hsub1 Hsub2].
    rewrite Hp in Hsub1, Hsub2, Hin.
    set (c := Makerom.chunks_of (zlen contents)) in *.
    set (sl := slots_of (zlen contents)) in *.
    assert (F : file_in_image rom name type de fileBase s a c (sl - 1)).
    { constructor; try assumption; try lia. split; assumption. }
    replace (Z.to_nat (sl + slots_needed h r))
      with (Z.to_nat (sl - 1 + 1) + Z.to_nat (slots_needed h r))%nat by lia.
    rewrite zrange_app.
    pose proof (visit_file nd h' rom name type de fileBase s a c (sl - 1) out
                  F Hw1) as V.
    rewrite (visit_all_app _ _ _ _ _ _ _ _ V).
    rewrite Hsub1.
    replace (s + Z.of_nat (Z.to_nat (sl - 1 + 1))) with (s + sl) by lia.
    apply (IH nd h' rom de fileBase (s + sl) (a + c)); try assumption; try lia.
    + replace (fileBase + (a + c - 1) * 1024)
        with (fileBase + (a - 1) * 1024 + c * 1024) by lia.
      exact Hsub2.
Qed.

(** Files of different stored names are listed in the order given. *)
Lemma unpacked_distinct (h : host) (files : list string) :
  forall fs,
    NoDup (map fst fs ++ map stored_name files) ->
    unpacked h files fs
    = fs ++ map (fun p => (stored_name p, stored_bytes h p)) files.
Proof.
  induction files as [|p r IH]; intros fs N; cbn [unpacked map].
  - rewrite app_nil_r. reflexivity.
  - cbn [map] in N.
    assert (Hp : ~ In (stored_name p) (map fst fs)).
    { apply NoDup_remove_2 in N. intros Hi. apply N.
      apply in_or_app. left. exact Hi. }
    rewrite (fs_put_new _ _ _ Hp).
    rewrite IH.
    + rewrite <- app_assoc. reflexivity.
    + rewrite map_app. cbn [map fst]. rewrite <- app_assoc. exact N.
Qed.

(** The image before the half exchange, when at least one slot is used:
    the header and the slots below [dir_entries] are those of the
    directory, the file area follows, and 0xFF fills the rest. *)
Lemma packed_rom_layout (h : host) (outName : string) (files : list string)
    (st : Makerom.pack_state) (rom : list byte) :
  Makerom.pack h outName files = Ok st ->
  Makerom.serialise (Makerom.finalise_header st) (Makerom.file_area st)
  = Ok rom ->
  1 <= slots_needed h files ->
  let de := round_up_4 (slots_needed h files) in
  zlen rom = 0x8000
  /\ de * 32 + zlen (padded_inputs h files) <= 0x8000
  /\ load rom 0 = xe5
  /\ Dumprom.hdr_dir_entries rom = Ok de
  /\ (forall i, 32 <= i < de * 32 -> load rom i = load (Makerom.directory st) i)
  /\ sub rom (de * 32) (zlen (padded_inputs h files)) = padded_inputs h files
  /\ (forall i, de * 32 + zlen (padded_inputs h files) <= i < 0x8000 ->
                load rom i = xff).
Proof.
  intros Ep Es H1 de.
  destruct (pack_state_ok _ _ _ _ Ep) as (L & I0 & _ & _ & Cs & C & _ & A).
  destruct (finalise_header_spec st L) as (L' & _ & _ & _ & F3).
  pose proof (dir_entries_value st L C) as D.
  rewrite Cs in D, C. fold de in D.
  assert (Hde : 4 <= de <= 32)
    by (unfold de, round_up_4; Z.div_mod_to_equations; lia).
  destruct (serialise_spec _ _ _ L' ltac:(lia) Es) as (Lr & Hf & Hcopy & Hsub).
  pose proof (serialise_tail _ _ _ L' ltac:(lia) Es) as Ht.
  cbv zeta in Hf, Hcopy, Hsub. unfold sizeof_DirEntry in *.
  rewrite D in Hf, Hcopy, Hsub, Ht. rewrite A in Hf, Hsub, Ht.
  split; [exact Lr|]. split; [exact Hf|]. split.
  { rewrite Hcopy by lia. rewrite F3 by lia. exact I0. }
  split.
  { unfold Dumprom.hdr_dir_entries, Hdr.dir_entries in *.
    rewrite load_opt_in by lia. cbn [of_option bind].
    rewrite Hcopy by lia. rewrite D. reflexivity. }
  split.
  { intros i Hi. rewrite Hcopy by lia.
    apply finalise_header_other; [exact L | lia..]. }
  split; [exact Hsub | exact Ht].
Qed.

(** The unpacker on an image laid out by the packer, when the slot counter
    is no multiple of 4 and the byte at the start of the file area is not
    0x00. *)
Lemma dump_packed_rom (nd : bool) (h h' : host) (files : list string)
    (dir rom : list byte) :
  let cd := slots_needed h files in
  let de := round_up_4 cd in
  let fa := padded_inputs h files in
  1 <= cd <= 31 -> cd mod 4 <> 0 ->
  zlen rom = 0x8000 -> de * 32 + zlen fa <= 0x8000 ->
  load rom 0 = xe5 -> Dumprom.hdr_dir_entries rom = Ok de ->
  (forall i, 32 <= i < de * 32 -> load rom i = load dir i) ->
  sub rom (de * 32) (zlen fa) = fa ->
  (forall i, de * 32 + zlen fa <= i < 0x8000 -> load rom i = xff) ->
  dir_holds h files 1 1 dir ->
  (forall i, (cd + 1) * 32 <= i < 1024 -> load dir i = xe5) ->
  hd xff fa <> x00 ->
  Forall (fun p => can_write h' (stored_name p) = true) files ->
  Dumprom.dump_files nd h' rom = Ok (unpacked h files []).
Proof.
  intros cd de fa Hcd Hm Lr Hf I0 Hh Hcopy Hsub Ht Hd Hu Hfirst Hw.
  assert (Hde : cd < de <= 32 /\ de mod 4 = 0)
    by (unfold de, round_up_4; Z.div_mod_to_equations; lia).
  destruct Hde as [Hde Hde4].
  pose proof (zlen_nonneg fa) as Hfa.
  rewrite (magic_check_passes nd h' rom (load rom 0) (load rom 1))
    by (try apply load_opt_in; try lia; left; exact I0).
  assert (Hb : Dumprom.file_area_offset nd rom = Ok (de * 32)).
  { unfold Dumprom.file_area_offset, Dumprom.assert. rewrite Hh. cbn [bind].
    rewrite Hde4. change (0 =? 0) with true.
    destruct (Z.geb_spec de 0); [|lia]. destruct (Z.leb_spec de 0x20); [|lia].
    cbn [andb]. unfold sizeof_DirEntry. destruct nd; f_equal; lia. }
  rewrite Hb. cbn [bind].
  rewrite (dir_loop_visit_all Dumprom.loop_fuel nd h' rom (de * 32) de 1)
    by (try exact Hh; unfold Dumprom.loop_fuel; lia).
  replace (Z.to_nat (de + 1 - 1))
    with (Z.to_nat cd + Z.to_nat (de - cd))%nat by lia.
  rewrite zrange_app.
  assert (Hdr : dir_holds h files 1 1 rom).
  { apply (dir_holds_ext h files 1 1 dir); [|exact Hd].
    intros i Hi. apply Hcopy. fold cd in Hi. lia. }
  assert (V : exists hd0,
             visit_all nd h' rom (de * 32) (zrange 1 (Z.to_nat cd))
               (Dumprom.mkOut [] None)
             = Ok (Dumprom.mkOut (unpacked h files []) hd0)).
  { apply (visit_files h files nd h' rom de (de * 32) 1 1
             (Dumprom.mkOut [] None)); try assumption; try lia;
      fold cd; fold fa;
      replace (de * 32 + (1 - 1) * 1024) with (de * 32) by lia;
      [lia | exact Hsub]. }
  destruct V as [hd0 V].
  rewrite (visit_all_app _ _ _ _ _ _ _ _ V).
  rewrite (visit_all_unused (Z.to_nat (de - cd)) nd h' rom (de * 32) de).
  - reflexivity.
  - exact Hh.
  - intros d Hr. split; [lia|]. split; [lia|].
    assert (d < de \/ d = de) as [Hlt| ->] by lia.
    + rewrite Hcopy by lia. rewrite Hu by lia. discriminate.
    + destruct fa as [|b fa'] eqn:Efa.
      * change (zlen (@nil byte)) with 0 in Ht.
        rewrite Ht by lia. discriminate.
      * assert (Hl : load rom (de * 32 + 0) = load (b :: fa') 0).
        { assert (Hp : 0 < zlen (b :: fa'))
            by (unfold zlen; cbn [List.length]; lia).
          rewrite <- Hsub at 1. symmetry. apply load_sub; lia. }
        rewrite Z.add_0_r in Hl. rewrite Hl. exact Hfirst.
Qed.

(** X17: packing then unpacking.  When [makerom] ends normally, the number
    of directory slots it used is no multiple of 4 and the file area does
    not start with a 0x00 byte, [dumprom] on the image (built with or
    without asserts, on a host where the names it opens are writable) ends
    normally and leaves one file per input: under the name rebuilt from
    the directory entry, holding the input's bytes padded to whole
    1024-byte blocks, a later input replacing an earlier one of the same
    stored name.  With distinct stored names the files are those of the
    inputs, in order. *)
Theorem unpacking_returns_the_padded_inputs (nd : bool) (h h' : host)
    (prog outName prog' romName : string) (files : list string)
    (image : list byte) :
  Makerom.main h (prog :: outName :: files) = Ok image ->
  slots_needed h files mod 4 <> 0 ->
  hd xff (padded_inputs h files) <> x00 ->
  read_file h' romName = Some image ->
  Forall (fun p => can_write h' (stored_name p) = true) files ->
  Dumprom.main nd h' [prog'; romName] = Ok (unpacked h files [])
  /\ (NoDup (map stored_name files) ->
      unpacked h files []
      = map (fun p => (stored_name p, stored_bytes h p)) files).
Proof.
  intros E Hm Hfirst Hr Hw. split.
  - destruct (main_ok_inv _ _ _ E) as (st & rom & _ & Ep & Es & Lr & Ei).
    change (Makerom.pack h outName files = Ok st) in Ep.
    destruct (pack_state_ok _ _ _ _ Ep) as (_ & _ & _ & _ & Cs & C & _ & _).
    rewrite Cs in C.
    assert (H1 : 1 <= slots_needed h files)
      by (destruct (Z.eq_dec (slots_needed h files) 0) as [Z0|];
          [rewrite Z0 in Hm; contradiction Hm; reflexivity | lia]).
    destruct (packed_rom_layout h outName files st rom Ep Es H1)
      as (_ & Hf & I0 & Hh & Hcopy & Hsub & Ht).
    destruct (pack_directory _ _ _ _ Ep) as [Hd Hu]. rewrite Cs in Hu.
    unfold Dumprom.main. change (zlen [prog'; romName] =? 2) with true.
    cbn [negb nth]. rewrite Hr.
    assert (Li : zlen image = 0x8000)
      by (subst image; apply zlen_swap_halves; exact Lr).
    rewrite Li. change (0x8000 =? 0x8000) with true. cbv iota.
    replace (swap_halves image) with rom
      by (subst image; symmetry; apply swap_halves_involutive; exact Lr).
    apply (dump_packed_rom nd h h' files (Makerom.directory st) rom);
      try assumption; lia.
  - intros N. apply (unpacked_distinct h files []). exact N.
Qed.

Lemma unpacking_returns_the_padded_inputs_witness :
  exists image,
    Makerom.main two_bytes ["makerom"; "out.rom"; "A.BIN"]%string = Ok image
    /\ slots_needed two_bytes ["A.BIN"%string] mod 4 <> 0
    /\ hd xff (padded_inputs two_bytes ["A.BIN"%string]) <> x00
    /\ read_file (rom_host image) "out.rom" = Some image
    /\ Forall (fun p => can_write (rom_host image) (stored_name p) = true)
         ["A.BIN"%string]
    /\ Dumprom.main false (rom_host image) ["dumprom"; "out.rom"]%string
       = Ok (unpacked two_bytes ["A.BIN"%string] []).
Proof.
  destruct two_bytes_packs as [image E].
  assert (H1 : slots_needed two_bytes ["A.BIN"%string] mod 4 <> 0)
    by (vm_compute; discriminate).
  assert (H2 : hd xff (padded_inputs two_bytes ["A.BIN"%string]) <> x00)
    by (vm_compute; discriminate).
  assert (H3 : read_file (rom_host image) "out.rom" = Some image)
    by reflexivity.
  assert (H4 : Forall (fun p => can_write (rom_host image) (stored_name p) = true)
                 ["A.BIN"%string])
    by (constructor; [reflexivity | constructor]).
  exists image.
  split; [exact E|]. split; [exact H1|]. split; [exact H2|].
  split; [exact H3|]. split; [exact H4|].
  exact (proj1 (unpacking_returns_the_padded_inputs false two_bytes
                  (rom_host image) "makerom" "out.rom" "dumprom" "out.rom"
                  ["A.BIN"%string] image E H1 H2 H3 H4)).
Defined.

(** ** The first input the packer cannot take *)

Lemma place_files_app (h : host) (l1 l2 : list string) :
  forall st,
    Makerom.place_files h (l1 ++ l2) st
    = (st' <- Makerom.place_files h l1 st ;; Makerom.place_files h l2 st').
Proof.
  induction l1 as [|p r IH]; intros st; cbn [app Makerom.place_files bind];
    [reflexivity|].
  destruct (Makerom.process_file h p st) as [st1| | | | |]; cbn [bind];
    try reflexivity.
  apply IH.
Qed.

(** A file that the packer cannot take, when a slot is left for it. *)
Lemma process_file_bad_input (h : host) (path : string)
    (st : Makerom.pack_state) :
  0 <= Makerom.currentDirectory st <= 30 ->
  input_ok h path = false ->
  Makerom.process_file h path st
  = match read_file h path with
    | None => Fatal "failed to open input file." (Some path)
    | Some _ => Fatal "Input files must be 8.3" (Some path)
    end.
Proof.
  intros Hcd Hb. unfold Makerom.process_file, Makerom.bump_directory.
  unfold u8, MAX_DIR_ENTRIES. rewrite Z.mod_small by lia.
  destruct (Z.gtb_spec (Makerom.currentDirectory st + 1) (0x20 - 1)); [lia|].
  cbn [bind]. unfold input_ok in Hb.
  destruct (read_file h path) as [contents|]; [|reflexivity].
  destruct (split_file_name_cases path) as [[nt E]|E]; rewrite E in *;
    [discriminate | reflexivity].
Qed.

(** No slot is left for a further file, whatever the file. *)
Lemma process_file_full (h : host) (path : string) (st : Makerom.pack_state) :
  Makerom.currentDirectory st = 31 ->
  Makerom.process_file h path st = OutOfDirectorySpace.
Proof.
  intros Hcd. unfold Makerom.process_file, Makerom.bump_directory.
  rewrite Hcd. reflexivity.
Qed.

(** X18: the packer reports the first input it cannot take.  When the
    inputs before it open, are named 8.3 and leave a directory slot free,
    an input that does not open ends the run with "failed to open input
    file." and one that opens but is not named 8.3 with "Input files must
    be 8.3", each with the input's name, whatever follows on the command
    line.  When the inputs before it have taken all 31 slots the run ends
    with "Out of directory space." instead: the slot is claimed before the
    file is opened. *)
Theorem first_bad_input_is_reported (h : host) (prog outName bad : string)
    (good rest : list string) :
  read_file h outName = None ->
  forallb (input_ok h) good = true ->
  input_ok h bad = false ->
  (slots_needed h good <= 30 ->
   Makerom.main h (prog :: outName :: good ++ bad :: rest)
   = match read_file h bad with
     | None => Fatal "failed to open input file." (Some bad)
     | Some _ => Fatal "Input files must be 8.3" (Some bad)
     end)
  /\ (slots_needed h good = 31 ->
      Makerom.main h (prog :: outName :: good ++ bad :: rest)
      = Fatal "Out of directory space." None).
Proof.
  intros Hr Hg Hb.
  assert (M : forall st r,
             Makerom.place_files h good (Makerom.init_state outName) = Ok st ->
             Makerom.process_file h bad st = Fatal (fst r) (snd r) ->
             Makerom.main h (prog :: outName :: good ++ bad :: rest)
             = Fatal (fst r) (snd r)).
  { intros st r Eg Ebad.
    rewrite main_steps by (try exact Hr; unfold zlen; cbn [List.length]; lia).
    cbn [nth skipn]. unfold Makerom.pack.
    rewrite place_files_app, Eg. cbn [bind Makerom.place_files].
    rewrite Ebad. reflexivity. }
  destruct (init_state_ok outName) as (_ & _ & _ & _ & C0 & _).
  pose proof (place_files_slots h good (Makerom.init_state outName)
                ltac:(rewrite C0; lia)) as S.
  cbv zeta in S. rewrite C0 in S. destruct S as (_ & S2 & S3 & _).
  split; intros Hs;
    destruct (S3 Hg ltac:(lia)) as [st Eg];
    destruct (S2 st Eg) as [Cs _].
  - pose proof (slots_needed_nonneg h good) as Hn.
    pose proof (process_file_bad_input h bad st ltac:(lia) Hb) as Ebad.
    destruct (read_file h bad) as [c|].
    + apply (M st ("Input files must be 8.3"%string, Some bad) Eg Ebad).
    + apply (M st ("failed to open input file."%string, Some bad) Eg Ebad).
  - apply (M st ("Out of directory space."%string, None) Eg).
    apply process_file_full. lia.
Qed.

Lemma first_bad_input_is_reported_witness :
  read_file two_bytes "out.rom" = None
  /\ forallb (input_ok two_bytes) ["A.BIN"%string] = true
  /\ input_ok two_bytes "MISSING.BIN" = false
  /\ slots_needed two_bytes ["A.BIN"%string] <= 30
  /\ Makerom.main two_bytes ("makerom" :: "out.rom" :: missing_second)%string
     = Fatal "failed to open input file." (Some "MISSING.BIN"%string).
Proof.
  assert (H1 : read_file two_bytes "out.rom" = None) by reflexivity.
  assert (H2 : forallb (input_ok two_bytes) ["A.BIN"%string] = true)
    by reflexivity.
  assert (H3 : input_ok two_bytes "MISSING.BIN" = false) by reflexivity.
  assert (H4 : slots_needed two_bytes ["A.BIN"%string] <= 30)
    by (vm_compute; discriminate).
  split; [exact H1|]. split; [exact H2|]. split; [exact H3|].
  split; [exact H4|].
  exact (proj1 (first_bad_input_is_reported two_bytes "makerom" "out.rom"
                  "MISSING.BIN" ["A.BIN"%string] [] H1 H2 H3) H4).
Defined.

(** ** Names the unpacker opens *)

Lemma trim_no_space (l : list byte) :
  forallb (fun b => negb (Byte.eqb b x20)) (Dumprom.trim l) = true
  /\ (List.length (Dumprom.trim l) <= List.length l)%nat.
Proof.
  induction l as [|b r [IH1 IH2]]; cbn [Dumprom.trim]; [split; auto|].
  destruct (Byte.eqb b x20) eqn:E; cbn [forallb List.length].
  - split; [reflexivity | lia].
  - rewrite E, IH1. split; [reflexivity | lia].
Qed.

Lemma c_str_plain (l : list byte) :
  forallb (fun b => negb (Byte.eqb b x20)) l = true ->
  forallb (fun b => negb (Byte.eqb b x20) && negb (Byte.eqb b x00))
          (Dumprom.c_str l) = true
  /\ (List.length (Dumprom.c_str l) <= List.length l)%nat.
Proof.
  induction l as [|b r IH]; cbn [Dumprom.c_str forallb]; intros H;
    [split; auto|].
  apply andb_prop in H. destruct H as [Hb Hr].
  destruct (IH Hr) as [IH1 IH2].
  destruct (Byte.eqb b x00) eqn:E; cbn [forallb List.length].
  - split; [reflexivity | lia].
  - rewrite Hb, E, IH1. split; [reflexivity | lia].
Qed.

Lemma length_string_of_list_byte (l : list byte) :
  String.length (string_of_list_byte l) = List.length l.
Proof.
  induction l as [|b r IH]; [reflexivity|].
  simpl. f_equal. exact IH.
Qed.

(** The name built from a name field and a type field. *)
Lemma entry_path_plain (fileName extension : list byte) :
  zlen fileName = 8 -> zlen extension = 3 ->
  (String.length (entry_path fileName extension) <= 12)%nat
  /\ plain (entry_path fileName extension) = true.
Proof.
  intros Hn He. unfold entry_path, plain.
  rewrite length_string_of_list_byte, list_byte_of_string_of_list_byte.
  destruct (trim_no_space fileName) as [N1 N2].
  destruct (trim_no_space extension) as [E1 E2].
  destruct (c_str_plain (Dumprom.trim fileName ++ list_byte_of_string "."
                         ++ Dumprom.trim extension)) as [C1 C2].
  { rewrite !forallb_app, N1, E1. reflexivity. }
  split; [|exact C1].
  rewrite !length_app in C2.
  change (List.length (list_byte_of_string ".")) with 1%nat in C2.
  unfold zlen in *. lia.
Qed.

Lemma names_opened_fs_put (h : host) (name : string) (data : list byte)
    (fs : list (string * list byte)) :
  Forall (fun f => opened_name h (fst f)) fs -> opened_name h name ->
  Forall (fun f => opened_name h (fst f)) (Dumprom.fs_put name data fs).
Proof.
  intros Hfs Hn.
  induction fs as [|[n d] r IH]; cbn [Dumprom.fs_put].
  - constructor; [exact Hn | constructor].
  - inversion Hfs as [|? ? Hh Ht]; subst.
    destruct (String.eqb n name); constructor; cbn [fst] in *; auto.
Qed.

Lemma names_opened_write (h : host) (data : list byte)
    (out : Dumprom.ofstream) :
  names_opened h out -> names_opened h (Dumprom.write data out).
Proof.
  intros [Hw Hh]. unfold Dumprom.write.
  destruct (Dumprom.handle out) as [path|] eqn:E; [|split; [exact Hw|]].
  - pose proof (Hh path eq_refl) as Hp.
    destruct (Dumprom.fs_get path (Dumprom.written out));
      (split; cbn [Dumprom.written Dumprom.handle];
       [apply names_opened_fs_put; assumption
       | intros p Ep; injection Ep as <-; exact Hp]).
  - rewrite E. discriminate.
Qed.

Lemma names_opened_write_blocks (n : nat) :
  forall h nd rom fileBase dir i out out',
    names_opened h out ->
    Dumprom.write_blocks n nd rom fileBase dir i out = Ok out' ->
    names_opened h out'.
Proof.
  induction n as [|n IH]; intros h nd rom fileBase dir i out out' Hw E.
  - apply Ok_inj in E. subst out'. exact Hw.
  - cbn [Dumprom.write_blocks] in E.
    destruct (Dumprom.rd rom (dir + Ent.allocation_map + i)) as [b| | | | |];
      cbn [bind] in E; try discriminate.
    destruct (negb (Byte.eqb b x00)).
    + destruct (Dumprom.block_address nd fileBase (Z_of_byte b)) as [addr| | | | |];
        cbn [bind] in E; try discriminate.
      destruct (sub_opt rom addr 1024) as [data|];
        cbn [of_option bind] in E; try discriminate.
      apply (IH _ _ _ _ _ _ _ _ (names_opened_write h data out Hw) E).
    + cbn [bind] in E. apply (IH _ _ _ _ _ _ _ _ Hw E).
Qed.

Lemma names_opened_visit_entry (nd : bool) (h : host) (rom : list byte)
    (fileBase dirNo : Z) (out out' : Dumprom.ofstream) :
  names_opened h out ->
  Dumprom.visit_entry nd h rom fileBase dirNo out = Ok out' ->
  names_opened h out'.
Proof.
  intros Hw E. unfold Dumprom.visit_entry in E.
  destruct (Dumprom.dir_entry_offset nd rom dirNo) as [dir| | | | |];
    cbn [bind] in E; try discriminate.
  destruct (Dumprom.rd rom (dir + Ent.validity)) as [v| | | | |];
    cbn [bind] in E; try discriminate.
  destruct (Byte.eqb v x00); [|apply Ok_inj in E; subst out'; exact Hw].
  destruct (Dumprom.rd rom (dir + Ent.logical_extent)) as [le| | | | |];
    cbn [bind] in E; try discriminate.
  destruct (Byte.eqb le x00);
    [|exact (names_opened_write_blocks _ _ _ _ _ _ _ _ _ Hw E)].
  destruct (sub_opt rom (dir + Ent.file_name) 8) as [fileName|] eqn:En;
    cbn [of_option bind] in E; try discriminate.
  destruct (sub_opt rom (dir + Ent.file_type) 3) as [extension|] eqn:Ee;
    cbn [of_option bind] in E; try discriminate.
  unfold Dumprom.open in E. fold (entry_path fileName extension) in E.
  destruct (can_write h (entry_path fileName extension)) eqn:Ec;
    cbn [bind] in E; try discriminate.
  refine (names_opened_write_blocks _ _ _ _ _ _ _ _ _ _ E).
  assert (Hp : opened_name h (entry_path fileName extension)).
  { split; [exact Ec|].
    apply entry_path_plain; eapply sub_opt_length; eassumption. }
  destruct Hw as [Hw _].
  split; cbn [Dumprom.written Dumprom.handle Dumprom.close].
  - apply names_opened_fs_put; assumption.
  - intros p Ep. injection Ep as <-. exact Hp.
Qed.

Lemma names_opened_dir_loop (fuel : nat) :
  forall nd h rom fileBase dirNo out out',
    names_opened h out ->
    Dumprom.dir_loop fuel nd h rom fileBase dirNo out = Ok out' ->
    names_opened h out'.
Proof.
  induction fuel as [|fuel IH]; intros nd h rom fileBase dirNo out out' Hw E;
    [discriminate|].
  cbn [Dumprom.dir_loop] in E.
  destruct (Dumprom.hdr_dir_entries rom) as [de| | | | |];
    cbn [bind] in E; try discriminate.
  destruct (dirNo <=? de); [|apply Ok_inj in E; subst out'; exact Hw].
  destruct (Dumprom.visit_entry nd h rom fileBase dirNo out) as [o| | | | |] eqn:V;
    cbn [bind] in E; try discriminate.
  exact (IH _ _ _ _ _ _ _ (names_opened_visit_entry _ _ _ _ _ _ _ Hw V) E).
Qed.

(** X19: the names of the files the unpacker leaves.  Every file written
    when [dump_files] ends normally has a name that opened for writing, of
    at most 12 characters (8 of the name field, the dot, 3 of the type
    field), with no space and no NUL in it: both fields are cut at their
    first space, and [open] reads the name up to its first NUL. *)
Theorem unpacked_names_are_short_and_plain (nd : bool) (h : host)
    (rom : list byte) (files : list (string * list byte)) :
  Dumprom.dump_files nd h rom = Ok files ->
  Forall (fun f => can_write h (fst f) = true
                   /\ (String.length (fst f) <= 12)%nat
                   /\ plain (fst f) = true) files.
Proof.
  intros E. unfold Dumprom.dump_files in E.
  destruct (Dumprom.rd rom (Hdr.id + 0)) as [id0| | | | |];
    cbn [bind] in E; try discriminate.
  match type of E with
  | bind ?m _ = _ => destruct m as [[|]| | | | |]; cbn [bind] in E;
                     try discriminate
  end.
  destruct (Dumprom.file_area_offset nd rom) as [fb| | | | |];
    cbn [bind] in E; try discriminate.
  destruct (Dumprom.dir_loop Dumprom.loop_fuel nd h rom fb 1
              (Dumprom.mkOut [] None)) as [o| | | | |] eqn:El;
    cbn [bind] in E; try discriminate.
  apply Ok_inj in E. subst files. cbn [Dumprom.written Dumprom.close].
  refine (proj1 (names_opened_dir_loop _ _ _ _ _ _ _ _ _ El)).
  split; [constructor | discriminate].
Qed.

Lemma unpacked_names_are_short_and_plain_witness :
  Dumprom.dump_files false no_files small_rom
  = Ok [("A.B"%string, repeat xe5 1024)]
  /\ Forall (fun f : string * list byte =>
               can_write no_files (fst f) = true
               /\ (String.length (fst f) <= 12)%nat
               /\ plain (fst f) = true)
       [("A.B"%string, repeat xe5 1024)].
Proof.
  assert (E : Dumprom.dump_files false no_files small_rom
              = Ok [("A.B"%string, repeat xe5 1024)])
    by (vm_compute; reflexivity).
  split; [exact E|].
  exact (unpacked_names_are_short_and_plain false no_files small_rom _ E).
Defined.

(** ** Reads inside the image *)

Lemma defined_bind {A B : Type} (m : outcome A) (k : A -> outcome B) :
  defined m -> (forall a, m = Ok a -> defined (k a)) -> defined (bind m k).
Proof.
  intros Hm Hk. destruct m; cbn [bind defined] in *; auto.
Qed.

Lemma defined_assert {A : Type} (nd c : bool) (e : string) (k : outcome A) :
  defined k -> defined (Dumprom.assert nd c e k).
Proof.
  intros H. unfold Dumprom.assert. destruct nd; [exact H|].
  destruct c; [exact H | exact I].
Qed.

Lemma in_zrange (n : nat) : forall s d, In d (zrange s n) <-> s <= d < s + Z.of_nat n.
Proof.
  induction n as [|n IH]; intros s d; cbn [zrange In].
  - lia.
  - rewrite IH. lia.
Qed.

Lemma Z_of_byte_nonzero (b : byte) : Byte.eqb b x00 = false -> 1 <= Z_of_byte b.
Proof.
  intros E. pose proof (Z_of_byte_range b) as R.
  destruct (Z.eq_dec (Z_of_byte b) 0) as [Z0|]; [|lia].
  pose proof (byte_of_Z_of_byte b) as B. rewrite Z0 in B.
  rewrite <- B in E. discriminate E.
Qed.

(** The loop over an allocation map all of whose blocks are inside the
    image. *)
Lemma write_blocks_inside (n : nat) :
  forall nd rom fileBase dir i out,
    0 <= dir -> dir + 32 <= zlen rom -> 0 <= fileBase ->
    0 <= i -> i + Z.of_nat n = 16 ->
    (forall m, i <= m < 16 ->
       Byte.eqb (load rom (dir + 16 + m)) x00
       || (fileBase + Z_of_byte (load rom (dir + 16 + m)) * 1024 <=? zlen rom)
       = true) ->
    defined (Dumprom.write_blocks n nd rom fileBase dir i out).
Proof.
  induction n as [|n IH]; intros nd rom fileBase dir i out Hd Hf Hb Hi Hn Hm;
    [exact I|].
  cbn [Dumprom.write_blocks]. unfold Ent.allocation_map.
  rewrite rd_in by lia. cbn [bind].
  specialize (Hm i ltac:(lia)) as Hmi.
  destruct (Byte.eqb (load rom (dir + 16 + i)) x00) eqn:E; cbn [negb orb] in *.
  - cbn [bind]. apply IH; try assumption; try lia.
    intros m Hr. apply Hm. lia.
  - pose proof (Z_of_byte_nonzero _ E) as H1.
    apply Z.leb_le in Hmi.
    rewrite block_address_ok by exact H1. cbn [bind].
    rewrite sub_opt_in by lia. cbn [of_option bind].
    apply IH; try assumption; try lia.
    intros m Hr. apply Hm. lia.
Qed.

(** One step of the walk at a slot that can be visited. *)
Lemma visit_entry_inside (nd : bool) (h : host) (rom : list byte)
    (de fileBase d : Z) (out : Dumprom.ofstream) :
  Dumprom.hdr_dir_entries rom = Ok de -> 1 <= d <= de -> 0 <= fileBase ->
  slot_inside rom fileBase d = true ->
  defined (Dumprom.visit_entry nd h rom fileBase d out).
Proof.
  intros Hde Hd Hb Hs. unfold slot_inside in Hs.
  apply andb_prop in Hs. destruct Hs as [Hv Hs]. apply Z.ltb_lt in Hv.
  unfold Dumprom.visit_entry.
  rewrite (dir_entry_offset_ok nd rom de d Hde Hd). cbn [bind].
  unfold Ent.validity, Ent.logical_extent, Ent.file_name, Ent.file_type.
  rewrite Z.add_0_r. rewrite rd_in by lia. cbn [bind].
  destruct (Byte.eqb (load rom (d * 32)) x00); [|exact I].
  cbn [negb orb] in Hs. apply andb_prop in Hs. destruct Hs as [Hf Hm].
  apply Z.leb_le in Hf.
  assert (Hmap : forall m, 0 <= m < 16 ->
             Byte.eqb (load rom (d * 32 + 16 + m)) x00
             || (fileBase + Z_of_byte (load rom (d * 32 + 16 + m)) * 1024
                 <=? zlen rom) = true).
  { intros m Hr.
    apply (proj1 (forallb_forall _ _) Hm m). apply in_zrange. lia. }
  rewrite rd_in by lia. cbn [bind].
  destruct (Byte.eqb (load rom (d * 32 + 12)) x00).
  - rewrite !sub_opt_in by lia. cbn [of_option bind].
    unfold Dumprom.open. destruct (can_write h _); cbn [bind]; [|exact I].
    apply write_blocks_inside; try assumption; lia.
  - apply write_blocks_inside; try assumption; lia.
Qed.

Lemma visit_all_inside (n : nat) :
  forall nd h rom de fileBase s out,
    Dumprom.hdr_dir_entries rom = Ok de -> 0 <= fileBase ->
    (forall d, s <= d < s + Z.of_nat n ->
       1 <= d <= de /\ slot_inside rom fileBase d = true) ->
    defined (visit_all nd h rom fileBase (zrange s n) out).
Proof.
  induction n as [|n IH]; intros nd h rom de fileBase s out Hde Hb H;
    [exact I|].
  cbn [zrange visit_all].
  destruct (H s ltac:(lia)) as [Hs Hi].
  apply defined_bind.
  - apply (visit_entry_inside nd h rom de); assumption.
  - intros out' _. apply (IH nd h rom de); try assumption.
    intros d Hd. apply H. lia.
Qed.

(** The part of [dump_files] after the identification check, on an image
    whose walk stays inside. *)
Lemma walk_defined (nd : bool) (h : host) (rom : list byte) :
  walk_inside rom = true ->
  defined
    (fileBase <- Dumprom.file_area_offset nd rom ;;
     out <- Dumprom.dir_loop Dumprom.loop_fuel nd h rom fileBase 1
              (Dumprom.mkOut [] None) ;;
     Ok (Dumprom.written (Dumprom.close out))).
Proof.
  intros W. unfold walk_inside in W. cbv zeta in W.
  apply andb_prop in W. destruct W as [W Hs].
  apply andb_prop in W. destruct W as [Hh Hm].
  apply Z.ltb_lt in Hh. apply Z.ltb_lt in Hm.
  set (de := Z_of_byte (load rom Hdr.dir_entries)) in *.
  pose proof (Z_of_byte_range (load rom Hdr.dir_entries)) as Hr. fold de in Hr.
  assert (Hde : Dumprom.hdr_dir_entries rom = Ok de).
  { unfold Dumprom.hdr_dir_entries.
    rewrite load_opt_in by (unfold Hdr.dir_entries in *; lia). reflexivity. }
  apply defined_bind.
  { unfold Dumprom.file_area_offset. rewrite Hde. cbn [bind].
    do 2 apply defined_assert. exact I. }
  intros fileBase Ef.
  destruct (file_area_offset_ok nd rom fileBase Ef) as (de' & Hde' & _ & -> & _).
  rewrite Hde in Hde'. apply Ok_inj in Hde'. subst de'.
  apply defined_bind; [|intros; exact I].
  rewrite (dir_loop_visit_all Dumprom.loop_fuel nd h rom (de * 32) de 1)
    by (try exact Hde; unfold Dumprom.loop_fuel; lia).
  apply (visit_all_inside _ nd h rom de); [exact Hde | lia |].
  intros d Hd. split; [lia|].
  apply (proj1 (forallb_forall _ _) Hs d). apply in_zrange. lia.
Qed.

(** X11: the unpacker on an image whose walk stays inside it: the header
    is inside, [dir_entries] is below 255, and every slot from 1 to
    [dir_entries] has its validity byte inside the image and, when valid,
    lies inside with every block its allocation map names.  The source
    makes no such test ([romSize] is never used); on such an image no read
    leaves the image and the run ends; every file written when it ends
    normally holds a whole number of 1024-byte blocks. *)
Theorem unpacked_files_are_whole_blocks (nd : bool) (h : host)
    (rom : list byte) :
  walk_inside rom = true ->
  Dumprom.dump_files nd h rom <> Undefined
  /\ Dumprom.dump_files nd h rom <> Diverges
  /\ forall files,
       Dumprom.dump_files nd h rom = Ok files ->
       Forall (fun f => zlen (snd f) mod 1024 = 0) files.
Proof.
  intros W.
  split; [|split; [|intros files E; exact (dump_files_whole_blocks nd h rom files E)]].
  - pose proof (walk_defined nd h rom W) as D.
    unfold walk_inside in W. cbv zeta in W.
    apply andb_prop in W. destruct W as [W _].
    apply andb_prop in W. destruct W as [Hh _]. apply Z.ltb_lt in Hh.
    unfold Hdr.dir_entries in Hh.
    pose proof (load_opt_in rom 0 ltac:(lia)) as H0.
    pose proof (load_opt_in rom 1 ltac:(lia)) as H1.
    destruct (Byte.eqb (load rom 0) xe5) eqn:E0.
    + apply Byte.byte_dec_bl in E0.
      rewrite (magic_check_passes nd h rom _ _ H0 H1 (or_introl E0)).
      intros E. rewrite E in D. exact D.
    + destruct (Byte.eqb (load rom 1) x37) eqn:E1.
      * apply Byte.byte_dec_bl in E1.
        rewrite (magic_check_passes nd h rom _ _ H0 H1 (or_intror E1)).
        intros E. rewrite E in D. exact D.
      * rewrite (magic_check_refuses nd h rom _ _ H0 H1)
          by (intros N; rewrite N in *; discriminate).
        discriminate.
  - assert (Hnd : nd = true -> load_opt rom Hdr.dir_entries <> Some xff).
    { intros _ N. unfold walk_inside in W. cbv zeta in W.
      apply andb_prop in W. destruct W as [W _].
      apply andb_prop in W. destruct W as [Hh Hm].
      apply Z.ltb_lt in Hh. apply Z.ltb_lt in Hm.
      rewrite load_opt_in in N by (unfold Hdr.dir_entries in *; lia).
      injection N as N. rewrite N in Hm. vm_compute in Hm. discriminate. }
    pose proof (walk_ends nd h rom Hnd) as D.
    unfold walk_inside in W. cbv zeta in W.
    apply andb_prop in W. destruct W as [W _].
    apply andb_prop in W. destruct W as [Hh _]. apply Z.ltb_lt in Hh.
    unfold Hdr.dir_entries in Hh.
    pose proof (load_opt_in rom 0 ltac:(lia)) as H0.
    pose proof (load_opt_in rom 1 ltac:(lia)) as H1.
    destruct (Byte.eqb (load rom 0) xe5) eqn:E0.
    + apply Byte.byte_dec_bl in E0.
      rewrite (magic_check_passes nd h rom _ _ H0 H1 (or_introl E0)).
      intros E. rewrite E in D. exact D.
    + destruct (Byte.eqb (load rom 1) x37) eqn:E1.
      * apply Byte.byte_dec_bl in E1.
        rewrite (magic_check_passes nd h rom _ _ H0 H1 (or_intror E1)).
        intros E. rewrite E in D. exact D.
      * rewrite (magic_check_refuses nd h rom _ _ H0 H1)
          by (intros N; rewrite N in *; discriminate).
        discriminate.
Qed.

Lemma unpacked_files_are_whole_blocks_witness :
  walk_inside small_rom = true
  /\ Dumprom.dump_files false no_files small_rom
     = Ok [("A.B"%string, repeat xe5 1024)]
  /\ Forall (fun f : string * list byte => zlen (snd f) mod 1024 = 0)
       [("A.B"%string, repeat xe5 1024)].
Proof.
  assert (W : walk_inside small_rom = true) by (vm_compute; reflexivity).
  assert (E : Dumprom.dump_files false no_files small_rom
              = Ok [("A.B"%string, repeat xe5 1024)])
    by (vm_compute; reflexivity).
  split; [exact W|]. split; [exact E|].
  exact (proj2 (proj2 (unpacked_files_are_whole_blocks false no_files small_rom
                         W)) _ E).
Defined.
